(** * Transfer-hook extra-account resolution (src/unnamed/part_000, the transfer-hook state module)

    A shallow embedding of the extra-account-meta codec and of
    [resolveExtraAccountMeta], with the properties the specification states
    about them.

    - JavaScript exceptions are a sum type: a computation returns [exn + A].
    - Code that writes into a caller-supplied object runs in a state monad
      over that object: [Layout.encode] over the destination Buffer, the
      resolution step over the array its [previousMetas] argument refers to.
    - A Buffer / Uint8Array is a [list byte]; JavaScript integers are [Z].
    - The layout combinators [struct], [seq], [greedy], [blob], [u8], [u32]
      (package @solana/buffer-layout), [bool] (@solana/buffer-layout-utils)
      and the [PublicKey] class (@solana/web3.js) are dependencies of the
      source; their behaviour is modelled here combinator by combinator and
      the layouts of the module are built by composing them as the source does. *)

From Stdlib Require Import ZArith Lia List Bool.
From Stdlib.Strings Require Import Byte String.
From stdpp Require Import base list.
Import ListNotations.
Local Open Scope Z_scope.

(** ** Exceptions and the two monads *)

Inductive exn : Type :=
| TokenTransferHookAccountNotFound   (* errors.js *)
| TokenTransferHookInvalidSeed       (* errors.js, thrown by seeds.js *)
| TypeError                          (* property read on undefined, wrong argument type *)
| RangeError                         (* Buffer access out of bounds, value out of range *)
| Error.                             (* plain [Error] thrown by @solana/web3.js *)

Definition result (A : Type) : Type := (exn + A)%type.

Definition ok {A} (a : A) : result A := inr a.
Definition throw {A} (e : exn) : result A := inl e.

Definition rbind {A B} (r : result A) (k : A -> result B) : result B :=
  match r with
  | inl e => inl e
  | inr a => k a
  end.

(** [M S A]: a computation that may write to an object of type [S] and
    either returns an [A] or throws.  A throw keeps the writes made so far. *)
Definition M (S A : Type) : Type := S -> result A * S.

Definition mret {S A} (a : A) : M S A := fun s => (ok a, s).
Definition mthrow {S A} (e : exn) : M S A := fun s => (throw e, s).
Definition mbind {S A B} (c : M S A) (k : A -> M S B) : M S B :=
  fun s => match c s with
           | (inl e, s') => (inl e, s')
           | (inr a, s') => k a s'
           end.
Definition mget {S} : M S S := fun s => (ok s, s).
Definition mput {S} (s' : S) : M S unit := fun _ => (ok tt, s').
Definition mlift {S A} (r : result A) : M S A := fun s => (r, s).

Declare Scope result_scope.
Delimit Scope result_scope with result.
Declare Scope M_scope.
Delimit Scope M_scope with M.

Notation "'let*' x ':=' c 'in' k" := (rbind c (fun x => k))
  (at level 10, x name, c at level 100, k at level 200) : result_scope.
Notation "'let*' x ':=' c 'in' k" := (mbind c (fun x => k))
  (at level 10, x name, c at level 100, k at level 200) : M_scope.
Bind Scope result_scope with result.
Bind Scope M_scope with M.

(** ** Node's Buffer *)

Module Buffer.

Definition t : Type := list byte.

Definition byte_to_Z (x : byte) : Z := Z.of_N (Byte.to_N x).

Definition byte_of_Z (v : Z) : byte :=
  match Byte.of_N (Z.to_N (v mod 256)) with
  | Some x => x
  | None => "000"%byte
  end.

(** [buf.length] *)
Definition length (b : t) : Z := Z.of_nat (List.length b).

(** [Buffer.alloc(n)] *)
Definition alloc (n : Z) : t := replicate (Z.to_nat n) "000"%byte.

(** [Buffer.from(str)] for an ASCII string *)
Definition from (s : string) : t := list_byte_of_string s.

(** little-endian value of a run of bytes *)
Fixpoint le_value (bs : list byte) : Z :=
  match bs with
  | [] => 0
  | x :: rest => byte_to_Z x + 256 * le_value rest
  end.

(** the [n] low bytes of [v], least significant first *)
Fixpoint le_bytes (n : nat) (v : Z) : list byte :=
  match n with
  | O => []
  | S n' => byte_of_Z v :: le_bytes n' (v / 256)
  end.

(** [buf.slice(start, end)]: both ends are clamped to the buffer, an empty
    range gives an empty Buffer; never throws. *)
Definition slice (b : t) (start end_ : Z) : t :=
  let s := Z.min (Z.max start 0) (length b) in
  let e := Z.min (Z.max end_ 0) (length b) in
  take (Z.to_nat (e - s)) (drop (Z.to_nat s) b).

(** [buf.readUIntLE(offset, byteLength)]: a RangeError when the bytes are not
    all inside the buffer. *)
Definition readUIntLE (b : t) (offset byteLength : Z) : result Z :=
  if (0 <=? offset) && (offset + byteLength <=? length b)
  then ok (le_value (take (Z.to_nat byteLength) (drop (Z.to_nat offset) b)))
  else throw RangeError.

(** overwrite the bytes at [offset ..] with [bs] (the caller has checked that
    they fit) *)
Definition set (b : t) (offset : Z) (bs : list byte) : t :=
  take (Z.to_nat offset) b ++ bs ++ drop (Z.to_nat offset + List.length bs) b.

(** [buf.writeUIntLE(value, offset, byteLength)]: a RangeError when the value
    does not fit in [byteLength] bytes or the bytes are not all inside the
    buffer; returns the offset after the written bytes. *)
Definition writeUIntLE (value offset byteLength : Z) : M t Z :=
  fun b =>
    if (0 <=? value) && (value <? 2 ^ (8 * byteLength))
       && (0 <=? offset) && (offset + byteLength <=? length b)
    then (ok (offset + byteLength), set b offset (le_bytes (Z.to_nat byteLength) value))
    else (throw RangeError, b).

(** [buf.write(src.toString('hex'), offset, span, 'hex')] as Blob.encode uses
    it: copies the [span] bytes of [src] to [offset]; the caller has checked
    that they fit. *)
Definition write_hex (src : t) (offset span : Z) : M t Z :=
  fun b => (ok span, set b offset (take (Z.to_nat span) src)).

End Buffer.

(** ** The layout combinators of @solana/buffer-layout *)

Module BufferLayout.

(** A [Layout<T>] object: its [span] (-1 when it depends on the data), and its
    methods [getSpan(b?, offset)], [decode(b, offset)] and
    [encode(src, b, offset)].  [getSpan] may be called without a buffer (the
    Structure constructor does), hence the [option]. *)
Record Layout (T : Type) : Type := mkLayout {
  span : Z;
  getSpan : option Buffer.t -> Z -> result Z;
  decode : Buffer.t -> Z -> result T;
  encode : T -> Z -> M Buffer.t Z;
}.
Arguments mkLayout {T}.
Arguments span {T}.
Arguments getSpan {T}.
Arguments decode {T}.
Arguments encode {T}.

(** [Layout.prototype.getSpan], inherited by the fixed-size layouts *)
Definition Layout_getSpan (span : Z) : result Z :=
  if 0 >? span then throw RangeError else ok span.

(** [class UInt]: [readUIntLE] / [writeUIntLE] over [span] bytes *)
Definition UInt (span : Z) : Layout Z :=
  {| span := span;
     getSpan := fun _ _ => Layout_getSpan span;
     decode := fun b offset => Buffer.readUIntLE b offset span;
     encode := fun src offset =>
       (let* _ := Buffer.writeUIntLE src offset span in mret span)%M |}.

Definition u8 : Layout Z := UInt 1.
Definition u32 : Layout Z := UInt 4.

(** [class Blob] with a numeric length.  [decode] is [slice], which clamps and
    never throws; [encode] wants a source of exactly [length] bytes
    (TypeError otherwise) that fits in the buffer (RangeError otherwise). *)
Definition blob (length : Z) : Layout Buffer.t :=
  {| span := length;
     getSpan := fun _ _ => ok length;
     decode := fun b offset => ok (Buffer.slice b offset (offset + length));
     encode := fun src offset =>
       fun b =>
         if negb (Buffer.length src =? length) then (throw TypeError, b)
         else if offset + length >? Buffer.length b then (throw RangeError, b)
         else Buffer.write_hex src offset length b |}.

(** [class ExternalLayout]: a layout used as the count of a sequence *)
Record ExternalLayout : Type := mkExternal {
  ext_decode : option Buffer.t -> Z -> result Z;
  ext_encode : Z -> Z -> M Buffer.t Z;
}.

(** [class GreedyCount]: as many elements of [elementSpan] bytes as fit in
    the rest of the buffer; [checkUint8Array] throws a TypeError when there
    is no buffer; [encode] writes nothing. *)
Definition greedy (elementSpan : Z) : ExternalLayout :=
  {| ext_decode := fun b offset =>
       match b with
       | None => throw TypeError
       | Some b => ok ((Buffer.length b - offset) / elementSpan)
       end;
     ext_encode := fun _ _ => mret 0 |}.

(** the [count] argument of [seq]: a number or an external layout *)
Inductive Count : Type :=
| CountNumber (n : Z)
| CountExternal (c : ExternalLayout).

Definition count_value (count : Count) (b : option Buffer.t) (offset : Z) : result Z :=
  match count with
  | CountNumber n => ok n
  | CountExternal c => ext_decode c b offset
  end.

Section Sequence.
Context {T : Type} (elementLayout : Layout T) (count : Count).

Definition seq_span : Z :=
  match count with
  | CountNumber n => if 0 <? span elementLayout then n * span elementLayout else -1
  | CountExternal _ => -1
  end.

(** [while (idx < count) { span += elementLayout.getSpan(b, offset + span); ++idx; }] *)
Fixpoint seq_getSpan_loop (b : option Buffer.t) (offset : Z) (n : nat) (sp : Z) : result Z :=
  match n with
  | O => ok sp
  | S n' =>
      (let* s := getSpan elementLayout b (offset + sp) in
       seq_getSpan_loop b offset n' (sp + s))%result
  end.

Definition seq_getSpan (b : option Buffer.t) (offset : Z) : result Z :=
  if 0 <=? seq_span then ok seq_span
  else
    (let* c := count_value count b offset in
     if 0 <? span elementLayout then ok (c * span elementLayout)
     else seq_getSpan_loop b offset (Z.to_nat c) 0)%result.

(** [while (i < count) { rv.push(elementLayout.decode(b, offset));
                         offset += elementLayout.getSpan(b, offset); i += 1; }] *)
Fixpoint seq_decode_loop (b : Buffer.t) (n : nat) (offset : Z) : result (list T) :=
  match n with
  | O => ok []
  | S n' =>
      (let* v := decode elementLayout b offset in
       let* s := getSpan elementLayout (Some b) offset in
       let* rv := seq_decode_loop b n' (offset + s) in
       ok (v :: rv))%result
  end.

Definition seq_decode (b : Buffer.t) (offset : Z) : result (list T) :=
  (let* c := count_value count (Some b) offset in
   seq_decode_loop b (Z.to_nat c) offset)%result.

(** [src.reduce((span, v) => span + elo.encode(v, b, offset + span), 0)] *)
Fixpoint seq_encode_loop (src : list T) (offset sp : Z) : M Buffer.t Z :=
  match src with
  | [] => mret sp
  | v :: rest =>
      (let* w := encode elementLayout v (offset + sp) in
       seq_encode_loop rest offset (sp + w))%M
  end.

Definition seq_encode (src : list T) (offset : Z) : M Buffer.t Z :=
  (let* sp := seq_encode_loop src offset 0 in
   match count with
   | CountExternal c =>
       let* _ := ext_encode c (Z.of_nat (List.length src)) offset in mret sp
   | CountNumber _ => mret sp
   end)%M.

(** [class Sequence] *)
Definition seq : Layout (list T) :=
  {| span := seq_span;
     getSpan := seq_getSpan;
     decode := seq_decode;
     encode := seq_encode |}.

End Sequence.

(** A field of a [Structure]: the field's layout together with the property
    it reads from the source object and writes in the destination object. *)
Record Field (T : Type) : Type := mkField {
  field_type : Type;
  field_layout : Layout field_type;
  field_get : T -> field_type;
  field_set : field_type -> T -> T;
}.
Arguments mkField {T field_type}.
Arguments field_type {T}.
Arguments field_layout {T}.
Arguments field_get {T}.
Arguments field_set {T}.

Section Structure.
Context {T : Type} (makeDestinationObject : T) (fields : list (Field T)).

(** constructor: [fields.reduce((span, fd) => span + fd.getSpan(), 0)], and
    -1 when some [getSpan()] throws *)
Fixpoint struct_span_loop (fds : list (Field T)) (sp : Z) : result Z :=
  match fds with
  | [] => ok sp
  | fd :: rest =>
      (let* s := getSpan (field_layout fd) None 0 in
       struct_span_loop rest (sp + s))%result
  end.

Definition struct_span : Z :=
  match struct_span_loop fields 0 with
  | inr sp => sp
  | inl _ => -1
  end.

Fixpoint struct_getSpan_loop (fds : list (Field T)) (b : option Buffer.t)
    (offset sp : Z) : result Z :=
  match fds with
  | [] => ok sp
  | fd :: rest =>
      (let* fsp := getSpan (field_layout fd) b offset in
       struct_getSpan_loop rest b (offset + fsp) (sp + fsp))%result
  end.

Definition struct_getSpan (b : option Buffer.t) (offset : Z) : result Z :=
  if 0 <=? struct_span then ok struct_span
  else
    match struct_getSpan_loop fields b offset 0 with
    | inr sp => ok sp
    | inl _ => throw RangeError
    end.

(** [for (const fd of this.fields) { dest[fd.property] = fd.decode(b, offset);
                                     offset += fd.getSpan(b, offset); }] *)
Fixpoint struct_decode_loop (fds : list (Field T)) (b : Buffer.t) (offset : Z)
    (dest : T) : result T :=
  match fds with
  | [] => ok dest
  | fd :: rest =>
      (let* v := decode (field_layout fd) b offset in
       let* s := getSpan (field_layout fd) (Some b) offset in
       struct_decode_loop rest b (offset + s) (field_set fd v dest))%result
  end.

Definition struct_decode (b : Buffer.t) (offset : Z) : result T :=
  struct_decode_loop fields b offset makeDestinationObject.

(** the loop of [Structure.encode]; it returns [lastOffset + lastWrote] *)
Fixpoint struct_encode_loop (fds : list (Field T)) (src : T)
    (offset lastOffset lastWrote : Z) : M Buffer.t Z :=
  match fds with
  | [] => mret (lastOffset + lastWrote)
  | fd :: rest =>
      let sp := span (field_layout fd) in
      (let* w := encode (field_layout fd) (field_get fd src) offset in
       let* sp' := (if 0 >? sp
                    then fun b => (getSpan (field_layout fd) (Some b) offset, b)
                    else mret sp) in
       struct_encode_loop rest src (offset + sp') offset w)%M
  end.

Definition struct_encode (src : T) (offset : Z) : M Buffer.t Z :=
  (let* last := struct_encode_loop fields src offset 0 0 in
   mret (last - offset))%M.

(** [class Structure] (every field of the structures below is named and
    present in the source object, [decodePrefixes] is false) *)
Definition struct : Layout T :=
  {| span := struct_span;
     getSpan := struct_getSpan;
     decode := struct_decode;
     encode := struct_encode |}.

End Structure.

End BufferLayout.

(** ** [bool] of @solana/buffer-layout-utils: a [u8] read as [!!src] and
    written as [Number(bool)] *)

Module BufferLayoutUtils.

Definition bool : BufferLayout.Layout Datatypes.bool :=
  {| BufferLayout.span := BufferLayout.span BufferLayout.u8;
     BufferLayout.getSpan := BufferLayout.getSpan BufferLayout.u8;
     BufferLayout.decode := fun b offset =>
       (let* src := BufferLayout.decode BufferLayout.u8 b offset in
        ok (negb (src =? 0)))%result;
     BufferLayout.encode := fun v offset =>
       BufferLayout.encode BufferLayout.u8 (if v then 1 else 0) offset |}.

End BufferLayoutUtils.

(** ** [PublicKey] of @solana/web3.js

    A public key holds a big number [_bn].  [new PublicKey(bytes)] reads the
    bytes big-endian and throws when the number needs more than 32 bytes;
    [toBuffer()] gives the 32 big-endian bytes, zero-padded on the left. *)

Module PublicKey.

Record t : Type := mk { _bn : Z }.

Definition PUBLIC_KEY_LENGTH : Z := 32.

Definition new (value : Buffer.t) : result t :=
  let bn := Buffer.le_value (rev value) in
  if bn <? 2 ^ (8 * PUBLIC_KEY_LENGTH) then ok (mk bn) else throw Error.

Definition toBuffer (k : t) : Buffer.t :=
  rev (Buffer.le_bytes (Z.to_nat PUBLIC_KEY_LENGTH) (_bn k)).

(** [PublicKey.default]: the all-zero key *)
Definition default : t := mk 0.

End PublicKey.

(** [AccountMeta] of @solana/web3.js *)
Module AccountMeta.
Record t : Type := mk {
  pubkey : PublicKey.t;
  isSigner : bool;
  isWritable : bool;
}.
End AccountMeta.

(** ** The descriptor and its layouts *)

(** [interface ExtraAccountMeta] *)
Module ExtraAccountMeta.
Record t : Type := mk {
  discriminator : Z;
  addressConfig : Buffer.t;
  isSigner : bool;
  isWritable : bool;
}.

Definition set_discriminator (v : Z) (m : t) : t :=
  mk v (addressConfig m) (isSigner m) (isWritable m).
Definition set_addressConfig (v : Buffer.t) (m : t) : t :=
  mk (discriminator m) v (isSigner m) (isWritable m).
Definition set_isSigner (v : bool) (m : t) : t :=
  mk (discriminator m) (addressConfig m) v (isWritable m).
Definition set_isWritable (v : bool) (m : t) : t :=
  mk (discriminator m) (addressConfig m) (isSigner m) v.

(** the object a Structure starts decoding into; every field is assigned
    before the object is returned *)
Definition empty : t := mk 0 [] false false.
End ExtraAccountMeta.

(** [interface ExtraAccountMetaList] *)
Module ExtraAccountMetaList.
Record t : Type := mk {
  count : Z;
  extraAccounts : list ExtraAccountMeta.t;
}.

Definition set_count (v : Z) (l : t) : t := mk v (extraAccounts l).
Definition set_extraAccounts (v : list ExtraAccountMeta.t) (l : t) : t :=
  mk (count l) v.

Definition empty : t := mk 0 [].
End ExtraAccountMetaList.

Definition ExtraAccountMetaLayout : BufferLayout.Layout ExtraAccountMeta.t :=
  BufferLayout.struct ExtraAccountMeta.empty
    [ BufferLayout.mkField BufferLayout.u8
        ExtraAccountMeta.discriminator ExtraAccountMeta.set_discriminator;
      BufferLayout.mkField (BufferLayout.blob 32)
        ExtraAccountMeta.addressConfig ExtraAccountMeta.set_addressConfig;
      BufferLayout.mkField BufferLayoutUtils.bool
        ExtraAccountMeta.isSigner ExtraAccountMeta.set_isSigner;
      BufferLayout.mkField BufferLayoutUtils.bool
        ExtraAccountMeta.isWritable ExtraAccountMeta.set_isWritable ].

Definition ExtraAccountMetaListLayout : BufferLayout.Layout ExtraAccountMetaList.t :=
  BufferLayout.struct ExtraAccountMetaList.empty
    [ BufferLayout.mkField BufferLayout.u32
        ExtraAccountMetaList.count ExtraAccountMetaList.set_count;
      BufferLayout.mkField
        (BufferLayout.seq ExtraAccountMetaLayout
           (BufferLayout.CountExternal
              (BufferLayout.greedy (BufferLayout.span ExtraAccountMetaLayout))))
        ExtraAccountMetaList.extraAccounts ExtraAccountMetaList.set_extraAccounts ].

(** [getExtraAccountMetas(account)], on the account's data *)
Definition getExtraAccountMetas (data : Buffer.t) : result (list ExtraAccountMeta.t) :=
  (let* l := BufferLayout.decode ExtraAccountMetaListLayout data 0 in
   ok (ExtraAccountMetaList.extraAccounts l))%result.

(** ** The resolution step and the config-account address *)

(** A call to one of the two collaborators, with its arguments. *)
Inductive Call : Type :=
| CallUnpackSeeds (seeds : Buffer.t) (previousMetas : list AccountMeta.t)
    (instructionData : Buffer.t)
| CallFindProgramAddressSync (seeds : list Buffer.t) (programId : PublicKey.t).

(** What a call of this module can touch outside its own locals: the array its
    [previousMetas] argument refers to (shared with the caller, who appends
    every resolved reference to it), and the collaborators, whose calls are
    recorded in order. *)
Record World : Type := mkWorld {
  previousMetas_array : list AccountMeta.t;
  calls : list Call;
}.

(** [arr[i]] for a JavaScript number [i]: [undefined] outside [0 .. length-1] *)
Definition array_get {A} (arr : list A) (i : Z) : option A :=
  if 0 <=? i then arr !! Z.to_nat i else None.

Section TransferHook.

(** [unpackSeeds] of ./seeds.js and [PublicKey.findProgramAddressSync] of
    @solana/web3.js: functions of their arguments that return or throw. *)
Variable unpackSeeds :
  Buffer.t -> list AccountMeta.t -> Buffer.t -> result (list Buffer.t).
Variable findProgramAddressSync :
  list Buffer.t -> PublicKey.t -> result (PublicKey.t * Z).

Definition log {A} (c : Call) (r : result A) : M World A :=
  fun w => (r, mkWorld (previousMetas_array w) (calls w ++ [c])).

(** [previousMetas.length] *)
Definition previousMetas_length : M World Z :=
  fun w => (ok (Z.of_nat (List.length (previousMetas_array w))), w).

(** [previousMetas[accountIndex].pubkey]: a TypeError when the element is
    [undefined] *)
Definition previousMetas_pubkey (accountIndex : Z) : M World PublicKey.t :=
  fun w =>
    match array_get (previousMetas_array w) accountIndex with
    | Some meta => (ok (AccountMeta.pubkey meta), w)
    | None => (throw TypeError, w)
    end.

(** [unpackSeeds(addressConfig, previousMetas, instructionData)] *)
Definition call_unpackSeeds (addressConfig instructionData : Buffer.t)
  : M World (list Buffer.t) :=
  fun w =>
    let previousMetas := previousMetas_array w in
    log (CallUnpackSeeds addressConfig previousMetas instructionData)
        (unpackSeeds addressConfig previousMetas instructionData) w.

(** [PublicKey.findProgramAddressSync(seeds, programId)] *)
Definition call_findProgramAddressSync (seeds : list Buffer.t)
    (programId : PublicKey.t) : M World (PublicKey.t * Z) :=
  log (CallFindProgramAddressSync seeds programId)
      (findProgramAddressSync seeds programId).

(** the body of [resolveExtraAccountMeta]; [previousMetas] is read through
    the world.  The local [programId] starts as [PublicKey.default] and is
    assigned on both branches before its only use, so it is bound once here. *)
Definition resolveExtraAccountMeta_body (extraMeta : ExtraAccountMeta.t)
    (instructionData : Buffer.t) (transferHookProgramId : PublicKey.t)
  : M World AccountMeta.t :=
  if ExtraAccountMeta.discriminator extraMeta =? 0 then
    (let* pubkey := mlift (PublicKey.new (ExtraAccountMeta.addressConfig extraMeta)) in
     mret (AccountMeta.mk pubkey (ExtraAccountMeta.isSigner extraMeta)
                          (ExtraAccountMeta.isWritable extraMeta)))%M
  else
    (let* programId :=
       (if ExtraAccountMeta.discriminator extraMeta =? 1 then
          mret transferHookProgramId
        else
          let accountIndex := ExtraAccountMeta.discriminator extraMeta - Z.shiftl 1 7 in
          let* length := previousMetas_length in
          if length <=? accountIndex then mthrow TokenTransferHookAccountNotFound
          else previousMetas_pubkey accountIndex) in
     let* seeds := call_unpackSeeds (ExtraAccountMeta.addressConfig extraMeta)
                                    instructionData in
     let* found := call_findProgramAddressSync seeds programId in
     mret (AccountMeta.mk (fst found) (ExtraAccountMeta.isSigner extraMeta)
                          (ExtraAccountMeta.isWritable extraMeta)))%M.

(** [resolveExtraAccountMeta(extraMeta, previousMetas, instructionData,
    transferHookProgramId)]: what it returns or throws, together with the
    array [previousMetas] refers to and the collaborator calls after it. *)
Definition resolveExtraAccountMeta (extraMeta : ExtraAccountMeta.t)
    (previousMetas : list AccountMeta.t) (instructionData : Buffer.t)
    (transferHookProgramId : PublicKey.t) : result AccountMeta.t * World :=
  resolveExtraAccountMeta_body extraMeta instructionData transferHookProgramId
    (mkWorld previousMetas []).

(** Lines 120-123 run from a world with no call recorded: what the derived
    path does once the owning program [programId] is known. *)
Definition derive_with (extraMeta : ExtraAccountMeta.t)
    (previousMetas : list AccountMeta.t) (instructionData : Buffer.t)
    (programId : PublicKey.t) : result AccountMeta.t * World :=
  let config := ExtraAccountMeta.addressConfig extraMeta in
  match unpackSeeds config previousMetas instructionData with
  | inl e =>
      (inl e, mkWorld previousMetas
                [CallUnpackSeeds config previousMetas instructionData])
  | inr seeds =>
      (match findProgramAddressSync seeds programId with
       | inl e => inl e
       | inr found =>
           inr (AccountMeta.mk (fst found) (ExtraAccountMeta.isSigner extraMeta)
                               (ExtraAccountMeta.isWritable extraMeta))
       end,
       mkWorld previousMetas
         [CallUnpackSeeds config previousMetas instructionData;
          CallFindProgramAddressSync seeds programId])
  end.

(** [getExtraAccountMetaAccount(programId, mint)] *)
Definition getExtraAccountMetaAccount (programId mint : PublicKey.t)
  : M World PublicKey.t :=
  let seeds := [Buffer.from "extra-account-metas"; PublicKey.toBuffer mint] in
  (let* found := call_findProgramAddressSync seeds programId in
   mret (fst found))%M.

End TransferHook.

(** ** The byte image of a descriptor *)

(** a flag as [bool] writes it: [Number(v)] in one byte *)
Definition bool_byte (v : bool) : byte := Buffer.byte_of_Z (if v then 1 else 0).

(** the bytes of one descriptor, in the order of the specification's table:
    discriminator, the 32 bytes of [addressConfig], [isSigner], [isWritable] *)
Definition descriptor_bytes (d : ExtraAccountMeta.t) : list byte :=
  [Buffer.byte_of_Z (ExtraAccountMeta.discriminator d)]
  ++ ExtraAccountMeta.addressConfig d
  ++ [bool_byte (ExtraAccountMeta.isSigner d)]
  ++ [bool_byte (ExtraAccountMeta.isWritable d)].

(** a descriptor as the layout can hold it: a one-byte discriminator and a
    32-byte configuration *)
Definition well_formed (d : ExtraAccountMeta.t) : Prop :=
  0 <= ExtraAccountMeta.discriminator d <= 255
  /\ List.length (ExtraAccountMeta.addressConfig d) = 32%nat.

(** ** Stand-ins for the collaborators, used in the examples below

    [demo_unpackSeeds] gives back the configuration, the instruction data and
    the keys resolved so far as seeds, and rejects an empty configuration;
    [demo_findProgramAddressSync] folds the seed lengths into the owner's
    number and finds no address for more than 16 seeds. *)

Definition demo_unpackSeeds (addressConfig : Buffer.t)
    (previousMetas : list AccountMeta.t) (instructionData : Buffer.t)
  : result (list Buffer.t) :=
  match addressConfig with
  | [] => throw TokenTransferHookInvalidSeed
  | _ => ok (addressConfig :: instructionData
             :: map (fun m => PublicKey.toBuffer (AccountMeta.pubkey m)) previousMetas)
  end.

Definition demo_findProgramAddressSync (seeds : list Buffer.t)
    (programId : PublicKey.t) : result (PublicKey.t * Z) :=
  if (16 <? Z.of_nat (List.length seeds)) then throw Error
  else ok (PublicKey.mk
             (fold_left (fun acc s => 2 * acc + Buffer.length s + 1) seeds
                        (PublicKey._bn programId)), 254).

Definition zero_config : Buffer.t := replicate 32 "000"%byte.

Definition key_A : PublicKey.t := PublicKey.mk 11.
Definition hook_id : PublicKey.t := PublicKey.mk 7.

Definition literal_zero : ExtraAccountMeta.t :=
  ExtraAccountMeta.mk 0 zero_config false true.
Definition self_derived : ExtraAccountMeta.t :=
  ExtraAccountMeta.mk 1 (replicate 32 "007"%byte) true false.
Definition delegated_0 : ExtraAccountMeta.t :=
  ExtraAccountMeta.mk 128 (replicate 32 "009"%byte) false true.
Definition below_128 : ExtraAccountMeta.t :=
  ExtraAccountMeta.mk 2 zero_config false false.

Definition resolved_A : AccountMeta.t := AccountMeta.mk key_A false true.

Definition two_descriptors : ExtraAccountMetaList.t :=
  ExtraAccountMetaList.mk 7 [self_derived; literal_zero].

(** ** The other layouts and readers of the transfer-hook module *)

(** [publicKey] of @solana/buffer-layout-utils: a 32-byte blob read with
    [new PublicKey(src)] and written from [publicKey.toBuffer()] *)
Definition publicKey : BufferLayout.Layout PublicKey.t :=
  {| BufferLayout.span := BufferLayout.span (BufferLayout.blob 32);
     BufferLayout.getSpan := BufferLayout.getSpan (BufferLayout.blob 32);
     BufferLayout.decode := fun b offset =>
       (let* src := BufferLayout.decode (BufferLayout.blob 32) b offset in
        PublicKey.new src)%result;
     BufferLayout.encode := fun k offset =>
       BufferLayout.encode (BufferLayout.blob 32) (PublicKey.toBuffer k) offset |}.

(** [interface TransferHook] *)
Module TransferHook.
Record t : Type := mk {
  authority : PublicKey.t;
  programId : PublicKey.t;
}.
Definition set_authority (v : PublicKey.t) (h : t) : t := mk v (programId h).
Definition set_programId (v : PublicKey.t) (h : t) : t := mk (authority h) v.
Definition empty : t := mk PublicKey.default PublicKey.default.
End TransferHook.

Definition TransferHookLayout : BufferLayout.Layout TransferHook.t :=
  BufferLayout.struct TransferHook.empty
    [ BufferLayout.mkField publicKey TransferHook.authority TransferHook.set_authority;
      BufferLayout.mkField publicKey TransferHook.programId TransferHook.set_programId ].

Definition TRANSFER_HOOK_SIZE : Z := BufferLayout.span TransferHookLayout.

(** [interface TransferHookAccount] *)
Module TransferHookAccount.
Record t : Type := mk { transferring : bool }.
Definition set_transferring (v : bool) (a : t) : t := mk v.
Definition empty : t := mk false.
End TransferHookAccount.

Definition TransferHookAccountLayout : BufferLayout.Layout TransferHookAccount.t :=
  BufferLayout.struct TransferHookAccount.empty
    [ BufferLayout.mkField BufferLayoutUtils.bool
        TransferHookAccount.transferring TransferHookAccount.set_transferring ].

Definition TRANSFER_HOOK_ACCOUNT_SIZE : Z := BufferLayout.span TransferHookAccountLayout.

(** the two members of [ExtensionType] (../extensionType.js) this module names *)
Inductive ExtensionType : Type :=
| ExtensionType_TransferHook
| ExtensionType_TransferHookAccount.

Section Extensions.

(** [getExtensionData] of ../extensionType.js: the bytes of an extension in
    the TLV data, [null] when it is absent; it may throw. *)
Variable getExtensionData : ExtensionType -> Buffer.t -> result (option Buffer.t).

(** [getTransferHook(mint)], on [mint.tlvData] *)
Definition getTransferHook (tlvData : Buffer.t) : result (option TransferHook.t) :=
  (let* extensionData := getExtensionData ExtensionType_TransferHook tlvData in
   match extensionData with
   | Some data =>
       let* h := BufferLayout.decode TransferHookLayout data 0 in ok (Some h)
   | None => ok None
   end)%result.

(** [getTransferHookAccount(account)], on [account.tlvData] *)
Definition getTransferHookAccount (tlvData : Buffer.t)
  : result (option TransferHookAccount.t) :=
  (let* extensionData := getExtensionData ExtensionType_TransferHookAccount tlvData in
   match extensionData with
   | Some data =>
       let* a := BufferLayout.decode TransferHookAccountLayout data 0 in ok (Some a)
   | None => ok None
   end)%result.

End Extensions.

(** a key as [new PublicKey] can build it: a number of at most 32 bytes *)
Definition valid_key (k : PublicKey.t) : Prop :=
  0 <= PublicKey._bn k < 2 ^ 256.

(** ** The metadata-pointer instructions (src/unnamed/part_001) *)

Module MetadataPointerInstruction.
Definition Initialize : Z := 0.
Definition Update : Z := 1.
End MetadataPointerInstruction.

(** the object [initializeMetadataPointer] encodes *)
Module InitializeData.
Record t : Type := mk {
  instruction : Z;
  metadataPointerInstruction : Z;
  authority : PublicKey.t;
  metadataAddress : PublicKey.t;
}.
Definition set_instruction (v : Z) (d : t) : t :=
  mk v (metadataPointerInstruction d) (authority d) (metadataAddress d).
Definition set_metadataPointerInstruction (v : Z) (d : t) : t :=
  mk (instruction d) v (authority d) (metadataAddress d).
Definition set_authority (v : PublicKey.t) (d : t) : t :=
  mk (instruction d) (metadataPointerInstruction d) v (metadataAddress d).
Definition set_metadataAddress (v : PublicKey.t) (d : t) : t :=
  mk (instruction d) (metadataPointerInstruction d) (authority d) v.
Definition empty : t := mk 0 0 PublicKey.default PublicKey.default.
End InitializeData.

Definition initializeMetadataPointer : BufferLayout.Layout InitializeData.t :=
  BufferLayout.struct InitializeData.empty
    [ BufferLayout.mkField BufferLayout.u8
        InitializeData.instruction InitializeData.set_instruction;
      BufferLayout.mkField BufferLayout.u8
        InitializeData.metadataPointerInstruction
        InitializeData.set_metadataPointerInstruction;
      BufferLayout.mkField publicKey
        InitializeData.authority InitializeData.set_authority;
      BufferLayout.mkField publicKey
        InitializeData.metadataAddress InitializeData.set_metadataAddress ].

(** the object [updateMetadataPointer] encodes *)
Module UpdateData.
Record t : Type := mk {
  instruction : Z;
  metadataPointerInstruction : Z;
  metadataAddress : PublicKey.t;
}.
Definition set_instruction (v : Z) (d : t) : t :=
  mk v (metadataPointerInstruction d) (metadataAddress d).
Definition set_metadataPointerInstruction (v : Z) (d : t) : t :=
  mk (instruction d) v (metadataAddress d).
Definition set_metadataAddress (v : PublicKey.t) (d : t) : t :=
  mk (instruction d) (metadataPointerInstruction d) v.
Definition empty : t := mk 0 0 PublicKey.default.
End UpdateData.

Definition updateMetadataPointer : BufferLayout.Layout UpdateData.t :=
  BufferLayout.struct UpdateData.empty
    [ BufferLayout.mkField BufferLayout.u8
        UpdateData.instruction UpdateData.set_instruction;
      BufferLayout.mkField BufferLayout.u8
        UpdateData.metadataPointerInstruction UpdateData.set_metadataPointerInstruction;
      BufferLayout.mkField publicKey
        UpdateData.metadataAddress UpdateData.set_metadataAddress ].

(** [TransactionInstruction] of @solana/web3.js *)
Module TransactionInstruction.
Record t : Type := mk {
  keys : list AccountMeta.t;
  programId : PublicKey.t;
  data : Buffer.t;
}.
End TransactionInstruction.

(** what these functions throw: [TokenUnsupportedInstructionError]
    (../../errors.js) or whatever the layout throws while encoding *)
Inductive instruction_exn : Type :=
| TokenUnsupportedInstructionError
| EncodeError (e : exn).

(** [authority ?? new PublicKey(0)]: [null] stands for the all-zero key *)
Definition or_zero_key (k : option PublicKey.t) : PublicKey.t :=
  match k with
  | Some k => k
  | None => PublicKey.mk 0
  end.

Section MetadataPointer.

(** [programSupportsExtensions] (../../constants.js), the opcode
    [TokenInstruction.MetadataPointerExtension] (../../instructions/types.js)
    and [addSigners] (../../instructions/internal.js) with the type of its
    [multiSigners] entries *)
Variable programSupportsExtensions : PublicKey.t -> bool.
Variable MetadataPointerExtension : Z.
Variable MultiSigner : Type.
Variable addSigners :
  list AccountMeta.t -> PublicKey.t -> list MultiSigner -> list AccountMeta.t.

(** [const data = Buffer.alloc(layout.span); layout.encode(src, data);] *)
Definition alloc_and_encode {T} (layout : BufferLayout.Layout T) (src : T)
  : instruction_exn + Buffer.t :=
  match BufferLayout.encode layout src 0 (Buffer.alloc (BufferLayout.span layout)) with
  | (inl e, _) => inl (EncodeError e)
  | (inr _, data) => inr data
  end.

Definition createInitializeMetadataPointerInstruction (mint : PublicKey.t)
    (authority metadataAddress : option PublicKey.t) (programId : PublicKey.t)
  : instruction_exn + TransactionInstruction.t :=
  if negb (programSupportsExtensions programId)
  then inl TokenUnsupportedInstructionError
  else
    let keys := [AccountMeta.mk mint false true] in
    match alloc_and_encode initializeMetadataPointer
            (InitializeData.mk MetadataPointerExtension
               MetadataPointerInstruction.Initialize
               (or_zero_key authority) (or_zero_key metadataAddress)) with
    | inl e => inl e
    | inr data => inr (TransactionInstruction.mk keys programId data)
    end.

Definition createUpdateMetadataPointerInstruction (mint authority : PublicKey.t)
    (metadataAddress : option PublicKey.t) (multiSigners : list MultiSigner)
    (programId : PublicKey.t)
  : instruction_exn + TransactionInstruction.t :=
  if negb (programSupportsExtensions programId)
  then inl TokenUnsupportedInstructionError
  else
    let keys := addSigners [AccountMeta.mk mint false true] authority multiSigners in
    match alloc_and_encode updateMetadataPointer
            (UpdateData.mk MetadataPointerExtension
               MetadataPointerInstruction.Update
               (or_zero_key metadataAddress)) with
    | inl e => inl e
    | inr data => inr (TransactionInstruction.mk keys programId data)
    end.

End MetadataPointer.

(** ** The name-service helpers (src/name-service/js/src/utils.ts) *)

(** what bn.js does in [toArray] and [new BN(str, 16)].  A number is held by
    its magnitude; [toArray] never looks at the sign. *)
Module BN.

Definition t : Type := N.

(** [byteLength()]: [Math.ceil(bitLength / 8)], 0 for zero *)
Definition byteLength (v : t) : N := ((N.size v + 7) / 8)%N.

(** [toArray()]: the big-endian bytes, [Math.max(1, byteLength)] of them *)
Definition toArray (v : t) : list byte :=
  rev (Buffer.le_bytes (N.to_nat (N.max 1 (byteLength v))) (Z.of_N v)).

(** the value of a hexadecimal digit (0 for any other character: the strings
    parsed below hold hexadecimal digits only) *)
Definition hex_value (c : Ascii.ascii) : N :=
  let n := Ascii.N_of_ascii c in
  (if (48 <=? n) && (n <=? 57) then n - 48
   else if (97 <=? n) && (n <=? 102) then n - 87
   else if (65 <=? n) && (n <=? 70) then n - 55
   else 0)%N.

Fixpoint parse_hex (s : string) (acc : N) : N :=
  match s with
  | EmptyString => acc
  | String c rest => parse_hex rest (acc * 16 + hex_value c)%N
  end.

(** [new BN(str, 16)] *)
Definition of_hex (s : string) : t := parse_hex s 0%N.

End BN.

(** the pieces of [`00${i.toString(16)}`.slice(-2)] and [.join('')] *)
Definition hex_digit (n : N) : Ascii.ascii :=
  Ascii.ascii_of_N (if (n <? 10)%N then n + 48 else n + 87)%N.

(** [i.toString(16)] for a byte [i] *)
Definition toString16 (i : byte) : string :=
  let n := Byte.to_N i in
  if (n <? 16)%N then String (hex_digit n) EmptyString
  else String (hex_digit (n / 16)) (String (hex_digit (n mod 16)) EmptyString).

(** [s.slice(-2)] *)
Definition slice_last_2 (s : string) : string :=
  String.substring (String.length s - 2) 2 s.

Definition two_hex_digits (i : byte) : string :=
  slice_last_2 (String.append "00" (toString16 i)).

(** [strings.join('')] *)
Definition join (l : list string) : string :=
  fold_right String.append EmptyString l.

(** the two assertions of the classes below *)
Inductive assertion : Type :=
| TooLarge                          (* 'Numberu32 too large', 'Numberu64 too large' *)
| InvalidBufferLength (length : Z). (* `Invalid buffer length: ${buffer.length}` *)

(** [b.copy(zeroPad)] for a source no longer than the target *)
Definition copy_into (b target : Buffer.t) : Buffer.t :=
  b ++ drop (List.length b) target.

(** The bodies of [Numberu32] and [Numberu64] differ only in the width, 4 or
    8; they are written once here, for a width [w]. *)
Definition Numberu_toBuffer (w : Z) (v : BN.t) : assertion + Buffer.t :=
  let a := rev (BN.toArray v) in
  let b := a in
  if Buffer.length b =? w then inr b
  else if negb (Buffer.length b <? w) then inl TooLarge
  else
    let zeroPad := Buffer.alloc w in
    inr (copy_into b zeroPad).

Definition Numberu_fromBuffer (w : Z) (buffer : Buffer.t) : assertion + BN.t :=
  if negb (Buffer.length buffer =? w) then inl (InvalidBufferLength (Buffer.length buffer))
  else inr (BN.of_hex (join (map two_hex_digits (rev buffer)))).

Module Numberu32.
Definition toBuffer : BN.t -> assertion + Buffer.t := Numberu_toBuffer 4.
Definition fromBuffer : Buffer.t -> assertion + BN.t := Numberu_fromBuffer 4.
End Numberu32.

Module Numberu64.
Definition toBuffer : BN.t -> assertion + Buffer.t := Numberu_toBuffer 8.
Definition fromBuffer : Buffer.t -> assertion + BN.t := Numberu_fromBuffer 8.
End Numberu64.

Section NameService.

(** [NAME_PROGRAM_ID] of ./bindings, [PublicKey.findProgramAddress] of
    @solana/web3.js once awaited (a rejection is a throw), the [Account]
    class with its [publicKey], [tx.add(...)] and
    [connection.sendTransaction(tx, signers, options)] once awaited *)
Variable NAME_PROGRAM_ID : PublicKey.t.
Variable findProgramAddress :
  list Buffer.t -> PublicKey.t -> result (PublicKey.t * Z).
Variable Account : Type.
Variable Account_publicKey : Account -> PublicKey.t.
Variable Transaction : Type.
Variable new_Transaction : Transaction.
Variable set_feePayer : PublicKey.t -> Transaction -> Transaction.
Variable Transaction_add :
  Transaction -> list TransactionInstruction.t -> result Transaction.
Variable sendTransaction : Transaction -> list Account -> result string.

(** [getNameAccountKey(hashed_name, nameClass?, nameParent?)] *)
Definition getNameAccountKey (hashed_name : Buffer.t)
    (nameClass nameParent : option PublicKey.t) : result PublicKey.t :=
  let seeds := [hashed_name] in
  let seeds :=
    seeds ++ [match nameClass with
              | Some c => PublicKey.toBuffer c
              | None => Buffer.alloc 32
              end] in
  let seeds :=
    seeds ++ [match nameParent with
              | Some p => PublicKey.toBuffer p
              | None => Buffer.alloc 32
              end] in
  (let* found := findProgramAddress seeds NAME_PROGRAM_ID in
   ok (fst found))%result.

(** [signAndSendTransactionInstructions(connection, signers, feePayer,
    txInstructions)], in the state monad over the array [signers] refers to *)
Definition signAndSendTransactionInstructions (feePayer : Account)
    (txInstructions : list TransactionInstruction.t) : M (list Account) string :=
  let tx := new_Transaction in
  let tx := set_feePayer (Account_publicKey feePayer) tx in
  (let* _ := (fun signers => (ok tt, signers ++ [feePayer])) in
   let* tx := mlift (Transaction_add tx txInstructions) in
   fun signers => (sendTransaction tx signers, signers))%M.

End NameService.

(** ** The stake-pool sample (same file, second part) *)

Module StakePool.

(** an entry of [connection.getProgramAccounts(...)] *)
Record ProgramAccount : Type := mkProgramAccount {
  pa_pubkey : PublicKey.t;
  pa_data : Buffer.t;
  pa_executable : bool;
  pa_lamports : Z;
  pa_owner : PublicKey.t;
}.

(** what the sample throws inside its [try]: an error object, or the string
    [`StakePoolAccount Enum is ${tag}, expected 1 or 2!`] *)
Inductive thrown : Type :=
| ThrownError (e : exn)
| ThrownUnexpectedEnum (tag : Z).

(** what it writes with [console.log] *)
Inductive logged : Type :=
| LogText (s : string)
| LogThrown (t : thrown).

Section Sample.

(** the two decoded account types of ./schema.js and their [decode] *)
Variable StakePoolAccount ValidatorListAccount : Type.
Variable StakePoolAccount_decode : Buffer.t -> result StakePoolAccount.
Variable ValidatorListAccount_decode : Buffer.t -> result ValidatorListAccount.

Inductive DecodedData : Type :=
| IsStakePool (d : StakePoolAccount)
| IsValidatorList (d : ValidatorListAccount).

Record DecodedAccount : Type := mkDecodedAccount {
  da_pubkey : PublicKey.t;
  da_data : DecodedData;
  da_executable : bool;
  da_lamports : Z;
  da_owner : PublicKey.t;
}.

Definition lift_thrown {A} (r : result A) : thrown + A :=
  match r with
  | inl e => inl (ThrownError e)
  | inr a => inr a
  end.

Definition tbind {A B} (r : thrown + A) (k : A -> thrown + B) : thrown + B :=
  match r with
  | inl t => inl t
  | inr a => k a
  end.

(** [data.readUInt8()]: the byte at offset 0 *)
Definition readUInt8 (data : Buffer.t) : thrown + Z :=
  lift_thrown (Buffer.readUIntLE data 0 1).

(** the callback of [response.map] *)
Definition decode_entry (a : ProgramAccount) : thrown + DecodedAccount :=
  tbind (readUInt8 (pa_data a)) (fun tag1 =>
  tbind (if tag1 =? 1
         then tbind (lift_thrown (StakePoolAccount_decode (pa_data a)))
                    (fun d => inr (IsStakePool d))
         else
           tbind (readUInt8 (pa_data a)) (fun tag2 =>
           if tag2 =? 2
           then tbind (lift_thrown (ValidatorListAccount_decode (pa_data a)))
                      (fun d => inr (IsValidatorList d))
           else tbind (readUInt8 (pa_data a)) (fun tag3 =>
                inl (ThrownUnexpectedEnum tag3))))
        (fun decodedData =>
  inr (mkDecodedAccount (pa_pubkey a) decodedData (pa_executable a)
                        (pa_lamports a) (pa_owner a)))).

(** [response.map(callback)]: in order, stopping at the first throw *)
Fixpoint map_entries (response : list ProgramAccount) : thrown + list DecodedAccount :=
  match response with
  | [] => inr []
  | a :: rest =>
      tbind (decode_entry a) (fun d =>
      tbind (map_entries rest) (fun ds => inr (d :: ds)))
  end.

(** [getStakePoolAccounts(connection, stakePoolProgramAddress)] on what
    [connection.getProgramAccounts] gave: the value the promise resolves to
    ([None] is [undefined]) and what was logged *)
Definition getStakePoolAccounts (response : result (list ProgramAccount))
  : option (list DecodedAccount) * list logged :=
  match tbind (lift_thrown response) map_entries with
  | inr stakePoolAccounts => (Some stakePoolAccounts, [])
  | inl error => (None, [LogText "I have an error"; LogThrown error])
  end.

End Sample.

End StakePool.

(** ** Byte images of layouts

    [field_image L v bs]: the layout [L] has the fixed positive span
    [length bs], writes the value [v] as the bytes [bs] at the offset it is
    given, touching nothing else, and reads [v] back from them. *)
Definition field_image {F : Type} (L : BufferLayout.Layout F) (v : F)
    (bs : list byte) : Prop :=
  0 < BufferLayout.span L
  /\ BufferLayout.span L = Z.of_nat (List.length bs)
  /\ (forall b o, BufferLayout.getSpan L b o = ok (BufferLayout.span L))
  /\ (forall pre rest : list byte,
        (List.length bs <= List.length rest)%nat ->
        BufferLayout.encode L v (Z.of_nat (List.length pre)) (pre ++ rest)
        = (ok (BufferLayout.span L), pre ++ bs ++ drop (List.length bs) rest))
  /\ (forall pre post : list byte,
        BufferLayout.decode L (pre ++ bs ++ post) (Z.of_nat (List.length pre)) = ok v).

(** the object a Structure builds when each field reads the value [src] has *)
Definition rebuild {T : Type} (fields : list (BufferLayout.Field T)) (src dest : T) : T :=
  fold_left (fun d fd => BufferLayout.field_set fd (BufferLayout.field_get fd src) d)
            fields dest.

Definition fields_image {T : Type} (fields : list (BufferLayout.Field T)) (src : T)
    (bss : list (list byte)) : Prop :=
  Forall2 (fun fd bs =>
             field_image (BufferLayout.field_layout fd) (BufferLayout.field_get fd src) bs)
          fields bss.

(** ** More stand-ins and inputs for the examples *)

(** a stand-in for [getExtensionData]: nothing on empty TLV data, otherwise
    what follows a four-byte header *)
Definition demo_getExtensionData (extension : ExtensionType) (tlvData : Buffer.t)
  : result (option Buffer.t) :=
  match tlvData with
  | [] => ok None
  | _ => ok (Some (drop 4 tlvData))
  end.

(** a stand-in for [programSupportsExtensions]: one program does *)
Definition token_2022 : PublicKey.t := PublicKey.mk 2022.
Definition demo_programSupportsExtensions (programId : PublicKey.t) : bool :=
  PublicKey._bn programId =? 2022.

(** a stand-in for [addSigners], with public keys as multi-signers *)
Definition demo_addSigners (keys : list AccountMeta.t) (ownerOrAuthority : PublicKey.t)
    (multiSigners : list PublicKey.t) : list AccountMeta.t :=
  match multiSigners with
  | [] => keys ++ [AccountMeta.mk ownerOrAuthority true false]
  | _ => keys ++ [AccountMeta.mk ownerOrAuthority false false]
              ++ map (fun k => AccountMeta.mk k true false) multiSigners
  end.

Definition one_zero_descriptor : ExtraAccountMeta.t :=
  ExtraAccountMeta.mk 0 zero_config false false.
Definition short_config : ExtraAccountMeta.t :=
  ExtraAccountMeta.mk 5 [] false false.
Definition wide_count : ExtraAccountMetaList.t :=
  ExtraAccountMetaList.mk (2 ^ 32) [].
Definition hook_record : TransferHook.t := TransferHook.mk key_A hook_id.

(** stand-ins for the schema decoders of the stake-pool sample: the decoded
    account is the data itself *)
Definition demo_schema_decode (data : Buffer.t) : result Buffer.t := ok data.
Definition unknown_account : StakePool.ProgramAccount :=
  StakePool.mkProgramAccount key_A ["003"%byte] false 5 hook_id.
Definition pool_account : StakePool.ProgramAccount :=
  StakePool.mkProgramAccount key_A ["001"%byte; "009"%byte] false 5 hook_id.

(** ** Tactics for running the monads *)

Ltac run_M :=
  unfold resolveExtraAccountMeta, resolveExtraAccountMeta_body,
    getExtraAccountMetaAccount, call_unpackSeeds, call_findProgramAddressSync,
    previousMetas_length, previousMetas_pubkey, log,
    mbind, mret, mthrow, mlift, rbind, ok, throw in *;
  cbn [fst snd previousMetas_array calls] in *.

Ltac red_M := cbv beta iota; cbn [fst snd previousMetas_array calls app].

Ltac solve_well_formed :=
  repeat first [ apply Forall_nil_2 | apply Forall_cons_2 | split
               | reflexivity | (simpl; lia) ].

(** ** Facts about bytes and buffers *)

Lemma byte_to_Z_range (x : byte) : 0 <= Buffer.byte_to_Z x < 256.
Proof.
  unfold Buffer.byte_to_Z. pose proof (Byte.to_N_bounded x). lia.
Qed.

Lemma byte_of_to_Z (x : byte) (k : Z) :
  Buffer.byte_of_Z (Buffer.byte_to_Z x + 256 * k) = x.
Proof.
  pose proof (byte_to_Z_range x) as Hx.
  unfold Buffer.byte_of_Z.
  replace ((Buffer.byte_to_Z x + 256 * k) mod 256) with (Buffer.byte_to_Z x).
  - unfold Buffer.byte_to_Z. rewrite N2Z.id, Byte.of_to_N. reflexivity.
  - replace (Buffer.byte_to_Z x + 256 * k) with (Buffer.byte_to_Z x + k * 256) by lia.
    rewrite Z.mod_add by lia. symmetry. apply Z.mod_small. lia.
Qed.

Lemma byte_to_of_Z (v : Z) :
  0 <= v < 256 -> Buffer.byte_to_Z (Buffer.byte_of_Z v) = v.
Proof.
  intros Hv. unfold Buffer.byte_of_Z, Buffer.byte_to_Z.
  rewrite Z.mod_small by lia.
  destruct (Byte.of_N (Z.to_N v)) as [x|] eqn:E.
  - apply Byte.to_of_N in E. rewrite E. lia.
  - apply Byte.of_N_None_iff in E. lia.
Qed.

Lemma le_value_range (bs : list byte) :
  0 <= Buffer.le_value bs < 256 ^ Z.of_nat (List.length bs).
Proof.
  induction bs as [|x bs IH]; cbn [Buffer.le_value List.length].
  - cbn. lia.
  - pose proof (byte_to_Z_range x).
    rewrite Nat2Z.inj_succ, Z.pow_succ_r by lia. lia.
Qed.

Lemma le_bytes_le_value (bs : list byte) :
  Buffer.le_bytes (List.length bs) (Buffer.le_value bs) = bs.
Proof.
  induction bs as [|x bs IH]; cbn [Buffer.le_value Buffer.le_bytes List.length].
  - reflexivity.
  - rewrite byte_of_to_Z. f_equal.
    pose proof (byte_to_Z_range x).
    replace ((Buffer.byte_to_Z x + 256 * Buffer.le_value bs) / 256)
      with (Buffer.le_value bs); [exact IH|].
    replace (Buffer.byte_to_Z x + 256 * Buffer.le_value bs)
      with (Buffer.byte_to_Z x + Buffer.le_value bs * 256) by lia.
    rewrite Z.div_add by lia. rewrite Z.div_small by lia. lia.
Qed.

Lemma le_bytes_length (n : nat) (v : Z) : List.length (Buffer.le_bytes n v) = n.
Proof.
  revert v. induction n as [|n IH]; intros v; cbn; [reflexivity|].
  now rewrite IH.
Qed.

Lemma le_value_le_bytes (n : nat) (v : Z) :
  0 <= v < 256 ^ Z.of_nat n -> Buffer.le_value (Buffer.le_bytes n v) = v.
Proof.
  revert v. induction n as [|n IH]; intros v Hv.
  - cbn in *. lia.
  - cbn [Buffer.le_bytes Buffer.le_value].
    rewrite Nat2Z.inj_succ, Z.pow_succ_r in Hv by lia.
    rewrite IH.
    + unfold Buffer.byte_of_Z.
      pose proof (Z.mod_pos_bound v 256 ltac:(lia)) as Hm.
      destruct (Byte.of_N (Z.to_N (v mod 256))) as [x|] eqn:E.
      * apply Byte.to_of_N in E. unfold Buffer.byte_to_Z. rewrite E.
        rewrite Z2N.id by lia. pose proof (Z.div_mod v 256 ltac:(lia)). lia.
      * apply Byte.of_N_None_iff in E. lia.
    + split; [apply Z.div_pos; lia|].
      apply Z.div_lt_upper_bound; lia.
Qed.

(** [toBuffer] undoes [new PublicKey] on 32 bytes *)
Lemma PublicKey_new_toBuffer (bs : Buffer.t) :
  List.length bs = 32%nat ->
  exists k, PublicKey.new bs = ok k /\ PublicKey.toBuffer k = bs.
Proof.
  intros Hlen. unfold PublicKey.new, PublicKey.toBuffer, PublicKey.PUBLIC_KEY_LENGTH.
  pose proof (le_value_range (rev bs)) as Hr.
  rewrite length_rev, Hlen in Hr.
  change (256 ^ Z.of_nat 32) with (2 ^ (8 * 32)) in Hr.
  destruct (Buffer.le_value (rev bs) <? 2 ^ (8 * 32)) eqn:E; [|lia].
  eexists; split; [reflexivity|]. cbn [PublicKey._bn].
  change (Z.to_nat 32) with 32%nat.
  rewrite <- Hlen, <- (length_rev bs), le_bytes_le_value.
  apply rev_involutive.
Qed.

(** ** Properties of the resolution step *)

Section ResolutionProperties.

Variable unpackSeeds :
  Buffer.t -> list AccountMeta.t -> Buffer.t -> result (list Buffer.t).
Variable findProgramAddressSync :
  list Buffer.t -> PublicKey.t -> result (PublicKey.t * Z).

Local Abbreviation resolve :=
  (resolveExtraAccountMeta unpackSeeds findProgramAddressSync).
Local Abbreviation derive :=
  (derive_with unpackSeeds findProgramAddressSync).

Lemma resolve_literal extraMeta previousMetas instructionData hook :
  ExtraAccountMeta.discriminator extraMeta = 0 ->
  resolve extraMeta previousMetas instructionData hook =
    (match PublicKey.new (ExtraAccountMeta.addressConfig extraMeta) with
     | inl e => inl e
     | inr k => inr (AccountMeta.mk k (ExtraAccountMeta.isSigner extraMeta)
                                    (ExtraAccountMeta.isWritable extraMeta))
     end, mkWorld previousMetas []).
Proof.
  intros Hd. run_M. rewrite Hd. cbn.
  destruct (PublicKey.new _); reflexivity.
Qed.

Lemma resolve_self_derived extraMeta previousMetas instructionData hook :
  ExtraAccountMeta.discriminator extraMeta = 1 ->
  resolve extraMeta previousMetas instructionData hook =
    derive extraMeta previousMetas instructionData hook.
Proof.
  intros Hd. unfold derive_with. run_M. rewrite Hd. cbn.
  destruct (unpackSeeds _ _ _) as [e|seeds]; [reflexivity|]. cbn.
  destruct (findProgramAddressSync _ _) as [e|found]; reflexivity.
Qed.

(** discriminator [d] other than 0 and 1 with [d - 128] not below the length
    of the array *)
Lemma resolve_delegated_not_found extraMeta previousMetas instructionData hook :
  ExtraAccountMeta.discriminator extraMeta <> 0 ->
  ExtraAccountMeta.discriminator extraMeta <> 1 ->
  Z.of_nat (List.length previousMetas) <= ExtraAccountMeta.discriminator extraMeta - 128 ->
  resolve extraMeta previousMetas instructionData hook =
    (throw TokenTransferHookAccountNotFound, mkWorld previousMetas []).
Proof.
  intros H0 H1 Hlen. run_M.
  destruct (Z.eqb_spec (ExtraAccountMeta.discriminator extraMeta) 0); [contradiction|].
  destruct (Z.eqb_spec (ExtraAccountMeta.discriminator extraMeta) 1); [contradiction|].
  change (Z.shiftl 1 7) with 128. red_M.
  destruct (Z.leb_spec (Z.of_nat (List.length previousMetas))
              (ExtraAccountMeta.discriminator extraMeta - 128)); [reflexivity|lia].
Qed.

(** discriminator [d] with [0 <= d - 128 < length]: derivation under the
    address found at index [d - 128] *)
Lemma resolve_delegated_found extraMeta previousMetas instructionData hook owner :
  128 <= ExtraAccountMeta.discriminator extraMeta ->
  previousMetas !! Z.to_nat (ExtraAccountMeta.discriminator extraMeta - 128) = Some owner ->
  resolve extraMeta previousMetas instructionData hook =
    derive extraMeta previousMetas instructionData (AccountMeta.pubkey owner).
Proof.
  intros Hd Hown. pose proof (lookup_lt_Some _ _ _ Hown) as Hlt.
  unfold derive_with. run_M.
  destruct (Z.eqb_spec (ExtraAccountMeta.discriminator extraMeta) 0); [lia|].
  destruct (Z.eqb_spec (ExtraAccountMeta.discriminator extraMeta) 1); [lia|].
  change (Z.shiftl 1 7) with 128. red_M.
  destruct (Z.leb_spec (Z.of_nat (List.length previousMetas))
              (ExtraAccountMeta.discriminator extraMeta - 128)); [lia|].
  red_M. unfold array_get.
  destruct (Z.leb_spec 0 (ExtraAccountMeta.discriminator extraMeta - 128)); [|lia].
  rewrite Hown. red_M.
  destruct (unpackSeeds _ _ _) as [e|seeds]; [reflexivity|]. red_M.
  destruct (findProgramAddressSync _ _) as [e|found]; reflexivity.
Qed.

(** discriminator [d] other than 0 and 1 with [d - 128] negative: the length
    check passes, the element read is [undefined] and reading its [pubkey]
    throws a TypeError *)
Lemma resolve_delegated_negative extraMeta previousMetas instructionData hook :
  ExtraAccountMeta.discriminator extraMeta <> 0 ->
  ExtraAccountMeta.discriminator extraMeta <> 1 ->
  ExtraAccountMeta.discriminator extraMeta - 128 < 0 ->
  resolve extraMeta previousMetas instructionData hook =
    (throw TypeError, mkWorld previousMetas []).
Proof.
  intros H0 H1 Hneg. run_M.
  destruct (Z.eqb_spec (ExtraAccountMeta.discriminator extraMeta) 0); [contradiction|].
  destruct (Z.eqb_spec (ExtraAccountMeta.discriminator extraMeta) 1); [contradiction|].
  change (Z.shiftl 1 7) with 128. red_M.
  destruct (Z.leb_spec (Z.of_nat (List.length previousMetas))
              (ExtraAccountMeta.discriminator extraMeta - 128)); [lia|].
  red_M. unfold array_get.
  destruct (Z.leb_spec 0 (ExtraAccountMeta.discriminator extraMeta - 128)); [lia|].
  reflexivity.
Qed.

(** every case of the dispatch, in one statement *)
Lemma resolve_cases extraMeta previousMetas instructionData hook :
  let d := ExtraAccountMeta.discriminator extraMeta in
  let r := resolve extraMeta previousMetas instructionData hook in
  (d = 0 /\ snd r = mkWorld previousMetas [] /\
     (fst r = inl Error \/
      exists k, fst r = inr (AccountMeta.mk k (ExtraAccountMeta.isSigner extraMeta)
                                            (ExtraAccountMeta.isWritable extraMeta))))
  \/ (d = 1 /\ r = derive extraMeta previousMetas instructionData hook)
  \/ (d <> 0 /\ d <> 1 /\ d - 128 < 0 /\ r = (throw TypeError, mkWorld previousMetas []))
  \/ (d <> 0 /\ d <> 1 /\ Z.of_nat (List.length previousMetas) <= d - 128 /\
        r = (throw TokenTransferHookAccountNotFound, mkWorld previousMetas []))
  \/ (exists owner, 128 <= d /\ previousMetas !! Z.to_nat (d - 128) = Some owner /\
        r = derive extraMeta previousMetas instructionData (AccountMeta.pubkey owner)).
Proof.
  intros d r. subst r.
  destruct (Z.eq_dec d 0) as [E0|N0].
  { left. rewrite (resolve_literal _ _ _ _ E0). cbn [fst snd].
    split; [exact E0|]. split; [reflexivity|].
    unfold PublicKey.new.
    destruct (_ <? _); [right; eexists; reflexivity | left; reflexivity]. }
  destruct (Z.eq_dec d 1) as [E1|N1].
  { right; left. split; [exact E1|]. now apply resolve_self_derived. }
  destruct (Z_lt_le_dec (d - 128) 0) as [Hneg|Hpos].
  { right; right; left. repeat split; try assumption.
    now apply resolve_delegated_negative. }
  destruct (Z_le_gt_dec (Z.of_nat (List.length previousMetas)) (d - 128)) as [Hout|Hin].
  { right; right; right; left. repeat split; try assumption.
    now apply resolve_delegated_not_found. }
  right; right; right; right.
  destruct (previousMetas !! Z.to_nat (d - 128)) as [owner|] eqn:Hown.
  - exists owner. split; [lia|]. split; [reflexivity|].
    apply resolve_delegated_found; [lia | exact Hown].
  - apply lookup_ge_None in Hown. lia.
Qed.

(** *** The claims about [resolveExtraAccountMeta] *)

(** C1 (the code departs from the claim): for a discriminator [d] from 2 to
    127 the index [d - 128] is negative, the check
    [previousMetas.length <= accountIndex] does not fire, and the call ends in
    a TypeError from reading [pubkey] of [undefined], not in
    TokenTransferHookAccountNotFound, whatever the array holds; no
    collaborator is called. *)
Theorem negative_index_throws_TypeError extraMeta previousMetas instructionData hook :
  2 <= ExtraAccountMeta.discriminator extraMeta <= 127 ->
  resolve extraMeta previousMetas instructionData hook =
    (throw TypeError, mkWorld previousMetas [])
  /\ fst (resolve extraMeta previousMetas instructionData hook)
     <> throw TokenTransferHookAccountNotFound.
Proof.
  intros Hd.
  rewrite resolve_delegated_negative by lia.
  split; [reflexivity | discriminate].
Qed.

(** C2: with discriminator 0 and a 32-byte [addressConfig], the call returns
    the reference whose key is [new PublicKey(addressConfig)], a key whose 32
    bytes are exactly [addressConfig], with the descriptor's two flags; no
    call to [unpackSeeds] or [findProgramAddressSync] is recorded. *)
Theorem literal_address_bypasses_derivation extraMeta previousMetas instructionData hook :
  ExtraAccountMeta.discriminator extraMeta = 0 ->
  List.length (ExtraAccountMeta.addressConfig extraMeta) = 32%nat ->
  exists key,
    PublicKey.new (ExtraAccountMeta.addressConfig extraMeta) = ok key
    /\ PublicKey.toBuffer key = ExtraAccountMeta.addressConfig extraMeta
    /\ fst (resolve extraMeta previousMetas instructionData hook) =
         ok (AccountMeta.mk key (ExtraAccountMeta.isSigner extraMeta)
                            (ExtraAccountMeta.isWritable extraMeta))
    /\ calls (snd (resolve extraMeta previousMetas instructionData hook)) = [].
Proof.
  intros Hd Hlen.
  destruct (PublicKey_new_toBuffer _ Hlen) as (key & Hnew & Hbuf).
  exists key. rewrite (resolve_literal _ _ _ _ Hd), Hnew.
  repeat split; assumption || reflexivity.
Qed.

(** C3: with discriminator 1, whatever [previousMetas] holds, the call is the
    derivation under [transferHookProgramId]: it returns or throws as
    [findProgramAddressSync(unpackSeeds(addressConfig, previousMetas,
    instructionData), transferHookProgramId)] does, the returned key is the
    first component of that result, and these are the only two collaborator
    calls made. *)
Theorem self_derived_under_hook_program extraMeta previousMetas instructionData hook :
  ExtraAccountMeta.discriminator extraMeta = 1 ->
  let config := ExtraAccountMeta.addressConfig extraMeta in
  let r := resolve extraMeta previousMetas instructionData hook in
  fst r =
    (let* seeds := unpackSeeds config previousMetas instructionData in
     let* found := findProgramAddressSync seeds hook in
     ok (AccountMeta.mk (fst found) (ExtraAccountMeta.isSigner extraMeta)
                        (ExtraAccountMeta.isWritable extraMeta)))%result
  /\ (forall meta, fst r = ok meta ->
        exists seeds bump,
          unpackSeeds config previousMetas instructionData = ok seeds
          /\ findProgramAddressSync seeds hook = ok (AccountMeta.pubkey meta, bump)
          /\ calls (snd r) =
               [CallUnpackSeeds config previousMetas instructionData;
                CallFindProgramAddressSync seeds hook]).
Proof.
  intros Hd config r. subst r config.
  rewrite (resolve_self_derived _ _ _ _ Hd). unfold derive_with, rbind, ok.
  destruct (unpackSeeds _ _ _) as [e|seeds]; cbn [fst snd calls].
  - split; [reflexivity | discriminate].
  - destruct (findProgramAddressSync seeds hook) as [e|[key bump]] eqn:Hfind;
      cbn [fst snd].
    + split; [reflexivity | discriminate].
    + split; [reflexivity|].
      intros meta [= <-]. exists seeds, bump. cbn. repeat split. exact Hfind.
Qed.

(** C8: the array [previousMetas] refers to is the same after the call as
    before it, whether the call returns or throws: same length, same entry at
    every index. *)
Theorem previousMetas_never_mutated extraMeta previousMetas instructionData hook :
  let after :=
    previousMetas_array (snd (resolve extraMeta previousMetas instructionData hook)) in
  after = previousMetas
  /\ List.length after = List.length previousMetas
  /\ (forall i : nat, after !! i = previousMetas !! i).
Proof.
  cbn zeta.
  assert (previousMetas_array (snd (resolve extraMeta previousMetas instructionData hook))
          = previousMetas) as ->; [|repeat split].
  destruct (resolve_cases extraMeta previousMetas instructionData hook)
    as [(_ & -> & _) | [(_ & ->) | [(_ & _ & _ & ->) | [(_ & _ & _ & ->) | (owner & _ & _ & ->)]]]];
    try reflexivity;
    unfold derive_with;
    destruct (unpackSeeds _ _ _); reflexivity.
Qed.

(** C9: for every discriminator, a returned reference carries the
    descriptor's [isSigner] and [isWritable]. *)
Theorem flags_copied_through extraMeta previousMetas instructionData hook meta :
  fst (resolve extraMeta previousMetas instructionData hook) = ok meta ->
  AccountMeta.isSigner meta = ExtraAccountMeta.isSigner extraMeta
  /\ AccountMeta.isWritable meta = ExtraAccountMeta.isWritable extraMeta.
Proof.
  unfold ok.
  destruct (resolve_cases extraMeta previousMetas instructionData hook)
    as [(_ & _ & [-> | (k & ->)]) | [(_ & ->) | [(_ & _ & _ & ->) | [(_ & _ & _ & ->) | (owner & _ & _ & ->)]]]];
    try discriminate.
  - intros [= <-]. split; reflexivity.
  - unfold derive_with.
    destruct (unpackSeeds _ _ _) as [e|seeds]; [discriminate|]. cbn [fst].
    destruct (findProgramAddressSync _ _); [discriminate|].
    intros [= <-]. split; reflexivity.
  - unfold derive_with.
    destruct (unpackSeeds _ _ _) as [e|seeds]; [discriminate|]. cbn [fst].
    destruct (findProgramAddressSync _ _); [discriminate|].
    intros [= <-]. split; reflexivity.
Qed.

(** C10: for a one-byte discriminator [d >= 128], a call that returns took
    the owning program from the entry at index [d - 128], an index between 0
    and 127: the program passed to [findProgramAddressSync] is the key of an
    entry among the first 128 of [previousMetas]. *)
Theorem delegated_owner_among_first_128 extraMeta previousMetas instructionData hook meta :
  128 <= ExtraAccountMeta.discriminator extraMeta <= 255 ->
  let r := resolve extraMeta previousMetas instructionData hook in
  fst r = ok meta ->
  exists (i : nat) owner seeds bump,
    Z.of_nat i = ExtraAccountMeta.discriminator extraMeta - 128
    /\ (i < 128)%nat
    /\ previousMetas !! i = Some owner
    /\ take 128 previousMetas !! i = Some owner
    /\ calls (snd r) =
         [CallUnpackSeeds (ExtraAccountMeta.addressConfig extraMeta)
            previousMetas instructionData;
          CallFindProgramAddressSync seeds (AccountMeta.pubkey owner)]
    /\ findProgramAddressSync seeds (AccountMeta.pubkey owner)
       = ok (AccountMeta.pubkey meta, bump).
Proof.
  intros Hd r. subst r. unfold ok.
  destruct (resolve_cases extraMeta previousMetas instructionData hook)
    as [(E & _) | [(E & _) | [(_ & _ & _ & ->) | [(_ & _ & _ & ->) | (owner & _ & Hown & ->)]]]];
    try lia; try discriminate.
  unfold derive_with.
  destruct (unpackSeeds _ _ _) as [e|seeds]; [discriminate|]. cbn [fst snd calls].
  destruct (findProgramAddressSync _ _) as [e|[key bump]] eqn:Hfind; [discriminate|].
  intros [= <-].
  exists (Z.to_nat (ExtraAccountMeta.discriminator extraMeta - 128)), owner, seeds, bump.
  assert (Z.to_nat (ExtraAccountMeta.discriminator extraMeta - 128) < 128)%nat by lia.
  repeat split; try assumption; try lia.
  rewrite lookup_take_lt by assumption. exact Hown.
Qed.

(** C7: [getExtraAccountMetaAccount(programId, mint)] makes one call,
    [findProgramAddressSync] on the two seeds [extra-account-metas] (19 ASCII
    bytes) and the 32 bytes of [mint], with owner [programId]; it returns the
    first component of what the call returns and throws only what the call
    throws; the result is the same from every world. *)
Theorem config_address_is_derivation programId mint (w : World) :
  let seeds := [Buffer.from "extra-account-metas"; PublicKey.toBuffer mint] in
  let r := getExtraAccountMetaAccount findProgramAddressSync programId mint w in
  fst r = (let* found := findProgramAddressSync seeds programId in ok (fst found))%result
  /\ snd r = mkWorld (previousMetas_array w)
                     (calls w ++ [CallFindProgramAddressSync seeds programId])
  /\ List.length (PublicKey.toBuffer mint) = 32%nat
  /\ Buffer.from "extra-account-metas" =
       map Buffer.byte_of_Z
         [101; 120; 116; 114; 97; 45; 97; 99; 99; 111; 117; 110; 116; 45;
          109; 101; 116; 97; 115]
  /\ (forall e, fst r = throw e <-> findProgramAddressSync seeds programId = throw e)
  /\ (forall w' : World,
        fst (getExtraAccountMetaAccount findProgramAddressSync programId mint w') = fst r).
Proof.
  cbn zeta.
  assert (List.length (PublicKey.toBuffer mint) = 32%nat) as Hlen.
  { unfold PublicKey.toBuffer. rewrite length_rev. apply le_bytes_length. }
  run_M.
  destruct (findProgramAddressSync _ programId) as [e|found] eqn:Hfind;
    cbn [fst snd].
  - split; [reflexivity|]. split; [reflexivity|]. split; [exact Hlen|].
    split; [reflexivity|]. split; [|reflexivity].
    intros e'. split; intros [= ->]; reflexivity.
  - split; [reflexivity|]. split; [reflexivity|]. split; [exact Hlen|].
    split; [reflexivity|]. split; [|reflexivity].
    intros e'. split; discriminate.
Qed.

End ResolutionProperties.

(** ** Properties of the layout codec *)

Lemma descriptor_bytes_length d :
  well_formed d -> List.length (descriptor_bytes d) = 35%nat.
Proof.
  intros [_ Hc]. unfold descriptor_bytes.
  rewrite !length_app, Hc. reflexivity.
Qed.

Lemma Buffer_length_app (a b : Buffer.t) :
  Buffer.length (a ++ b) = Buffer.length a + Buffer.length b.
Proof. unfold Buffer.length. rewrite length_app. lia. Qed.

(** reading one byte *)
Lemma readUIntLE_1 (b : Buffer.t) (offset : Z) (x : byte) :
  0 <= offset ->
  b !! Z.to_nat offset = Some x ->
  Buffer.readUIntLE b offset 1 = ok (Buffer.byte_to_Z x).
Proof.
  intros Hoff Hx. pose proof (lookup_lt_Some _ _ _ Hx) as Hlt.
  unfold Buffer.readUIntLE, Buffer.length.
  destruct (Z.leb_spec 0 offset); [|lia].
  destruct (Z.leb_spec (offset + 1) (Z.of_nat (List.length b))); [|lia].
  cbn [andb]. f_equal.
  change (Z.to_nat 1) with 1%nat.
  rewrite (drop_S _ _ _ Hx). cbn [take Buffer.le_value].
  rewrite take_0. cbn [Buffer.le_value]. lia.
Qed.

(** [slice] inside the buffer *)
Lemma slice_inside (b : Buffer.t) (s e : Z) :
  0 <= s <= e -> e <= Buffer.length b ->
  Buffer.slice b s e = take (Z.to_nat (e - s)) (drop (Z.to_nat s) b).
Proof.
  intros Hs He. unfold Buffer.slice. cbv zeta.
  rewrite (Z.max_l s 0), (Z.max_l e 0) by lia.
  rewrite (Z.min_l s), (Z.min_l e) by lia. reflexivity.
Qed.

(** the layout of one descriptor has a fixed span of 35 bytes *)
Lemma ExtraAccountMetaLayout_span : BufferLayout.span ExtraAccountMetaLayout = 35.
Proof. reflexivity. Qed.

Lemma ExtraAccountMetaLayout_getSpan b offset :
  BufferLayout.getSpan ExtraAccountMetaLayout b offset = ok 35.
Proof. reflexivity. Qed.

(** decoding one descriptor reads the byte at [offset], the 32 bytes after
    it, and the bytes at [offset + 33] and [offset + 34] *)
Lemma decode_descriptor_at (b : Buffer.t) (offset : Z) (d0 s0 w0 : byte) :
  0 <= offset ->
  b !! Z.to_nat offset = Some d0 ->
  b !! Z.to_nat (offset + 33) = Some s0 ->
  b !! Z.to_nat (offset + 34) = Some w0 ->
  BufferLayout.decode ExtraAccountMetaLayout b offset =
    ok (ExtraAccountMeta.mk
          (Buffer.byte_to_Z d0)
          (Buffer.slice b (offset + 1) (offset + 33))
          (negb (Buffer.byte_to_Z s0 =? 0))
          (negb (Buffer.byte_to_Z w0 =? 0))).
Proof.
  intros Hoff Hd Hs Hw.
  unfold ExtraAccountMetaLayout, BufferLayout.struct, BufferLayout.decode,
    BufferLayout.struct_decode.
  cbn [BufferLayout.struct_decode_loop BufferLayout.field_layout
       BufferLayout.field_set BufferLayout.decode BufferLayout.getSpan
       BufferLayout.u8 BufferLayout.UInt BufferLayout.blob
       BufferLayoutUtils.bool BufferLayout.span].
  rewrite (readUIntLE_1 _ _ _ Hoff Hd).
  change (BufferLayout.Layout_getSpan 1) with (ok 1).
  cbn [rbind ok].
  replace (offset + 1 + 32) with (offset + 33) by lia.
  rewrite (readUIntLE_1 b (offset + 33) s0) by (lia || assumption).
  cbn [rbind ok].
  replace (offset + 33 + 1) with (offset + 34) by lia.
  rewrite (readUIntLE_1 b (offset + 34) w0) by (lia || assumption).
  reflexivity.
Qed.

(** the loop of the sequence decodes [n] descriptors when [n] whole entries
    fit after [offset] *)
Lemma seq_decode_loop_fits (b : Buffer.t) (n : nat) (offset : Z) :
  0 <= offset ->
  offset + 35 * Z.of_nat n <= Buffer.length b ->
  exists ds,
    BufferLayout.seq_decode_loop ExtraAccountMetaLayout b n offset = ok ds
    /\ List.length ds = n.
Proof.
  revert offset. induction n as [|n IH]; intros offset Hoff Hfit.
  - exists []. split; reflexivity.
  - unfold Buffer.length in Hfit.
    destruct (lookup_lt_is_Some_2 b (Z.to_nat offset)) as [d0 Hd]; [lia|].
    destruct (lookup_lt_is_Some_2 b (Z.to_nat (offset + 33))) as [s0 Hs]; [lia|].
    destruct (lookup_lt_is_Some_2 b (Z.to_nat (offset + 34))) as [w0 Hw]; [lia|].
    destruct (IH (offset + 35)) as (ds & Hds & Hlen);
      [lia | unfold Buffer.length; lia |].
    eexists. cbn [BufferLayout.seq_decode_loop].
    rewrite (decode_descriptor_at b offset d0 s0 w0 Hoff Hd Hs Hw).
    rewrite ExtraAccountMetaLayout_getSpan. cbn [rbind ok].
    rewrite Hds. cbn [rbind ok]. split; [reflexivity|].
    cbn [List.length]. now rewrite Hlen.
Qed.

(** decoding a list: the count is the little-endian value of the first four
    bytes, the descriptors are read by the loop from offset 4, as many as
    [greedy] counts *)
Lemma decode_list_unfold (b : Buffer.t) :
  4 <= Buffer.length b ->
  BufferLayout.decode ExtraAccountMetaListLayout b 0 =
    (let* ds := BufferLayout.seq_decode_loop ExtraAccountMetaLayout b
                  (Z.to_nat ((Buffer.length b - 4) / 35)) 4 in
     ok (ExtraAccountMetaList.mk (Buffer.le_value (take 4 b)) ds))%result.
Proof.
  intros Hlen.
  unfold ExtraAccountMetaListLayout, BufferLayout.struct, BufferLayout.decode,
    BufferLayout.struct_decode.
  cbn [BufferLayout.struct_decode_loop BufferLayout.field_layout
       BufferLayout.field_set BufferLayout.decode BufferLayout.getSpan
       BufferLayout.u32 BufferLayout.UInt BufferLayout.seq].
  unfold Buffer.readUIntLE.
  destruct (Z.leb_spec (0 + 4) (Buffer.length b)); [|lia].
  cbn [Z.leb andb rbind ok]. change (BufferLayout.Layout_getSpan 4) with (ok 4).
  cbn [rbind ok]. change (0 + 4) with 4.
  unfold BufferLayout.seq_decode, BufferLayout.seq_getSpan.
  cbn [BufferLayout.count_value BufferLayout.greedy BufferLayout.ext_decode].
  rewrite ExtraAccountMetaLayout_span. cbn [rbind ok].
  destruct (BufferLayout.seq_decode_loop _ _ _ _) as [e|ds]; reflexivity.
Qed.

(** C4: a buffer of at least 4 bytes decodes without error into exactly
    [floor((length - 4) / 35)] descriptors, whatever count its first four
    bytes declare and whatever is left after the last whole entry;
    [getExtraAccountMetas] returns these descriptors. *)
Theorem decode_list_takes_whole_entries (b : Buffer.t) :
  4 <= Buffer.length b ->
  exists l,
    BufferLayout.decode ExtraAccountMetaListLayout b 0 = ok l
    /\ Z.of_nat (List.length (ExtraAccountMetaList.extraAccounts l))
       = (Buffer.length b - 4) / 35
    /\ ExtraAccountMetaList.count l = Buffer.le_value (take 4 b)
    /\ getExtraAccountMetas b = ok (ExtraAccountMetaList.extraAccounts l).
Proof.
  intros Hlen.
  pose proof (Z.div_pos (Buffer.length b - 4) 35 ltac:(lia) ltac:(lia)) as Hq.
  pose proof (Z.mul_div_le (Buffer.length b - 4) 35 ltac:(lia)) as Hm.
  destruct (seq_decode_loop_fits b (Z.to_nat ((Buffer.length b - 4) / 35)) 4)
    as (ds & Hds & Hn); [lia | lia |].
  exists (ExtraAccountMetaList.mk (Buffer.le_value (take 4 b)) ds).
  unfold getExtraAccountMetas.
  rewrite (decode_list_unfold b Hlen), Hds. cbn [rbind ok].
  repeat split. cbn [ExtraAccountMetaList.extraAccounts]. lia.
Qed.

(** *** Encoding *)

(** writing [bs] right after a prefix [pre] replaces the first bytes of what
    follows *)
Lemma set_after_prefix (pre rest bs : list byte) :
  (List.length bs <= List.length rest)%nat ->
  Buffer.set (pre ++ rest) (Z.of_nat (List.length pre)) bs =
    pre ++ bs ++ drop (List.length bs) rest.
Proof.
  intros Hfit. unfold Buffer.set. rewrite Nat2Z.id.
  rewrite take_app_length. f_equal. f_equal.
  rewrite drop_app_ge by lia. f_equal. lia.
Qed.

Lemma writeUIntLE_1_ok (b : Buffer.t) (value offset : Z) :
  0 <= value <= 255 -> 0 <= offset -> offset + 1 <= Buffer.length b ->
  Buffer.writeUIntLE value offset 1 b =
    (ok (offset + 1), Buffer.set b offset [Buffer.byte_of_Z value]).
Proof.
  intros Hv Hoff Hfit. unfold Buffer.writeUIntLE.
  change (2 ^ (8 * 1)) with 256.
  destruct (Z.leb_spec 0 value); [|lia].
  destruct (Z.ltb_spec value 256); [|lia].
  destruct (Z.leb_spec 0 offset); [|lia].
  destruct (Z.leb_spec (offset + 1) (Buffer.length b)); [|lia].
  reflexivity.
Qed.

Lemma writeUIntLE_4_ok (b : Buffer.t) (value offset : Z) :
  0 <= value < 2 ^ 32 -> 0 <= offset -> offset + 4 <= Buffer.length b ->
  Buffer.writeUIntLE value offset 4 b =
    (ok (offset + 4), Buffer.set b offset (Buffer.le_bytes 4 value)).
Proof.
  intros Hv Hoff Hfit. unfold Buffer.writeUIntLE.
  change (2 ^ (8 * 4)) with (2 ^ 32).
  destruct (Z.leb_spec 0 value); [|lia].
  destruct (Z.ltb_spec value (2 ^ 32)); [|lia].
  destruct (Z.leb_spec 0 offset); [|lia].
  destruct (Z.leb_spec (offset + 4) (Buffer.length b)); [|lia].
  reflexivity.
Qed.

(** encoding one descriptor at [offset] returns 35 and overwrites the 35
    bytes from [offset] with [descriptor_bytes] *)
Lemma encode_descriptor (d : ExtraAccountMeta.t) (pre rest : list byte) :
  well_formed d ->
  (35 <= List.length rest)%nat ->
  BufferLayout.encode ExtraAccountMetaLayout d (Z.of_nat (List.length pre))
    (pre ++ rest) =
    (ok 35, pre ++ descriptor_bytes d ++ drop 35 rest).
Proof.
  intros [Hd Hc] Hfit.
  set (o := Z.of_nat (List.length pre)).
  set (x0 := Buffer.byte_of_Z (ExtraAccountMeta.discriminator d)).
  set (cfg := ExtraAccountMeta.addressConfig d) in *.
  set (x33 := bool_byte (ExtraAccountMeta.isSigner d)).
  set (x34 := bool_byte (ExtraAccountMeta.isWritable d)).
  assert (Buffer.length (pre ++ rest) = o + Buffer.length rest) as Hlen.
  { rewrite Buffer_length_app. reflexivity. }
  assert (35 <= Buffer.length rest) as Hfit' by (unfold Buffer.length; lia).
  (* first field *)
  assert (Buffer.writeUIntLE (ExtraAccountMeta.discriminator d) o 1 (pre ++ rest)
          = (ok (o + 1), pre ++ [x0] ++ drop 1 rest)) as W0.
  { rewrite writeUIntLE_1_ok by lia. f_equal. subst o.
    now rewrite set_after_prefix by (cbn; lia). }
  (* second field *)
  set (b1 := pre ++ [x0] ++ drop 1 rest) in *.
  assert (Buffer.set b1 (o + 1) (take (Z.to_nat 32) cfg)
          = (pre ++ [x0]) ++ cfg ++ drop 33 rest) as W1.
  { rewrite firstn_all2 by (change (Z.to_nat 32) with 32%nat; lia).
    subst b1. rewrite (app_assoc pre [x0]).
    replace (o + 1) with (Z.of_nat (List.length (pre ++ [x0])))
      by (rewrite length_app; cbn; lia).
    rewrite set_after_prefix by (rewrite length_drop; lia).
    rewrite drop_drop, Hc. reflexivity. }
  assert (Buffer.length b1 = o + Buffer.length rest) as Hlen1.
  { subst b1. unfold Buffer.length. rewrite !length_app, length_drop.
    cbn [List.length]. lia. }
  (* third field *)
  set (b2 := (pre ++ [x0]) ++ cfg ++ drop 33 rest) in *.
  assert (Buffer.length b2 = o + Buffer.length rest) as Hlen2.
  { subst b2. unfold Buffer.length. rewrite !length_app, length_drop, Hc.
    cbn [List.length]. lia. }
  assert (Buffer.writeUIntLE (if ExtraAccountMeta.isSigner d then 1 else 0)
            (o + 1 + 32) 1 b2
          = (ok (o + 1 + 32 + 1), ((pre ++ [x0]) ++ cfg) ++ [x33] ++ drop 34 rest)) as W2.
  { rewrite writeUIntLE_1_ok by (try destruct (ExtraAccountMeta.isSigner d); lia).
    f_equal. subst b2. rewrite (app_assoc (pre ++ [x0]) cfg).
    replace (o + 1 + 32) with (Z.of_nat (List.length ((pre ++ [x0]) ++ cfg)))
      by (rewrite !length_app, Hc; cbn; lia).
    rewrite set_after_prefix by (rewrite length_drop; cbn; lia).
    rewrite drop_drop. reflexivity. }
  (* fourth field *)
  set (b3 := ((pre ++ [x0]) ++ cfg) ++ [x33] ++ drop 34 rest) in *.
  assert (Buffer.length b3 = o + Buffer.length rest) as Hlen3.
  { subst b3. unfold Buffer.length. rewrite !length_app, length_drop, Hc.
    cbn [List.length]. lia. }
  assert (Buffer.writeUIntLE (if ExtraAccountMeta.isWritable d then 1 else 0)
            (o + 1 + 32 + 1) 1 b3
          = (ok (o + 1 + 32 + 1 + 1),
             (((pre ++ [x0]) ++ cfg) ++ [x33]) ++ [x34] ++ drop 35 rest)) as W3.
  { rewrite writeUIntLE_1_ok by (try destruct (ExtraAccountMeta.isWritable d); lia).
    f_equal. subst b3. rewrite (app_assoc ((pre ++ [x0]) ++ cfg) [x33]).
    replace (o + 1 + 32 + 1)
      with (Z.of_nat (List.length (((pre ++ [x0]) ++ cfg) ++ [x33])))
      by (rewrite !length_app, Hc; cbn; lia).
    rewrite set_after_prefix by (rewrite length_drop; cbn; lia).
    rewrite drop_drop. reflexivity. }
  (* the loop *)
  unfold ExtraAccountMetaLayout, BufferLayout.struct, BufferLayout.encode,
    BufferLayout.struct_encode.
  cbn [BufferLayout.struct_encode_loop BufferLayout.field_layout
       BufferLayout.field_get BufferLayout.encode BufferLayout.getSpan
       BufferLayout.u8 BufferLayout.UInt BufferLayout.blob
       BufferLayoutUtils.bool BufferLayout.span].
  fold cfg. unfold mbind, mret.
  rewrite W0. cbv beta iota delta [ok]. cbn [Z.gtb Z.compare]. cbv beta iota.
  fold b1. unfold Buffer.length at 1. rewrite Hc.
  change (Z.of_nat 32 =? 32) with true. cbn [negb]. cbv beta iota.
  destruct (Z.gtb_spec (o + 1 + 32) (Buffer.length b1)); [lia|].
  unfold Buffer.write_hex. rewrite W1. cbv beta iota delta [ok].
  cbn [Z.gtb Z.compare]. cbv beta iota.
  fold b2. rewrite W2. cbv beta iota delta [ok]. cbn [Z.gtb Z.compare]. cbv beta iota.
  fold b3. rewrite W3. cbv beta iota delta [ok]. cbn [Z.gtb Z.compare]. cbv beta iota.
  unfold mret, ok. f_equal.
  - f_equal. lia.
  - unfold descriptor_bytes. fold x0 cfg x33 x34.
    rewrite <- !app_assoc. reflexivity.
Qed.

(** the loop of the sequence writes the descriptors one after the other *)
Lemma seq_encode_loop_bytes (ds : list ExtraAccountMeta.t) :
  forall (pre rest : list byte) (offset sp : Z),
    Forall well_formed ds ->
    offset + sp = Z.of_nat (List.length pre) ->
    (35 * List.length ds <= List.length rest)%nat ->
    BufferLayout.seq_encode_loop ExtraAccountMetaLayout ds offset sp (pre ++ rest) =
      (ok (sp + 35 * Z.of_nat (List.length ds)),
       pre ++ concat (map descriptor_bytes ds) ++ drop (35 * List.length ds) rest).
Proof.
  induction ds as [|d ds IH]; intros pre rest offset sp Hwf Hoff Hfit.
  - cbn [BufferLayout.seq_encode_loop map concat List.length]. unfold mret.
    rewrite Nat.mul_0_r, drop_0. cbn [app].
    replace (sp + 35 * Z.of_nat 0) with sp by lia. reflexivity.
  - apply Forall_cons in Hwf as [Hd Hds].
    cbn [List.length] in Hfit.
    cbn [BufferLayout.seq_encode_loop]. unfold mbind.
    rewrite Hoff, encode_descriptor by (assumption || lia).
    cbv beta iota delta [ok].
    rewrite (app_assoc pre (descriptor_bytes d)).
    rewrite IH.
    + f_equal.
      * unfold ok. f_equal. cbn [List.length]. lia.
      * cbn [map concat]. rewrite <- !app_assoc. do 3 f_equal.
        rewrite drop_drop. f_equal. cbn [List.length]. lia.
    + exact Hds.
    + rewrite length_app, (descriptor_bytes_length d Hd). lia.
    + rewrite length_drop. lia.
Qed.

Lemma concat_descriptor_bytes_length (ds : list ExtraAccountMeta.t) :
  Forall well_formed ds ->
  List.length (concat (map descriptor_bytes ds)) = (35 * List.length ds)%nat.
Proof.
  induction 1 as [|d ds Hd _ IH]; [reflexivity|].
  cbn [map concat List.length]. rewrite length_app, IH, (descriptor_bytes_length d Hd). lia.
Qed.

(** encoding a list at offset 0: the count in four little-endian bytes, then
    the descriptors; the bytes after them are left as they were *)
Lemma encode_list_bytes (l : ExtraAccountMetaList.t) (b : Buffer.t) :
  0 <= ExtraAccountMetaList.count l < 2 ^ 32 ->
  Forall well_formed (ExtraAccountMetaList.extraAccounts l) ->
  let n := List.length (ExtraAccountMetaList.extraAccounts l) in
  (4 + 35 * n <= List.length b)%nat ->
  BufferLayout.encode ExtraAccountMetaListLayout l 0 b =
    (ok (4 + 35 * Z.of_nat n),
     Buffer.le_bytes 4 (ExtraAccountMetaList.count l)
     ++ concat (map descriptor_bytes (ExtraAccountMetaList.extraAccounts l))
     ++ drop (4 + 35 * n) b).
Proof.
  intros Hc Hwf n Hfit.
  unfold ExtraAccountMetaListLayout, BufferLayout.struct, BufferLayout.encode,
    BufferLayout.struct_encode.
  cbn [BufferLayout.struct_encode_loop BufferLayout.field_layout
       BufferLayout.field_get BufferLayout.encode BufferLayout.getSpan
       BufferLayout.u32 BufferLayout.UInt BufferLayout.seq BufferLayout.span].
  unfold BufferLayout.seq_encode, BufferLayout.seq_span.
  cbn [BufferLayout.greedy BufferLayout.ext_encode].
  unfold mbind, mret.
  rewrite writeUIntLE_4_ok by (unfold Buffer.length; lia).
  cbv beta iota delta [ok]. cbn [Z.gtb Z.compare]. cbv beta iota.
  change (Buffer.set b 0 (Buffer.le_bytes 4 (ExtraAccountMetaList.count l)))
    with (Buffer.set ([] ++ b) (Z.of_nat (List.length (@nil byte)))
            (Buffer.le_bytes 4 (ExtraAccountMetaList.count l))).
  rewrite set_after_prefix by (rewrite le_bytes_length; lia).
  rewrite le_bytes_length. cbn [app].
  rewrite (seq_encode_loop_bytes _ (Buffer.le_bytes 4 (ExtraAccountMetaList.count l))
             (drop 4 b) (0 + 4) 0);
    [| exact Hwf | rewrite le_bytes_length; reflexivity | rewrite length_drop; fold n; lia].
  cbv beta iota delta [ok].
  unfold BufferLayout.seq_getSpan, BufferLayout.seq_span.
  cbn [Z.leb Z.compare BufferLayout.count_value BufferLayout.greedy
       BufferLayout.ext_decode rbind ok].
  rewrite ExtraAccountMetaLayout_span. cbn [Z.ltb Z.compare].
  cbv beta iota delta [ok]. fold n. f_equal.
  - f_equal. lia.
  - do 2 f_equal. rewrite drop_drop. f_equal; lia.
Qed.

(** decoding the bytes of a descriptor gives the descriptor back *)
Lemma bool_byte_nonzero (v : bool) : negb (Buffer.byte_to_Z (bool_byte v) =? 0) = v.
Proof. destruct v; reflexivity. Qed.

(** where the fields sit in a buffer that holds [descriptor_bytes d] after a
    prefix [pre] *)
Lemma descriptor_bytes_positions (d : ExtraAccountMeta.t) (pre post : list byte) :
  well_formed d ->
  let b := pre ++ descriptor_bytes d ++ post in
  let o := List.length pre in
  b !! o = Some (Buffer.byte_of_Z (ExtraAccountMeta.discriminator d))
  /\ take 32 (drop (o + 1) b) = ExtraAccountMeta.addressConfig d
  /\ b !! (o + 33)%nat = Some (bool_byte (ExtraAccountMeta.isSigner d))
  /\ b !! (o + 34)%nat = Some (bool_byte (ExtraAccountMeta.isWritable d)).
Proof.
  intros [Hd Hc]. unfold descriptor_bytes. cbv zeta.
  set (x0 := Buffer.byte_of_Z (ExtraAccountMeta.discriminator d)).
  set (cfg := ExtraAccountMeta.addressConfig d) in *.
  set (x33 := bool_byte (ExtraAccountMeta.isSigner d)).
  set (x34 := bool_byte (ExtraAccountMeta.isWritable d)).
  set (b := pre ++ ([x0] ++ cfg ++ [x33] ++ [x34]) ++ post).
  assert (b = pre ++ x0 :: (cfg ++ [x33; x34] ++ post)) as E0.
  { subst b. now repeat first [rewrite <- app_assoc | progress cbn [app]]. }
  assert (b = (pre ++ [x0] ++ cfg) ++ x33 :: ([x34] ++ post)) as E33.
  { subst b. now repeat first [rewrite <- app_assoc | progress cbn [app]]. }
  assert (b = (pre ++ [x0] ++ cfg ++ [x33]) ++ x34 :: post) as E34.
  { subst b. now repeat first [rewrite <- app_assoc | progress cbn [app]]. }
  assert (b = (pre ++ [x0]) ++ cfg ++ ([x33; x34] ++ post)) as E1.
  { subst b. now repeat first [rewrite <- app_assoc | progress cbn [app]]. }
  repeat split.
  - rewrite E0. now apply list_lookup_middle.
  - rewrite E1.
    replace (List.length pre + 1)%nat with (List.length (pre ++ [x0]))
      by (rewrite length_app; cbn; lia).
    rewrite drop_app_length. now apply take_app_length'.
  - rewrite E33. apply list_lookup_middle.
    rewrite !length_app, Hc. cbn [List.length]. lia.
  - rewrite E34. apply list_lookup_middle.
    rewrite !length_app, Hc. cbn [List.length]. lia.
Qed.

Lemma decode_descriptor_bytes (d : ExtraAccountMeta.t) (pre post : list byte) :
  well_formed d ->
  BufferLayout.decode ExtraAccountMetaLayout (pre ++ descriptor_bytes d ++ post)
    (Z.of_nat (List.length pre)) = ok d.
Proof.
  intros Hwf.
  destruct (descriptor_bytes_positions d pre post Hwf) as (P0 & P1 & P33 & P34).
  pose proof (descriptor_bytes_length d Hwf) as Hlen.
  destruct Hwf as [Hd Hc].
  set (b := pre ++ descriptor_bytes d ++ post) in *.
  rewrite (decode_descriptor_at b (Z.of_nat (List.length pre)) _ _ _ ltac:(lia)
             ltac:(rewrite Nat2Z.id; exact P0)
             ltac:(replace (Z.to_nat (Z.of_nat (List.length pre) + 33))
                     with (List.length pre + 33)%nat by lia; exact P33)
             ltac:(replace (Z.to_nat (Z.of_nat (List.length pre) + 34))
                     with (List.length pre + 34)%nat by lia; exact P34)).
  unfold ok. f_equal. destruct d as [disc c s w].
  cbn [ExtraAccountMeta.discriminator ExtraAccountMeta.addressConfig
       ExtraAccountMeta.isSigner ExtraAccountMeta.isWritable] in *.
  f_equal.
  - apply byte_to_of_Z. lia.
  - rewrite slice_inside.
    + replace (Z.to_nat (Z.of_nat (List.length pre) + 33 - (Z.of_nat (List.length pre) + 1)))
        with 32%nat by lia.
      replace (Z.to_nat (Z.of_nat (List.length pre) + 1))
        with (List.length pre + 1)%nat by lia.
      exact P1.
    + lia.
    + subst b. unfold Buffer.length. rewrite !length_app, Hlen. lia.
  - apply bool_byte_nonzero.
  - apply bool_byte_nonzero.
Qed.

Lemma seq_decode_loop_bytes (ds : list ExtraAccountMeta.t) :
  forall (pre post : list byte),
    Forall well_formed ds ->
    BufferLayout.seq_decode_loop ExtraAccountMetaLayout
      (pre ++ concat (map descriptor_bytes ds) ++ post)
      (List.length ds) (Z.of_nat (List.length pre)) = ok ds.
Proof.
  induction ds as [|d ds IH]; intros pre post Hwf; [reflexivity|].
  apply Forall_cons in Hwf as [Hd Hds].
  cbn [map concat List.length BufferLayout.seq_decode_loop].
  rewrite <- (app_assoc (descriptor_bytes d)).
  rewrite decode_descriptor_bytes by exact Hd.
  rewrite ExtraAccountMetaLayout_getSpan. cbn [rbind ok].
  rewrite (app_assoc pre (descriptor_bytes d)).
  replace (Z.of_nat (List.length pre) + 35)
    with (Z.of_nat (List.length (pre ++ descriptor_bytes d)))
    by (rewrite length_app, (descriptor_bytes_length d Hd); lia).
  rewrite IH by exact Hds. reflexivity.
Qed.

(** decoding [count ++ descriptors ++ tail] with a tail shorter than one
    entry *)
Lemma decode_list_bytes (l : ExtraAccountMetaList.t) (tail : list byte) :
  0 <= ExtraAccountMetaList.count l < 2 ^ 32 ->
  Forall well_formed (ExtraAccountMetaList.extraAccounts l) ->
  (List.length tail < 35)%nat ->
  BufferLayout.decode ExtraAccountMetaListLayout
    (Buffer.le_bytes 4 (ExtraAccountMetaList.count l)
     ++ concat (map descriptor_bytes (ExtraAccountMetaList.extraAccounts l))
     ++ tail) 0 = ok l.
Proof.
  intros Hc Hwf Htail. destruct l as [count ds].
  cbn [ExtraAccountMetaList.count ExtraAccountMetaList.extraAccounts] in *.
  pose proof (concat_descriptor_bytes_length ds Hwf) as Hlen.
  set (b := Buffer.le_bytes 4 count ++ concat (map descriptor_bytes ds) ++ tail).
  assert (Buffer.length b = 4 + 35 * Z.of_nat (List.length ds) + Z.of_nat (List.length tail)) as Hb.
  { subst b. unfold Buffer.length. rewrite !length_app, le_bytes_length, Hlen. lia. }
  rewrite decode_list_unfold by lia.
  replace ((Buffer.length b - 4) / 35) with (Z.of_nat (List.length ds)).
  2:{ apply (Z.div_unique _ _ _ (Z.of_nat (List.length tail))); lia. }
  rewrite Nat2Z.id. subst b.
  change 4 with (Z.of_nat (List.length (Buffer.le_bytes 4 count))).
  rewrite seq_decode_loop_bytes by exact Hwf. cbn [rbind ok].
  unfold ok. do 2 f_equal.
  rewrite take_app_length' by (now rewrite le_bytes_length).
  apply le_value_le_bytes. change (256 ^ Z.of_nat 4) with (2 ^ 32). lia.
Qed.

(** *** The claims about the codec *)

(** C5: a list with a 32-bit count and well-formed descriptors, encoded at
    offset 0 into a buffer that can hold it, takes [4 + 35 * n] bytes;
    decoding these bytes gives back the same count and the same descriptors,
    and so does decoding the whole buffer when it has fewer than 35 bytes to
    spare. *)
Theorem encode_then_decode_round_trip (l : ExtraAccountMetaList.t) (b : Buffer.t) :
  0 <= ExtraAccountMetaList.count l < 2 ^ 32 ->
  Forall well_formed (ExtraAccountMetaList.extraAccounts l) ->
  let written := 4 + 35 * Z.of_nat (List.length (ExtraAccountMetaList.extraAccounts l)) in
  written <= Buffer.length b ->
  exists b',
    BufferLayout.encode ExtraAccountMetaListLayout l 0 b = (ok written, b')
    /\ BufferLayout.decode ExtraAccountMetaListLayout (take (Z.to_nat written) b') 0 = ok l
    /\ (Buffer.length b < written + 35 ->
        BufferLayout.decode ExtraAccountMetaListLayout b' 0 = ok l).
Proof.
  intros Hc Hwf written Hfit. subst written.
  set (n := List.length (ExtraAccountMetaList.extraAccounts l)) in *.
  unfold Buffer.length in Hfit.
  pose proof (concat_descriptor_bytes_length _ Hwf) as Hlen. fold n in Hlen.
  eexists. split; [|split].
  - apply encode_list_bytes; [exact Hc | exact Hwf | fold n; lia].
  - fold n. rewrite app_assoc.
    rewrite take_app_length'
      by (rewrite length_app, le_bytes_length, Hlen; lia).
    rewrite <- (app_nil_r (_ ++ _)), <- app_assoc.
    apply decode_list_bytes; [exact Hc | exact Hwf | cbn; lia].
  - intros Hspare. unfold Buffer.length in Hspare.
    apply decode_list_bytes; [exact Hc | exact Hwf |].
    rewrite length_drop. fold n. lia.
Qed.

(** C6: the layout of a descriptor spans 35 bytes.  Encoding a well-formed
    descriptor at [offset] returns 35 and leaves the discriminator at
    [offset], the configuration at [offset + 1 .. offset + 32], [isSigner] at
    [offset + 33] and [isWritable] at [offset + 34], the rest of the buffer
    untouched; decoding at [offset] reads the discriminator from the byte at
    [offset], the configuration from the 32 bytes after it, and the two flags
    from the bytes at [offset + 33] and [offset + 34]. *)
Theorem descriptor_occupies_35_bytes (d : ExtraAccountMeta.t) (b : Buffer.t) (offset : Z) :
  well_formed d ->
  0 <= offset ->
  offset + 35 <= Buffer.length b ->
  BufferLayout.span ExtraAccountMetaLayout = 35
  /\ (exists b',
        BufferLayout.encode ExtraAccountMetaLayout d offset b = (ok 35, b')
        /\ b' = take (Z.to_nat offset) b ++ descriptor_bytes d
                  ++ drop (Z.to_nat offset + 35) b
        /\ b' !! Z.to_nat offset
           = Some (Buffer.byte_of_Z (ExtraAccountMeta.discriminator d))
        /\ Buffer.slice b' (offset + 1) (offset + 33) = ExtraAccountMeta.addressConfig d
        /\ b' !! Z.to_nat (offset + 33) = Some (bool_byte (ExtraAccountMeta.isSigner d))
        /\ b' !! Z.to_nat (offset + 34) = Some (bool_byte (ExtraAccountMeta.isWritable d))
        /\ BufferLayout.decode ExtraAccountMetaLayout b' offset = ok d)
  /\ (exists d0 s0 w0,
        b !! Z.to_nat offset = Some d0
        /\ b !! Z.to_nat (offset + 33) = Some s0
        /\ b !! Z.to_nat (offset + 34) = Some w0
        /\ List.length (Buffer.slice b (offset + 1) (offset + 33)) = 32%nat
        /\ BufferLayout.decode ExtraAccountMetaLayout b offset =
             ok (ExtraAccountMeta.mk
                   (Buffer.byte_to_Z d0)
                   (Buffer.slice b (offset + 1) (offset + 33))
                   (negb (Buffer.byte_to_Z s0 =? 0))
                   (negb (Buffer.byte_to_Z w0 =? 0)))).
Proof.
  intros Hwf Hoff Hfit. unfold Buffer.length in Hfit.
  split; [reflexivity|]. split.
  - set (pre := take (Z.to_nat offset) b).
    set (rest := drop (Z.to_nat offset) b).
    assert (List.length pre = Z.to_nat offset) as Hpre
      by (subst pre; rewrite length_take; lia).
    assert (offset = Z.of_nat (List.length pre)) as Eo by lia.
    assert (b = pre ++ rest) as Eb by (subst pre rest; now rewrite take_drop).
    destruct (descriptor_bytes_positions d pre (drop 35 rest) Hwf)
      as (P0 & P1 & P33 & P34).
    pose proof (descriptor_bytes_length d Hwf) as Hlen.
    exists (pre ++ descriptor_bytes d ++ drop 35 rest).
    split; [|split; [|split; [|split; [|split; [|split]]]]].
    + rewrite Eb at 1. rewrite Eo. apply encode_descriptor; [exact Hwf|].
      subst rest. rewrite length_drop. lia.
    + subst rest. rewrite drop_drop. reflexivity.
    + rewrite <- Hpre. exact P0.
    + rewrite slice_inside.
      * replace (Z.to_nat (offset + 33 - (offset + 1))) with 32%nat by lia.
        replace (Z.to_nat (offset + 1)) with (List.length pre + 1)%nat by lia.
        exact P1.
      * lia.
      * unfold Buffer.length. rewrite !length_app, Hlen, length_drop.
        subst rest. rewrite length_drop. lia.
    + replace (Z.to_nat (offset + 33)) with (List.length pre + 33)%nat by lia.
      exact P33.
    + replace (Z.to_nat (offset + 34)) with (List.length pre + 34)%nat by lia.
      exact P34.
    + rewrite Eo. now apply decode_descriptor_bytes.
  - destruct (lookup_lt_is_Some_2 b (Z.to_nat offset)) as [d0 Hd]; [lia|].
    destruct (lookup_lt_is_Some_2 b (Z.to_nat (offset + 33))) as [s0 Hs]; [lia|].
    destruct (lookup_lt_is_Some_2 b (Z.to_nat (offset + 34))) as [w0 Hw]; [lia|].
    exists d0, s0, w0. repeat split; try assumption.
    + rewrite slice_inside by (unfold Buffer.length; lia).
      rewrite length_take, length_drop. lia.
    + now apply decode_descriptor_at.
Qed.

(** ** The theorems at concrete inputs *)

Lemma negative_index_witness :
  resolveExtraAccountMeta demo_unpackSeeds demo_findProgramAddressSync
    below_128 [resolved_A] [] hook_id
  = (throw TypeError, mkWorld [resolved_A] [])
  /\ fst (resolveExtraAccountMeta demo_unpackSeeds demo_findProgramAddressSync
            below_128 [resolved_A] [] hook_id)
     <> throw TokenTransferHookAccountNotFound.
Proof.
  apply (negative_index_throws_TypeError demo_unpackSeeds
           demo_findProgramAddressSync below_128 [resolved_A] [] hook_id).
  simpl. lia.
Defined.

Lemma literal_address_witness :
  exists key,
    PublicKey.new zero_config = ok key
    /\ PublicKey.toBuffer key = zero_config
    /\ fst (resolveExtraAccountMeta demo_unpackSeeds demo_findProgramAddressSync
              literal_zero [] [] hook_id)
       = ok (AccountMeta.mk key false true)
    /\ calls (snd (resolveExtraAccountMeta demo_unpackSeeds
                     demo_findProgramAddressSync literal_zero [] [] hook_id)) = [].
Proof.
  apply (literal_address_bypasses_derivation demo_unpackSeeds
           demo_findProgramAddressSync literal_zero [] [] hook_id);
    reflexivity.
Defined.

Lemma self_derived_witness :
  ExtraAccountMeta.discriminator self_derived = 1
  /\ fst (resolveExtraAccountMeta demo_unpackSeeds demo_findProgramAddressSync
            self_derived [resolved_A] [] hook_id)
     = (let* seeds := demo_unpackSeeds (ExtraAccountMeta.addressConfig self_derived)
                        [resolved_A] [] in
        let* found := demo_findProgramAddressSync seeds hook_id in
        ok (AccountMeta.mk (fst found) true false))%result.
Proof.
  split; [reflexivity|].
  apply (self_derived_under_hook_program demo_unpackSeeds
           demo_findProgramAddressSync self_derived [resolved_A] [] hook_id).
  reflexivity.
Defined.

Lemma flags_copied_witness :
  exists meta,
    fst (resolveExtraAccountMeta demo_unpackSeeds demo_findProgramAddressSync
           delegated_0 [resolved_A] [] hook_id) = ok meta
    /\ AccountMeta.isSigner meta = false
    /\ AccountMeta.isWritable meta = true.
Proof.
  eexists. split; [vm_compute; reflexivity|].
  apply (flags_copied_through demo_unpackSeeds demo_findProgramAddressSync
           delegated_0 [resolved_A] [] hook_id).
  vm_compute. reflexivity.
Defined.

Lemma delegated_owner_witness :
  exists (i : nat) owner seeds bump,
    Z.of_nat i = 0
    /\ (i < 128)%nat
    /\ [resolved_A] !! i = Some owner
    /\ take 128 [resolved_A] !! i = Some owner
    /\ calls (snd (resolveExtraAccountMeta demo_unpackSeeds
                     demo_findProgramAddressSync delegated_0 [resolved_A] [] hook_id))
       = [CallUnpackSeeds (ExtraAccountMeta.addressConfig delegated_0) [resolved_A] [];
          CallFindProgramAddressSync seeds (AccountMeta.pubkey owner)]
    /\ demo_findProgramAddressSync seeds (AccountMeta.pubkey owner)
       = ok (PublicKey.mk 255, bump).
Proof.
  apply (delegated_owner_among_first_128 demo_unpackSeeds
           demo_findProgramAddressSync delegated_0 [resolved_A] [] hook_id
           (AccountMeta.mk (PublicKey.mk 255) false true)).
  - simpl. lia.
  - vm_compute. reflexivity.
Defined.

Lemma decode_list_witness :
  exists l,
    BufferLayout.decode ExtraAccountMetaListLayout (Buffer.alloc 49) 0 = ok l
    /\ Z.of_nat (List.length (ExtraAccountMetaList.extraAccounts l)) = 1
    /\ ExtraAccountMetaList.count l = 0
    /\ getExtraAccountMetas (Buffer.alloc 49) = ok (ExtraAccountMetaList.extraAccounts l).
Proof.
  apply (decode_list_takes_whole_entries (Buffer.alloc 49)).
  unfold Buffer.length. simpl. lia.
Defined.

Lemma round_trip_witness :
  exists b',
    BufferLayout.encode ExtraAccountMetaListLayout two_descriptors 0 (Buffer.alloc 80)
    = (ok 74, b')
    /\ BufferLayout.decode ExtraAccountMetaListLayout (take 74 b') 0 = ok two_descriptors
    /\ (Buffer.length (Buffer.alloc 80) < 74 + 35 ->
        BufferLayout.decode ExtraAccountMetaListLayout b' 0 = ok two_descriptors).
Proof.
  apply (encode_then_decode_round_trip two_descriptors (Buffer.alloc 80)).
  - simpl. lia.
  - solve_well_formed.
  - unfold Buffer.length. simpl. lia.
Defined.

Lemma descriptor_layout_witness :
  BufferLayout.span ExtraAccountMetaLayout = 35
  /\ (exists b',
        BufferLayout.encode ExtraAccountMetaLayout delegated_0 3 (Buffer.alloc 40)
        = (ok 35, b')
        /\ b' = take 3 (Buffer.alloc 40) ++ descriptor_bytes delegated_0
                  ++ drop 38 (Buffer.alloc 40)
        /\ b' !! 3%nat = Some "128"%byte
        /\ Buffer.slice b' 4 36 = replicate 32 "009"%byte
        /\ b' !! 36%nat = Some "000"%byte
        /\ b' !! 37%nat = Some "001"%byte
        /\ BufferLayout.decode ExtraAccountMetaLayout b' 3 = ok delegated_0)
  /\ (exists d0 s0 w0,
        Buffer.alloc 40 !! 3%nat = Some d0
        /\ Buffer.alloc 40 !! 36%nat = Some s0
        /\ Buffer.alloc 40 !! 37%nat = Some w0
        /\ List.length (Buffer.slice (Buffer.alloc 40) 4 36) = 32%nat
        /\ BufferLayout.decode ExtraAccountMetaLayout (Buffer.alloc 40) 3 =
             ok (ExtraAccountMeta.mk
                   (Buffer.byte_to_Z d0)
                   (Buffer.slice (Buffer.alloc 40) 4 36)
                   (negb (Buffer.byte_to_Z s0 =? 0))
                   (negb (Buffer.byte_to_Z w0 =? 0)))).
Proof.
  apply (descriptor_occupies_35_bytes delegated_0 (Buffer.alloc 40) 3).
  - solve_well_formed.
  - lia.
  - unfold Buffer.length. simpl. lia.
Defined.

(** ** Examples *)

(** a declared count of 7 in front of no entry, and 34 stray bytes: decoding
    returns the count and an empty list *)
Example decode_count_not_cross_checked :
  BufferLayout.decode ExtraAccountMetaListLayout
    (Buffer.le_bytes 4 7 ++ replicate 34 "255"%byte) 0
  = ok (ExtraAccountMetaList.mk 7 []).
Proof. vm_compute. reflexivity. Qed.

(** fewer than four bytes: the count cannot be read *)
Example decode_shorter_than_count :
  BufferLayout.decode ExtraAccountMetaListLayout (Buffer.alloc 3) 0 = throw RangeError.
Proof. vm_compute. reflexivity. Qed.

(** a two-entry pass: entry 0 is the literal address A, entry 1 has
    discriminator 128 and derives under A *)
Example second_entry_derives_under_first :
  let first := AccountMeta.mk key_A false true in
  calls (snd (resolveExtraAccountMeta demo_unpackSeeds demo_findProgramAddressSync
                delegated_0 [first] [] hook_id))
  = [CallUnpackSeeds (ExtraAccountMeta.addressConfig delegated_0) [first] [];
     CallFindProgramAddressSync
       [ExtraAccountMeta.addressConfig delegated_0; []; PublicKey.toBuffer key_A]
       key_A].
Proof. vm_compute. reflexivity. Qed.

(** discriminator 128 with nothing resolved yet *)
Example delegated_without_entries :
  fst (resolveExtraAccountMeta demo_unpackSeeds demo_findProgramAddressSync
         delegated_0 [] [] hook_id)
  = throw TokenTransferHookAccountNotFound.
Proof. vm_compute. reflexivity. Qed.

(** discriminator 2: [accountIndex] is -126 *)
Example discriminator_2_is_a_TypeError :
  fst (resolveExtraAccountMeta demo_unpackSeeds demo_findProgramAddressSync
         below_128 [] [] hook_id)
  = throw TypeError.
Proof. vm_compute. reflexivity. Qed.

(** ** Structures of fixed-size fields *)

Section StructureImage.
Context {T : Type} (makeDestinationObject : T).

Lemma struct_span_loop_image (fields : list (BufferLayout.Field T)) (src : T)
    (bss : list (list byte)) (sp : Z) :
  fields_image fields src bss ->
  BufferLayout.struct_span_loop fields sp
  = ok (sp + Z.of_nat (List.length (concat bss))).
Proof.
  intros H. revert sp. induction H as [|fd bs fds bss' Hfd _ IH]; intros sp.
  - cbn. f_equal. lia.
  - destruct Hfd as (_ & Hsp & Hget & _).
    cbn [BufferLayout.struct_span_loop concat]. rewrite Hget. cbn [rbind ok].
    rewrite IH, Hsp, length_app. unfold ok. f_equal. lia.
Qed.

Lemma struct_span_image (fields : list (BufferLayout.Field T)) (src : T)
    (bss : list (list byte)) :
  fields_image fields src bss ->
  BufferLayout.span (BufferLayout.struct makeDestinationObject fields)
  = Z.of_nat (List.length (concat bss)).
Proof.
  intros H. cbn [BufferLayout.struct BufferLayout.span].
  unfold BufferLayout.struct_span.
  now rewrite (struct_span_loop_image _ _ _ 0 H).
Qed.

Lemma struct_encode_loop_image (fields : list (BufferLayout.Field T)) (src : T)
    (bss : list (list byte)) :
  fields_image fields src bss ->
  forall (pre rest : list byte) (lastOffset lastWrote : Z),
    (List.length (concat bss) <= List.length rest)%nat ->
    BufferLayout.struct_encode_loop fields src (Z.of_nat (List.length pre))
      lastOffset lastWrote (pre ++ rest)
    = (ok (match fields with
           | [] => lastOffset + lastWrote
           | _ => Z.of_nat (List.length pre) + Z.of_nat (List.length (concat bss))
           end),
       pre ++ concat bss ++ drop (List.length (concat bss)) rest).
Proof.
  induction 1 as [|fd bs fds bss' Hfd Hrest IH]; intros pre rest lo lw Hfit.
  - cbn. reflexivity.
  - destruct Hfd as (Hpos & Hsp & _ & Henc & _).
    cbn [concat] in *. rewrite length_app in Hfit.
    cbn [BufferLayout.struct_encode_loop]. unfold mbind.
    rewrite Henc by lia. cbv beta iota delta [ok].
    destruct (Z.gtb_spec 0 (BufferLayout.span (BufferLayout.field_layout fd))); [lia|].
    unfold mret. cbv beta iota delta [ok].
    rewrite (app_assoc pre bs).
    replace (Z.of_nat (List.length pre) + BufferLayout.span (BufferLayout.field_layout fd))
      with (Z.of_nat (List.length (pre ++ bs))) by (rewrite length_app; lia).
    rewrite IH by (rewrite length_drop; lia).
    f_equal.
    + unfold ok. f_equal. rewrite !length_app.
      destruct fds; [inversion Hrest; subst; cbn; lia | lia].
    + rewrite <- !app_assoc. do 3 f_equal.
      rewrite drop_drop, length_app. reflexivity.
Qed.

Lemma struct_decode_loop_image (fields : list (BufferLayout.Field T)) (src : T)
    (bss : list (list byte)) :
  fields_image fields src bss ->
  forall (pre post : list byte) (dest : T),
    BufferLayout.struct_decode_loop fields (pre ++ concat bss ++ post)
      (Z.of_nat (List.length pre)) dest
    = ok (rebuild fields src dest).
Proof.
  induction 1 as [|fd bs fds bss' Hfd Hrest IH]; intros pre post dest.
  - reflexivity.
  - destruct Hfd as (Hpos & Hsp & Hget & _ & Hdec).
    cbn [concat BufferLayout.struct_decode_loop].
    rewrite <- (app_assoc bs). rewrite Hdec, Hget. cbn [rbind ok].
    rewrite (app_assoc pre bs).
    replace (Z.of_nat (List.length pre) + BufferLayout.span (BufferLayout.field_layout fd))
      with (Z.of_nat (List.length (pre ++ bs))) by (rewrite length_app; lia).
    rewrite IH. reflexivity.
Qed.

(** a structure of imaged fields is itself imaged by the concatenation *)
Lemma struct_field_image (fields : list (BufferLayout.Field T)) (src : T)
    (bss : list (list byte)) :
  fields <> [] ->
  fields_image fields src bss ->
  rebuild fields src makeDestinationObject = src ->
  field_image (BufferLayout.struct makeDestinationObject fields) src (concat bss).
Proof.
  intros Hne H Hsrc.
  pose proof (struct_span_image fields src bss H) as Hspan.
  assert (0 < Z.of_nat (List.length (concat bss))) as Hpos.
  { destruct H as [|fd bs fds bss' (Hp & Hs & _) _]; [contradiction|].
    cbn [concat]. rewrite length_app. lia. }
  split; [lia|]. split; [exact Hspan|]. split; [|split].
  - intros b o. cbn [BufferLayout.struct BufferLayout.getSpan].
    unfold BufferLayout.struct_getSpan.
    change (BufferLayout.struct_span fields)
      with (BufferLayout.span (BufferLayout.struct makeDestinationObject fields)).
    rewrite Hspan.
    destruct (Z.leb_spec 0 (Z.of_nat (List.length (concat bss)))); [reflexivity|lia].
  - intros pre rest Hfit.
    cbn [BufferLayout.struct BufferLayout.encode].
    unfold BufferLayout.struct_encode, mbind.
    rewrite (struct_encode_loop_image fields src bss H pre rest 0 0 Hfit).
    cbv beta iota delta [ok mret].
    change (BufferLayout.struct_span fields)
      with (BufferLayout.span (BufferLayout.struct makeDestinationObject fields)).
    rewrite Hspan. f_equal. f_equal.
    destruct fields; [contradiction|]. lia.
  - intros pre post.
    cbn [BufferLayout.struct BufferLayout.decode]. unfold BufferLayout.struct_decode.
    rewrite (struct_decode_loop_image fields src bss H). now rewrite Hsrc.
Qed.

End StructureImage.

(** the images of the leaf layouts *)

Lemma u8_image (v : Z) :
  0 <= v <= 255 -> field_image BufferLayout.u8 v [Buffer.byte_of_Z v].
Proof.
  intros Hv. split; [reflexivity|]. split; [reflexivity|]. split; [reflexivity|]. split.
  - intros pre rest Hfit. cbn [List.length] in Hfit.
    cbn [BufferLayout.u8 BufferLayout.UInt BufferLayout.encode BufferLayout.span].
    unfold mbind.
    rewrite writeUIntLE_1_ok
      by (rewrite ?Buffer_length_app; unfold Buffer.length; lia).
    now rewrite set_after_prefix by (cbn; lia).
  - intros pre post.
    cbn [BufferLayout.u8 BufferLayout.UInt BufferLayout.decode app].
    rewrite (readUIntLE_1 _ _ (Buffer.byte_of_Z v)).
    + unfold ok. f_equal. apply byte_to_of_Z. lia.
    + lia.
    + rewrite Nat2Z.id. now apply list_lookup_middle.
Qed.

Lemma bool_image (v : bool) : field_image BufferLayoutUtils.bool v [bool_byte v].
Proof.
  destruct (u8_image (if v then 1 else 0)) as (H1 & H2 & H3 & H4 & H5);
    [destruct v; lia|].
  split; [exact H1|]. split; [exact H2|]. split; [exact H3|]. split.
  - exact H4.
  - intros pre post.
    cbn [BufferLayoutUtils.bool BufferLayout.decode].
    change [bool_byte v] with [Buffer.byte_of_Z (if v then 1 else 0)].
    rewrite (H5 pre post). cbn [rbind ok]. unfold ok. f_equal.
    now destruct v.
Qed.

Lemma blob_32_encode (src pre rest : list byte) :
  List.length src = 32%nat ->
  (32 <= List.length rest)%nat ->
  BufferLayout.encode (BufferLayout.blob 32) src (Z.of_nat (List.length pre)) (pre ++ rest)
  = (ok 32, pre ++ src ++ drop 32 rest).
Proof.
  intros Hlen Hfit.
  cbn [BufferLayout.blob BufferLayout.encode].
  unfold Buffer.length at 1. rewrite Hlen.
  change (Z.of_nat 32 =? 32) with true. cbn [negb].
  destruct (Z.gtb_spec (Z.of_nat (List.length pre) + 32) (Buffer.length (pre ++ rest))) as [Hgt|_].
  { rewrite Buffer_length_app in Hgt. unfold Buffer.length in Hgt. lia. }
  unfold Buffer.write_hex.
  rewrite firstn_all2 by (change (Z.to_nat 32) with 32%nat; lia).
  rewrite set_after_prefix by lia. now rewrite Hlen.
Qed.

Lemma blob_32_decode (src pre post : list byte) :
  List.length src = 32%nat ->
  BufferLayout.decode (BufferLayout.blob 32) (pre ++ src ++ post) (Z.of_nat (List.length pre))
  = ok src.
Proof.
  intros Hlen. cbn [BufferLayout.blob BufferLayout.decode].
  rewrite slice_inside.
  - replace (Z.to_nat (Z.of_nat (List.length pre) + 32 - Z.of_nat (List.length pre)))
      with 32%nat by lia.
    rewrite Nat2Z.id, drop_app_length. now rewrite take_app_length'.
  - lia.
  - rewrite !Buffer_length_app. unfold Buffer.length. lia.
Qed.

Lemma blob_32_image (src : list byte) :
  List.length src = 32%nat -> field_image (BufferLayout.blob 32) src src.
Proof.
  intros Hlen. split; [reflexivity|]. split; [now rewrite Hlen|].
  split; [reflexivity|]. split.
  - intros pre rest Hfit. rewrite Hlen in *. now apply blob_32_encode.
  - intros pre post. now apply blob_32_decode.
Qed.

Lemma toBuffer_length (k : PublicKey.t) : List.length (PublicKey.toBuffer k) = 32%nat.
Proof. unfold PublicKey.toBuffer. rewrite length_rev. apply le_bytes_length. Qed.

(** [new PublicKey] undoes [toBuffer] on a valid key *)
Lemma PublicKey_toBuffer_new (k : PublicKey.t) :
  valid_key k -> PublicKey.new (PublicKey.toBuffer k) = ok k.
Proof.
  intros Hk. unfold PublicKey.new, PublicKey.toBuffer, PublicKey.PUBLIC_KEY_LENGTH.
  rewrite rev_involutive. change (Z.to_nat 32) with 32%nat.
  rewrite le_value_le_bytes by (change (256 ^ Z.of_nat 32) with (2 ^ 256); exact Hk).
  unfold valid_key in Hk. change (2 ^ (8 * 32)) with (2 ^ 256).
  destruct (Z.ltb_spec (PublicKey._bn k) (2 ^ 256)); [|lia].
  now destruct k.
Qed.

Lemma publicKey_image (k : PublicKey.t) :
  valid_key k -> field_image publicKey k (PublicKey.toBuffer k).
Proof.
  intros Hk. pose proof (toBuffer_length k) as Hlen.
  split; [reflexivity|]. split; [now rewrite Hlen|]. split; [reflexivity|]. split.
  - intros pre rest Hfit. rewrite Hlen in *.
    cbn [publicKey BufferLayout.encode]. now apply blob_32_encode.
  - intros pre post. cbn [publicKey BufferLayout.decode].
    rewrite blob_32_decode by exact Hlen. cbn [rbind ok].
    now apply PublicKey_toBuffer_new.
Qed.

(** ** More about decoding descriptors *)

(** reading relative to a prefix *)
Lemma readUIntLE_shift (pre rest : list byte) (k n : Z) :
  0 <= k -> 0 <= n ->
  Buffer.readUIntLE (pre ++ rest) (Z.of_nat (List.length pre) + k) n
  = Buffer.readUIntLE rest k n.
Proof.
  intros Hk Hn. unfold Buffer.readUIntLE.
  rewrite Buffer_length_app. unfold Buffer.length.
  replace (Z.to_nat (Z.of_nat (List.length pre) + k))
    with (List.length pre + Z.to_nat k)%nat by lia.
  rewrite drop_app_add.
  destruct (Z.leb_spec 0 (Z.of_nat (List.length pre) + k)); [|lia].
  destruct (Z.leb_spec 0 k); [|lia]. cbn [andb].
  destruct (Z.leb_spec (Z.of_nat (List.length pre) + k + n)
              (Z.of_nat (List.length pre) + Z.of_nat (List.length rest)));
    destruct (Z.leb_spec (k + n) (Z.of_nat (List.length rest)));
    reflexivity || lia.
Qed.

Lemma slice_shift (pre rest : list byte) (s e : Z) :
  0 <= s -> 0 <= e ->
  Buffer.slice (pre ++ rest) (Z.of_nat (List.length pre) + s)
    (Z.of_nat (List.length pre) + e)
  = Buffer.slice rest s e.
Proof.
  intros Hs He. unfold Buffer.slice. cbv zeta.
  rewrite Buffer_length_app. unfold Buffer.length.
  set (p := Z.of_nat (List.length pre)). set (r := Z.of_nat (List.length rest)).
  rewrite (Z.max_l (p + s) 0), (Z.max_l (p + e) 0), (Z.max_l s 0), (Z.max_l e 0) by lia.
  replace (Z.min (p + s) (p + r)) with (p + Z.min s r) by lia.
  replace (Z.min (p + e) (p + r)) with (p + Z.min e r) by lia.
  replace (p + Z.min e r - (p + Z.min s r)) with (Z.min e r - Z.min s r) by lia.
  replace (Z.to_nat (p + Z.min s r))
    with (List.length pre + Z.to_nat (Z.min s r))%nat by lia.
  now rewrite drop_app_add.
Qed.

Lemma decode_descriptor_shift (pre rest : list byte) (k : Z) :
  0 <= k ->
  BufferLayout.decode ExtraAccountMetaLayout (pre ++ rest) (Z.of_nat (List.length pre) + k)
  = BufferLayout.decode ExtraAccountMetaLayout rest k.
Proof.
  intros Hk.
  unfold ExtraAccountMetaLayout, BufferLayout.struct, BufferLayout.decode,
    BufferLayout.struct_decode.
  cbn [BufferLayout.struct_decode_loop BufferLayout.field_layout
       BufferLayout.field_set BufferLayout.decode BufferLayout.getSpan
       BufferLayout.u8 BufferLayout.UInt BufferLayout.blob
       BufferLayoutUtils.bool BufferLayout.span].
  change (BufferLayout.Layout_getSpan 1) with (ok 1).
  rewrite (readUIntLE_shift pre rest k 1) by lia.
  destruct (Buffer.readUIntLE rest k 1) as [e|d0]; [reflexivity|]. cbn [rbind ok].
  set (p := Z.of_nat (List.length pre)).
  replace (p + k + 1 + 32) with (p + (k + 1 + 32)) by lia.
  replace (p + k + 1) with (p + (k + 1)) by lia.
  subst p.
  rewrite (slice_shift pre rest (k + 1) (k + 1 + 32)) by lia.
  rewrite (readUIntLE_shift pre rest (k + 1 + 32) 1) by lia.
  destruct (Buffer.readUIntLE rest (k + 1 + 32) 1) as [e|s0]; [reflexivity|].
  cbn [rbind ok].
  replace (Z.of_nat (List.length pre) + (k + 1 + 32) + 1)
    with (Z.of_nat (List.length pre) + (k + 1 + 32 + 1)) by lia.
  rewrite (readUIntLE_shift pre rest (k + 1 + 32 + 1) 1) by lia.
  reflexivity.
Qed.

Lemma seq_decode_loop_shift (pre rest : list byte) (n : nat) :
  forall k, 0 <= k ->
    BufferLayout.seq_decode_loop ExtraAccountMetaLayout (pre ++ rest) n
      (Z.of_nat (List.length pre) + k)
    = BufferLayout.seq_decode_loop ExtraAccountMetaLayout rest n k.
Proof.
  induction n as [|n IH]; intros k Hk; [reflexivity|].
  cbn [BufferLayout.seq_decode_loop].
  rewrite decode_descriptor_shift by exact Hk.
  rewrite !ExtraAccountMetaLayout_getSpan.
  destruct (BufferLayout.decode ExtraAccountMetaLayout rest k) as [e|d]; [reflexivity|].
  cbn [rbind ok].
  replace (Z.of_nat (List.length pre) + k + 35)
    with (Z.of_nat (List.length pre) + (k + 35)) by lia.
  now rewrite IH by lia.
Qed.

Lemma readUIntLE_1_short (b : Buffer.t) (offset : Z) :
  Buffer.length b <= offset -> Buffer.readUIntLE b offset 1 = throw RangeError.
Proof.
  intros H. unfold Buffer.readUIntLE.
  destruct (Z.leb_spec (offset + 1) (Buffer.length b)); [lia|].
  now rewrite andb_false_r.
Qed.

Lemma decode_descriptor_short (b : Buffer.t) (offset : Z) :
  0 <= offset ->
  Buffer.length b < offset + 35 ->
  BufferLayout.decode ExtraAccountMetaLayout b offset = throw RangeError.
Proof.
  intros Hoff Hshort.
  unfold ExtraAccountMetaLayout, BufferLayout.struct, BufferLayout.decode,
    BufferLayout.struct_decode.
  cbn [BufferLayout.struct_decode_loop BufferLayout.field_layout
       BufferLayout.field_set BufferLayout.decode BufferLayout.getSpan
       BufferLayout.u8 BufferLayout.UInt BufferLayout.blob
       BufferLayoutUtils.bool BufferLayout.span].
  change (BufferLayout.Layout_getSpan 1) with (ok 1).
  destruct (Z_le_gt_dec (Buffer.length b) offset) as [H0|H0].
  { now rewrite readUIntLE_1_short. }
  unfold Buffer.length in *.
  destruct (lookup_lt_is_Some_2 b (Z.to_nat offset)) as [d0 Hd]; [lia|].
  rewrite (readUIntLE_1 _ _ _ Hoff Hd). cbn [rbind ok].
  destruct (Z_le_gt_dec (Z.of_nat (List.length b)) (offset + 1 + 32)) as [H1|H1].
  { now rewrite readUIntLE_1_short. }
  destruct (lookup_lt_is_Some_2 b (Z.to_nat (offset + 1 + 32))) as [s0 Hs]; [lia|].
  rewrite (readUIntLE_1 _ (offset + 1 + 32) _ ltac:(lia) Hs). cbn [rbind ok].
  rewrite readUIntLE_1_short by (unfold Buffer.length; lia). reflexivity.
Qed.

Lemma decode_descriptor_ok_well_formed (b : Buffer.t) (offset : Z) :
  0 <= offset ->
  offset + 35 <= Buffer.length b ->
  exists d, BufferLayout.decode ExtraAccountMetaLayout b offset = ok d /\ well_formed d.
Proof.
  intros Hoff Hfit. unfold Buffer.length in Hfit.
  destruct (lookup_lt_is_Some_2 b (Z.to_nat offset)) as [d0 Hd]; [lia|].
  destruct (lookup_lt_is_Some_2 b (Z.to_nat (offset + 33))) as [s0 Hs]; [lia|].
  destruct (lookup_lt_is_Some_2 b (Z.to_nat (offset + 34))) as [w0 Hw]; [lia|].
  eexists. split; [now apply (decode_descriptor_at b offset d0 s0 w0)|].
  split; cbn [ExtraAccountMeta.discriminator ExtraAccountMeta.addressConfig].
  - pose proof (byte_to_Z_range d0). lia.
  - rewrite slice_inside by (unfold Buffer.length; lia).
    rewrite length_take, length_drop. lia.
Qed.

(** X1: at a non-negative offset, one descriptor decodes exactly when 35
    bytes are left from the offset: with fewer the decode throws a
    RangeError, with 35 or more it returns a descriptor whose discriminator
    is a byte and whose configuration has 32 bytes. *)
Theorem descriptor_decode_needs_35_bytes (b : Buffer.t) (offset : Z) :
  0 <= offset ->
  (Buffer.length b < offset + 35 ->
   BufferLayout.decode ExtraAccountMetaLayout b offset = throw RangeError)
  /\ (offset + 35 <= Buffer.length b ->
      exists d, BufferLayout.decode ExtraAccountMetaLayout b offset = ok d
                /\ well_formed d).
Proof.
  intros Hoff. split.
  - now apply decode_descriptor_short.
  - now apply decode_descriptor_ok_well_formed.
Qed.

(** the descriptors of a buffer are those of the bytes after its first four *)
Lemma getExtraAccountMetas_after_count (c rest : list byte) :
  List.length c = 4%nat ->
  getExtraAccountMetas (c ++ rest)
  = BufferLayout.seq_decode_loop ExtraAccountMetaLayout rest
      (Z.to_nat (Buffer.length rest / 35)) 0.
Proof.
  intros Hc. unfold getExtraAccountMetas.
  rewrite decode_list_unfold
    by (rewrite Buffer_length_app; unfold Buffer.length; lia).
  rewrite Buffer_length_app.
  replace (Buffer.length c + Buffer.length rest - 4) with (Buffer.length rest)
    by (unfold Buffer.length; lia).
  replace 4 with (Z.of_nat (List.length c) + 0) at 1 by lia.
  rewrite seq_decode_loop_shift by lia.
  destruct (BufferLayout.seq_decode_loop _ _ _ _); reflexivity.
Qed.

Lemma getExtraAccountMetas_short (data : Buffer.t) :
  Buffer.length data < 4 -> getExtraAccountMetas data = throw RangeError.
Proof.
  intros Hs.
  unfold getExtraAccountMetas, ExtraAccountMetaListLayout, BufferLayout.struct,
    BufferLayout.decode, BufferLayout.struct_decode.
  cbn [BufferLayout.struct_decode_loop BufferLayout.field_layout
       BufferLayout.decode BufferLayout.u32 BufferLayout.UInt].
  unfold Buffer.readUIntLE.
  destruct (Z.leb_spec (0 + 4) (Buffer.length data)); [lia|]. reflexivity.
Qed.

(** X2: [getExtraAccountMetas] throws a RangeError on data shorter than the
    four bytes of the count, and on nothing else: from four bytes on it
    returns a list. *)
Theorem getExtraAccountMetas_fails_only_below_4_bytes (data : Buffer.t) :
  (getExtraAccountMetas data = throw RangeError <-> Buffer.length data < 4)
  /\ (Buffer.length data < 4 \/ exists ds, getExtraAccountMetas data = ok ds).
Proof.
  destruct (Z_lt_le_dec (Buffer.length data) 4) as [Hs|Hl].
  - pose proof (getExtraAccountMetas_short data Hs) as E.
    split; [split; [intros _; exact Hs | intros _; exact E] | left; exact Hs].
  - pose proof (Z.div_pos (Buffer.length data - 4) 35 ltac:(lia) ltac:(lia)) as Hq.
    pose proof (Z.mul_div_le (Buffer.length data - 4) 35 ltac:(lia)) as Hm.
    destruct (seq_decode_loop_fits data (Z.to_nat ((Buffer.length data - 4) / 35)) 4)
      as (ds & Hds & _); [lia | lia |].
    assert (getExtraAccountMetas data = ok ds) as Hget.
    { unfold getExtraAccountMetas.
      now rewrite (decode_list_unfold data Hl), Hds. }
    split; [split; [rewrite Hget; discriminate | lia] | right; eauto].
Qed.

Lemma seq_decode_loop_entries (b : Buffer.t) (n : nat) :
  forall (offset : Z) (ds : list ExtraAccountMeta.t),
    BufferLayout.seq_decode_loop ExtraAccountMetaLayout b n offset = ok ds ->
    List.length ds = n
    /\ (forall (i : nat) d, ds !! i = Some d ->
          BufferLayout.decode ExtraAccountMetaLayout b (offset + 35 * Z.of_nat i) = ok d).
Proof.
  induction n as [|n IH]; intros offset ds.
  - cbn. intros [= <-]. split; [reflexivity|]. intros i d. now rewrite lookup_nil.
  - cbn [BufferLayout.seq_decode_loop].
    rewrite ExtraAccountMetaLayout_getSpan.
    destruct (BufferLayout.decode ExtraAccountMetaLayout b offset) as [e|d0] eqn:Hd0;
      [discriminate|]. cbn [rbind ok].
    destruct (BufferLayout.seq_decode_loop _ b n (offset + 35)) as [e|ds'] eqn:Hloop;
      [discriminate|]. cbn [rbind ok]. intros [= <-].
    destruct (IH _ _ Hloop) as [Hlen Hat].
    split; [cbn; now rewrite Hlen|].
    intros [|i] d; cbn [lookup list_lookup].
    + intros [= <-]. now replace (offset + 35 * Z.of_nat 0) with offset by lia.
    + intros Hi. apply Hat in Hi.
      now replace (offset + 35 * Z.of_nat (S i)) with (offset + 35 + 35 * Z.of_nat i) by lia.
Qed.

Lemma getExtraAccountMetas_ok_loop (data : Buffer.t) (ds : list ExtraAccountMeta.t) :
  getExtraAccountMetas data = ok ds ->
  4 <= Buffer.length data
  /\ BufferLayout.seq_decode_loop ExtraAccountMetaLayout data
       (Z.to_nat ((Buffer.length data - 4) / 35)) 4 = ok ds.
Proof.
  intros Hget.
  destruct (Z_lt_le_dec (Buffer.length data) 4) as [Hs|Hl].
  - rewrite (getExtraAccountMetas_short data Hs) in Hget. discriminate.
  - split; [exact Hl|].
    unfold getExtraAccountMetas in Hget. rewrite (decode_list_unfold data Hl) in Hget.
    destruct (BufferLayout.seq_decode_loop _ _ _ _) as [e|ds']; [discriminate|].
    cbn in Hget. now injection Hget as ->.
Qed.

(** X3: every descriptor [getExtraAccountMetas] returns has a discriminator
    between 0 and 255 and a configuration of exactly 32 bytes, and the list
    has [floor((length - 4) / 35)] entries. *)
Theorem decoded_descriptors_are_well_formed (data : Buffer.t)
    (ds : list ExtraAccountMeta.t) :
  getExtraAccountMetas data = ok ds ->
  Forall well_formed ds
  /\ Z.of_nat (List.length ds) = (Buffer.length data - 4) / 35.
Proof.
  intros Hget. destruct (getExtraAccountMetas_ok_loop _ _ Hget) as [Hl Hloop].
  destruct (seq_decode_loop_entries _ _ _ _ Hloop) as [Hlen Hat].
  pose proof (Z.div_pos (Buffer.length data - 4) 35 ltac:(lia) ltac:(lia)) as Hq.
  split; [|lia].
  apply Forall_lookup. intros i d Hi. apply Hat in Hi.
  destruct (Z_lt_le_dec (Buffer.length data) (4 + 35 * Z.of_nat i + 35)) as [Hs|Hf].
  - rewrite decode_descriptor_short in Hi by lia. discriminate.
  - destruct (decode_descriptor_ok_well_formed data (4 + 35 * Z.of_nat i))
      as (d' & Hd' & Hwf); [lia | lia |].
    rewrite Hd' in Hi. now injection Hi as <-.
Qed.

(** X4: the entry at index [i] of the list [getExtraAccountMetas] returns is
    what the descriptor layout decodes at offset [4 + 35 * i] of the data. *)
Theorem decoded_entry_sits_at_4_plus_35_i (data : Buffer.t)
    (ds : list ExtraAccountMeta.t) (i : nat) (d : ExtraAccountMeta.t) :
  getExtraAccountMetas data = ok ds ->
  ds !! i = Some d ->
  BufferLayout.decode ExtraAccountMetaLayout data (4 + 35 * Z.of_nat i) = ok d
  /\ 4 + 35 * Z.of_nat i + 35 <= Buffer.length data.
Proof.
  intros Hget Hi. destruct (getExtraAccountMetas_ok_loop _ _ Hget) as [Hl Hloop].
  destruct (seq_decode_loop_entries _ _ _ _ Hloop) as [Hlen Hat].
  pose proof (Hat _ _ Hi) as Hd. split; [exact Hd|].
  destruct (Z_lt_le_dec (Buffer.length data) (4 + 35 * Z.of_nat i + 35)) as [Hs|Hf];
    [|exact Hf].
  rewrite decode_descriptor_short in Hd by lia. discriminate.
Qed.

(** X5: the descriptors do not depend on the count field: two buffers that
    differ only in their first four bytes decode to the same list. *)
Theorem descriptors_ignore_the_count_field (c1 c2 rest : list byte) :
  List.length c1 = 4%nat ->
  List.length c2 = 4%nat ->
  getExtraAccountMetas (c1 ++ rest) = getExtraAccountMetas (c2 ++ rest).
Proof.
  intros H1 H2. now rewrite !getExtraAccountMetas_after_count.
Qed.

(** ** More about encoding descriptors *)

Lemma set_length (b : Buffer.t) (offset : Z) (bs : list byte) :
  0 <= offset ->
  offset + Z.of_nat (List.length bs) <= Buffer.length b ->
  Buffer.length (Buffer.set b offset bs) = Buffer.length b.
Proof.
  intros Hoff Hfit. unfold Buffer.set, Buffer.length in *.
  rewrite !length_app, length_take, length_drop. lia.
Qed.

Lemma set_one (b : list byte) (offset : Z) (x : byte) :
  0 <= offset < Buffer.length b ->
  Buffer.set b offset [x] = <[Z.to_nat offset := x]> b.
Proof.
  intros Hoff. unfold Buffer.length in Hoff. unfold Buffer.set.
  rewrite (insert_take_drop b (Z.to_nat offset) x) by lia.
  cbn [List.length app]. replace (Z.to_nat offset + 1)%nat with (S (Z.to_nat offset)) by lia.
  reflexivity.
Qed.

Lemma writeUIntLE_fail (b : Buffer.t) (value offset n : Z) :
  ~ (0 <= value < 2 ^ (8 * n) /\ 0 <= offset /\ offset + n <= Buffer.length b) ->
  Buffer.writeUIntLE value offset n b = (throw RangeError, b).
Proof.
  intros H. unfold Buffer.writeUIntLE.
  destruct (Z.leb_spec 0 value); cbn [andb]; [|reflexivity].
  destruct (Z.ltb_spec value (2 ^ (8 * n))); cbn [andb]; [|reflexivity].
  destruct (Z.leb_spec 0 offset); cbn [andb]; [|reflexivity].
  destruct (Z.leb_spec (offset + n) (Buffer.length b)); [lia|reflexivity].
Qed.

(** every way an encode of one descriptor can end *)
Lemma encode_descriptor_outcomes (d : ExtraAccountMeta.t) (b : list byte) (offset : Z) :
  0 <= offset ->
  let r := BufferLayout.encode ExtraAccountMetaLayout d offset b in
  let x0 := Buffer.byte_of_Z (ExtraAccountMeta.discriminator d) in
  (~ (0 <= ExtraAccountMeta.discriminator d <= 255 /\ offset < Buffer.length b)
   /\ r = (throw RangeError, b))
  \/ (0 <= ExtraAccountMeta.discriminator d <= 255 /\ offset < Buffer.length b
      /\ List.length (ExtraAccountMeta.addressConfig d) <> 32%nat
      /\ r = (throw TypeError, <[Z.to_nat offset := x0]> b))
  \/ (well_formed d /\ offset < Buffer.length b < offset + 35
      /\ fst r = throw RangeError /\ Buffer.length (snd r) = Buffer.length b)
  \/ (well_formed d /\ offset + 35 <= Buffer.length b
      /\ r = (ok 35, take (Z.to_nat offset) b ++ descriptor_bytes d
                       ++ drop (Z.to_nat offset + 35) b)).
Proof.
  intros Hoff r x0.
  destruct (Z_le_gt_dec (offset + 35) (Buffer.length b)) as [Hfit|Hshort].
  { (* enough room: only the descriptor can be at fault *)
    destruct (Z_le_gt_dec 0 (ExtraAccountMeta.discriminator d)) as [Hd0|Hd0];
      [destruct (Z_le_gt_dec (ExtraAccountMeta.discriminator d) 255) as [Hd1|Hd1]|].
    2,3: left; split; [lia|]; subst r;
         unfold ExtraAccountMetaLayout, BufferLayout.struct, BufferLayout.encode,
           BufferLayout.struct_encode;
         cbn [BufferLayout.struct_encode_loop BufferLayout.field_layout
              BufferLayout.field_get BufferLayout.encode BufferLayout.u8
              BufferLayout.UInt BufferLayout.span];
         unfold mbind; rewrite writeUIntLE_fail by (change (2 ^ (8 * 1)) with 256; lia);
         reflexivity.
    destruct (Nat.eq_dec (List.length (ExtraAccountMeta.addressConfig d)) 32%nat) as [Hc|Hc].
    - right; right; right. split; [split; [lia|exact Hc]|]. split; [exact Hfit|].
      subst r. unfold Buffer.length in Hfit.
      rewrite <- (take_drop (Z.to_nat offset) b) at 1.
      replace offset with (Z.of_nat (List.length (take (Z.to_nat offset) b))) at 1
        by (rewrite length_take; lia).
      rewrite encode_descriptor;
        [| split; [lia|exact Hc] | rewrite length_drop; lia].
      now rewrite drop_drop.
    - right; left. split; [lia|]. split; [lia|]. split; [exact Hc|].
      subst r.
      unfold ExtraAccountMetaLayout, BufferLayout.struct, BufferLayout.encode,
        BufferLayout.struct_encode.
      cbn [BufferLayout.struct_encode_loop BufferLayout.field_layout
           BufferLayout.field_get BufferLayout.encode BufferLayout.u8
           BufferLayout.UInt BufferLayout.blob BufferLayout.span].
      unfold mbind, mret. rewrite writeUIntLE_1_ok by lia.
      cbv beta iota delta [ok]. cbn [Z.gtb Z.compare]. cbv beta iota.
      unfold Buffer.length at 1.
      destruct (Z.eqb_spec (Z.of_nat (List.length (ExtraAccountMeta.addressConfig d))) 32);
        [lia|]. cbn [negb]. cbv beta iota.
      now rewrite set_one by lia. }
  destruct (Z_le_gt_dec 0 (ExtraAccountMeta.discriminator d)) as [Hd0|Hd0];
    [destruct (Z_le_gt_dec (ExtraAccountMeta.discriminator d) 255) as [Hd1|Hd1];
     [destruct (Z_lt_le_dec offset (Buffer.length b)) as [Hin|Hout]|]|].
  2,3,4: left; split; [lia|]; subst r;
         unfold ExtraAccountMetaLayout, BufferLayout.struct, BufferLayout.encode,
           BufferLayout.struct_encode;
         cbn [BufferLayout.struct_encode_loop BufferLayout.field_layout
              BufferLayout.field_get BufferLayout.encode BufferLayout.u8
              BufferLayout.UInt BufferLayout.span];
         unfold mbind; rewrite writeUIntLE_fail by (change (2 ^ (8 * 1)) with 256; lia);
         reflexivity.
  subst r.
  unfold ExtraAccountMetaLayout, BufferLayout.struct, BufferLayout.encode,
    BufferLayout.struct_encode.
  cbn [BufferLayout.struct_encode_loop BufferLayout.field_layout
       BufferLayout.field_get BufferLayout.encode BufferLayout.getSpan
       BufferLayout.u8 BufferLayout.UInt BufferLayout.blob
       BufferLayoutUtils.bool BufferLayout.span].
  unfold mbind, mret. rewrite writeUIntLE_1_ok by lia.
  cbv beta iota delta [ok]. cbn [Z.gtb Z.compare]. cbv beta iota.
  set (b1 := Buffer.set b offset [Buffer.byte_of_Z (ExtraAccountMeta.discriminator d)]).
  assert (Buffer.length b1 = Buffer.length b) as L1
    by (subst b1; apply set_length; cbn [List.length]; lia).
  change (Buffer.length (ExtraAccountMeta.addressConfig d))
    with (Z.of_nat (List.length (ExtraAccountMeta.addressConfig d))).
  destruct (Z.eqb_spec (Z.of_nat (List.length (ExtraAccountMeta.addressConfig d))) 32)
    as [Hc|Hc]; cbn [negb]; cbv beta iota.
  2:{ right; left. split; [lia|]. split; [lia|]. split; [lia|].
      subst b1. now rewrite set_one by lia. }
  right; right; left. split; [split; [lia|lia]|]. split; [lia|].
  destruct (Z.gtb_spec (offset + 1 + 32) (Buffer.length b1)) as [H1|H1].
  { cbn [fst snd]. split; [reflexivity|exact L1]. }
  unfold Buffer.write_hex. cbv beta iota delta [ok]. cbn [Z.gtb Z.compare]. cbv beta iota.
  set (b2 := Buffer.set b1 (offset + 1) (take (Z.to_nat 32) (ExtraAccountMeta.addressConfig d))).
  assert (Buffer.length b2 = Buffer.length b) as L2.
  { subst b2. rewrite set_length; [exact L1 | lia |].
    rewrite firstn_all2 by (change (Z.to_nat 32) with 32%nat; lia). lia. }
  destruct (Z_le_gt_dec (offset + 1 + 32 + 1) (Buffer.length b)) as [H2|H2].
  2:{ rewrite writeUIntLE_fail by lia. cbn [fst snd]. split; [reflexivity|exact L2]. }
  rewrite writeUIntLE_1_ok
    by (try destruct (ExtraAccountMeta.isSigner d); lia).
  cbv beta iota delta [ok]. cbn [Z.gtb Z.compare]. cbv beta iota.
  set (b3 := Buffer.set b2 (offset + 1 + 32) _).
  assert (Buffer.length b3 = Buffer.length b) as L3
    by (subst b3; rewrite set_length; cbn [List.length]; lia).
  rewrite writeUIntLE_fail by lia. cbn [fst snd]. split; [reflexivity|exact L3].
Qed.

(** X6: at a non-negative offset, encoding one descriptor returns (35) exactly
    when the descriptor is well formed and 35 bytes are left from the offset;
    returning or throwing, it never changes the length of the buffer. *)
Theorem encode_descriptor_succeeds_iff (d : ExtraAccountMeta.t) (b : list byte) (offset : Z) :
  0 <= offset ->
  let r := BufferLayout.encode ExtraAccountMetaLayout d offset b in
  (fst r = ok 35 <-> well_formed d /\ offset + 35 <= Buffer.length b)
  /\ (forall n, fst r = ok n -> n = 35)
  /\ Buffer.length (snd r) = Buffer.length b.
Proof.
  intros Hoff r.
  destruct (encode_descriptor_outcomes d b offset Hoff)
    as [(Hbad & E) | [(Hd & Hin & Hc & E) | [(Hwf & Hs & E1 & E2) | (Hwf & Hfit & E)]]];
    fold r in E || fold r in E1, E2.
  - rewrite E. cbn [fst snd]. split; [split; [discriminate|]|split; [discriminate|reflexivity]].
    intros [[Hd _] Hfit]. exfalso. apply Hbad. lia.
  - rewrite E. cbn [fst snd]. split; [split; [discriminate|]|split; [discriminate|]].
    + intros [[_ Hc'] _]. contradiction.
    + unfold Buffer.length. now rewrite length_insert.
  - rewrite E1. split; [split; [discriminate|]|split; [discriminate|exact E2]].
    intros [_ Hfit]. lia.
  - rewrite E. cbn [fst snd]. split; [split; [tauto|reflexivity]|split].
    + now intros n [= <-].
    + pose proof (descriptor_bytes_length d Hwf) as Hl.
      unfold Buffer.length in *. rewrite !length_app, length_take, length_drop, Hl. lia.
Qed.

(** X7: encoding is not atomic.  With a one-byte discriminator but a
    configuration that is not 32 bytes long, the encode throws a TypeError
    after it has already overwritten the byte at [offset] with the
    discriminator; the rest of the buffer is untouched. *)
Theorem encode_descriptor_partial_write (d : ExtraAccountMeta.t) (b : list byte) (offset : Z) :
  0 <= offset < Buffer.length b ->
  0 <= ExtraAccountMeta.discriminator d <= 255 ->
  List.length (ExtraAccountMeta.addressConfig d) <> 32%nat ->
  BufferLayout.encode ExtraAccountMetaLayout d offset b
  = (throw TypeError,
     <[Z.to_nat offset := Buffer.byte_of_Z (ExtraAccountMeta.discriminator d)]> b).
Proof.
  intros Hoff Hd Hc.
  destruct (encode_descriptor_outcomes d b offset ltac:(lia))
    as [(Hbad & E) | [(_ & _ & _ & E) | [([_ Hc'] & _) | ([_ Hc'] & _)]]].
  - exfalso. apply Hbad. lia.
  - exact E.
  - contradiction.
  - contradiction.
Qed.

(** X8: a count outside the 32-bit range makes the list encode throw a
    RangeError before anything is written. *)
Theorem encode_list_rejects_wide_count (l : ExtraAccountMetaList.t) (b : Buffer.t) :
  ~ (0 <= ExtraAccountMetaList.count l < 2 ^ 32) ->
  BufferLayout.encode ExtraAccountMetaListLayout l 0 b = (throw RangeError, b).
Proof.
  intros Hc.
  unfold ExtraAccountMetaListLayout, BufferLayout.struct, BufferLayout.encode,
    BufferLayout.struct_encode.
  cbn [BufferLayout.struct_encode_loop BufferLayout.field_layout
       BufferLayout.field_get BufferLayout.encode BufferLayout.u32
       BufferLayout.UInt BufferLayout.span].
  unfold mbind.
  rewrite writeUIntLE_fail by (change (2 ^ (8 * 4)) with (2 ^ 32); lia).
  reflexivity.
Qed.

(** ** The transfer-hook extension layouts *)

(** an imaged value written into and read from any buffer with room *)
Lemma field_image_at {F : Type} (L : BufferLayout.Layout F) (v : F) (bs : list byte)
    (b : Buffer.t) (offset : Z) :
  field_image L v bs ->
  0 <= offset ->
  offset + Z.of_nat (List.length bs) <= Buffer.length b ->
  let b' := take (Z.to_nat offset) b ++ bs
              ++ drop (Z.to_nat offset + List.length bs) b in
  BufferLayout.encode L v offset b = (ok (BufferLayout.span L), b')
  /\ BufferLayout.decode L b' offset = ok v
  /\ Buffer.length b' = Buffer.length b.
Proof.
  intros (_ & _ & _ & Henc & Hdec) Hoff Hfit b'. unfold Buffer.length in *.
  set (pre := take (Z.to_nat offset) b) in *.
  assert (offset = Z.of_nat (List.length pre)) as Eo
    by (subst pre; rewrite length_take; lia).
  split; [|split].
  - replace (BufferLayout.encode L v offset b)
      with (BufferLayout.encode L v (Z.of_nat (List.length pre))
              (pre ++ drop (Z.to_nat offset) b))
      by (f_equal; [lia | subst pre; apply take_drop]).
    rewrite Henc by (rewrite length_drop; lia).
    subst b'. now rewrite drop_drop.
  - assert (forall o post, o = Z.of_nat (List.length pre) ->
              BufferLayout.decode L (pre ++ bs ++ post) o = ok v) as H
      by (intros o post ->; apply Hdec).
    subst b'. now apply H.
  - subst b' pre. rewrite !length_app, length_take, length_drop. lia.
Qed.

Lemma TransferHookLayout_image (h : TransferHook.t) :
  valid_key (TransferHook.authority h) ->
  valid_key (TransferHook.programId h) ->
  field_image TransferHookLayout h
    (concat [PublicKey.toBuffer (TransferHook.authority h);
             PublicKey.toBuffer (TransferHook.programId h)]).
Proof.
  intros Ha Hp. apply struct_field_image.
  - discriminate.
  - repeat constructor; cbn [BufferLayout.field_layout BufferLayout.field_get];
      now apply publicKey_image.
  - now destruct h.
Qed.

(** X9: a transfer-hook record with two valid keys is written as the 32
    bytes of the authority followed by the 32 bytes of the program id
    ([TRANSFER_HOOK_SIZE] is 64), and decoding what was written gives the
    record back. *)
Theorem TransferHook_round_trip (h : TransferHook.t) (b : Buffer.t) (offset : Z) :
  valid_key (TransferHook.authority h) ->
  valid_key (TransferHook.programId h) ->
  0 <= offset ->
  offset + 64 <= Buffer.length b ->
  let b' := take (Z.to_nat offset) b
              ++ (PublicKey.toBuffer (TransferHook.authority h)
                  ++ PublicKey.toBuffer (TransferHook.programId h))
              ++ drop (Z.to_nat offset + 64) b in
  TRANSFER_HOOK_SIZE = 64
  /\ BufferLayout.encode TransferHookLayout h offset b = (ok 64, b')
  /\ BufferLayout.decode TransferHookLayout b' offset = ok h.
Proof.
  intros Ha Hp Hoff Hfit b'. split; [reflexivity|].
  pose proof (TransferHookLayout_image h Ha Hp) as Himg.
  cbn [concat] in Himg. rewrite app_nil_r in Himg.
  destruct (field_image_at _ _ _ b offset Himg Hoff) as (E & D & _).
  - rewrite length_app, !toBuffer_length. lia.
  - rewrite length_app, !toBuffer_length in E, D.
    change (32 + 32)%nat with 64%nat in E, D.
    split; [exact E | exact D].
Qed.

Lemma slice_length_le (b : Buffer.t) (s n : Z) :
  0 <= n -> (List.length (Buffer.slice b s (s + n)) <= Z.to_nat n)%nat.
Proof.
  intros Hn. unfold Buffer.slice. cbv zeta. rewrite length_take. lia.
Qed.

Lemma PublicKey_new_short (bs : Buffer.t) :
  (List.length bs <= 32)%nat ->
  exists k, PublicKey.new bs = ok k /\ valid_key k
            /\ PublicKey._bn k = Buffer.le_value (rev bs).
Proof.
  intros Hlen. unfold PublicKey.new, PublicKey.PUBLIC_KEY_LENGTH, valid_key.
  pose proof (le_value_range (rev bs)) as Hr. rewrite length_rev in Hr.
  assert (256 ^ Z.of_nat (List.length bs) <= 2 ^ 256) as Hpow.
  { change (2 ^ 256) with (256 ^ 32). apply Z.pow_le_mono_r; lia. }
  change (2 ^ (8 * 32)) with (2 ^ 256).
  destruct (Z.ltb_spec (Buffer.le_value (rev bs)) (2 ^ 256)); [|lia].
  eexists. split; [reflexivity|]. cbn [PublicKey._bn]. split; [lia|reflexivity].
Qed.

(** X10: decoding a transfer-hook record never throws at a non-negative
    offset, whatever the buffer holds: [slice] clamps, so missing bytes do
    not raise an error and the keys are built from the bytes that are
    there.  In particular an empty buffer decodes to two all-zero keys. *)
Theorem TransferHook_decode_never_throws (b : Buffer.t) (offset : Z) :
  0 <= offset ->
  exists h,
    BufferLayout.decode TransferHookLayout b offset = ok h
    /\ valid_key (TransferHook.authority h)
    /\ valid_key (TransferHook.programId h)
    /\ (b = [] -> h = TransferHook.mk (PublicKey.mk 0) (PublicKey.mk 0)).
Proof.
  intros Hoff.
  unfold TransferHookLayout, BufferLayout.struct, BufferLayout.decode,
    BufferLayout.struct_decode.
  cbn [BufferLayout.struct_decode_loop BufferLayout.field_layout
       BufferLayout.field_set BufferLayout.decode BufferLayout.getSpan
       publicKey BufferLayout.blob BufferLayout.span rbind ok].
  destruct (PublicKey_new_short (Buffer.slice b offset (offset + 32)))
    as (ka & Ea & Va & Na); [apply (slice_length_le b offset 32); lia|].
  destruct (PublicKey_new_short (Buffer.slice b (offset + 32) (offset + 32 + 32)))
    as (kp & Ep & Vp & Np); [apply (slice_length_le b (offset + 32) 32); lia|].
  rewrite Ea. cbn [rbind ok]. rewrite Ep. cbn [rbind ok].
  eexists. split; [reflexivity|].
  cbn [TransferHook.set_authority TransferHook.set_programId
       TransferHook.authority TransferHook.programId TransferHook.empty].
  split; [exact Va|]. split; [exact Vp|].
  intros ->. destruct ka as [na], kp as [np].
  cbn [PublicKey._bn] in Na, Np. subst na np.
  unfold Buffer.slice. cbv zeta. rewrite !drop_nil, !take_nil. reflexivity.
Qed.

Lemma TransferHook_decode_total (data : Buffer.t) :
  exists h, BufferLayout.decode TransferHookLayout data 0 = ok h.
Proof.
  unfold TransferHookLayout, BufferLayout.struct, BufferLayout.decode,
    BufferLayout.struct_decode.
  cbn [BufferLayout.struct_decode_loop BufferLayout.field_layout
       BufferLayout.field_set BufferLayout.decode BufferLayout.getSpan
       publicKey BufferLayout.blob BufferLayout.span rbind ok].
  destruct (PublicKey_new_short (Buffer.slice data 0 (0 + 32)))
    as (ka & Ea & _); [apply (slice_length_le data 0 32); lia|].
  destruct (PublicKey_new_short (Buffer.slice data (0 + 32) (0 + 32 + 32)))
    as (kp & Ep & _); [apply (slice_length_le data (0 + 32) 32); lia|].
  rewrite Ea. cbn [rbind ok]. rewrite Ep. cbn [rbind ok].
  eexists. reflexivity.
Qed.

Section ExtensionProperties.
Variable getExtensionData : ExtensionType -> Buffer.t -> result (option Buffer.t).

(** X11: [getTransferHook] throws only what [getExtensionData] throws.  When
    that returns, the result is [null] exactly when the extension is absent;
    extension data of any length, even empty, yields a record. *)
Theorem getTransferHook_never_throws_on_data (tlvData : Buffer.t)
    (found : option Buffer.t) :
  getExtensionData ExtensionType_TransferHook tlvData = ok found ->
  exists r : option TransferHook.t,
    getTransferHook getExtensionData tlvData = ok r
    /\ (r = None <-> found = None).
Proof.
  intros Hget. unfold getTransferHook. rewrite Hget. cbn [rbind ok].
  destruct found as [data|].
  - destruct (TransferHook_decode_total data) as (h & Hh).
    rewrite Hh. cbn [rbind ok]. eexists. split; [reflexivity|].
    split; discriminate.
  - eexists. split; [reflexivity|]. tauto.
Qed.

(** X12: when the account carries the extension, [getTransferHookAccount]
    throws a RangeError on empty extension data and otherwise reports
    [transferring] as true exactly when the first byte is not zero. *)
Theorem getTransferHookAccount_reads_first_byte (tlvData data : Buffer.t) :
  getExtensionData ExtensionType_TransferHookAccount tlvData = ok (Some data) ->
  getTransferHookAccount getExtensionData tlvData =
    match data with
    | [] => throw RangeError
    | x :: _ => ok (Some (TransferHookAccount.mk (negb (Buffer.byte_to_Z x =? 0))))
    end.
Proof.
  intros Hget. unfold getTransferHookAccount. rewrite Hget. cbn [rbind ok].
  unfold TransferHookAccountLayout, BufferLayout.struct, BufferLayout.decode,
    BufferLayout.struct_decode.
  cbn [BufferLayout.struct_decode_loop BufferLayout.field_layout
       BufferLayout.field_set BufferLayout.decode BufferLayout.getSpan
       BufferLayoutUtils.bool BufferLayout.u8 BufferLayout.UInt].
  destruct data as [|x data].
  - reflexivity.
  - rewrite (readUIntLE_1 (x :: data) 0 x) by (lia || reflexivity).
    reflexivity.
Qed.

End ExtensionProperties.

(** ** More about the resolution step *)

Section MoreResolutionProperties.

Variable unpackSeeds :
  Buffer.t -> list AccountMeta.t -> Buffer.t -> result (list Buffer.t).
Variable findProgramAddressSync :
  list Buffer.t -> PublicKey.t -> result (PublicKey.t * Z).

Local Abbreviation resolve' :=
  (resolveExtraAccountMeta unpackSeeds findProgramAddressSync).

(** X13: for a discriminator [d] other than 0 and 1 whose index [d - 128] is
    not below the number of resolved references, the call throws
    TokenTransferHookAccountNotFound before any collaborator is called and
    leaves the array as it was. *)
Theorem index_beyond_resolved_list_is_not_found extraMeta previousMetas instructionData hook :
  ExtraAccountMeta.discriminator extraMeta <> 0 ->
  ExtraAccountMeta.discriminator extraMeta <> 1 ->
  Z.of_nat (List.length previousMetas) <= ExtraAccountMeta.discriminator extraMeta - 128 ->
  resolve' extraMeta previousMetas instructionData hook
  = (throw TokenTransferHookAccountNotFound, mkWorld previousMetas []).
Proof. apply resolve_delegated_not_found. Qed.

(** X14: for a discriminator [d >= 128] whose index [d - 128] names a
    resolved reference, the derivation runs under that reference's key: the
    seeds come from [unpackSeeds(addressConfig, previousMetas,
    instructionData)], the owning program passed to [findProgramAddressSync]
    is [previousMetas[d - 128].pubkey], and the call returns or throws as
    that derivation does. *)
Theorem delegated_derives_under_indexed_entry extraMeta previousMetas instructionData hook owner :
  128 <= ExtraAccountMeta.discriminator extraMeta ->
  previousMetas !! Z.to_nat (ExtraAccountMeta.discriminator extraMeta - 128) = Some owner ->
  let config := ExtraAccountMeta.addressConfig extraMeta in
  let r := resolve' extraMeta previousMetas instructionData hook in
  fst r =
    (let* seeds := unpackSeeds config previousMetas instructionData in
     let* found := findProgramAddressSync seeds (AccountMeta.pubkey owner) in
     ok (AccountMeta.mk (fst found) (ExtraAccountMeta.isSigner extraMeta)
                        (ExtraAccountMeta.isWritable extraMeta)))%result
  /\ (forall seeds, unpackSeeds config previousMetas instructionData = ok seeds ->
        calls (snd r) =
          [CallUnpackSeeds config previousMetas instructionData;
           CallFindProgramAddressSync seeds (AccountMeta.pubkey owner)]).
Proof.
  intros Hd Hown config r. subst r config.
  rewrite (resolve_delegated_found _ _ _ _ _ _ _ Hd Hown).
  unfold derive_with, rbind, ok.
  destruct (unpackSeeds _ _ _) as [e|seeds]; cbn [fst snd calls].
  - split; [reflexivity | discriminate].
  - split; [now destruct (findProgramAddressSync _ _)|].
    now intros seeds' [= <-].
Qed.

(** X15: the hook program id matters only for discriminator 1: for every
    other discriminator the outcome, the array and the collaborator calls
    are the same whatever [transferHookProgramId] is. *)
Theorem hook_program_matters_only_for_discriminator_1
    extraMeta previousMetas instructionData hook1 hook2 :
  ExtraAccountMeta.discriminator extraMeta <> 1 ->
  resolveExtraAccountMeta unpackSeeds findProgramAddressSync
    extraMeta previousMetas instructionData hook1
  = resolveExtraAccountMeta unpackSeeds findProgramAddressSync
      extraMeta previousMetas instructionData hook2.
Proof.
  intros Hd. unfold resolveExtraAccountMeta, resolveExtraAccountMeta_body.
  destruct (Z.eqb_spec (ExtraAccountMeta.discriminator extraMeta) 0); [reflexivity|].
  destruct (Z.eqb_spec (ExtraAccountMeta.discriminator extraMeta) 1); [contradiction|].
  reflexivity.
Qed.

(** X16: the collaborators are called in a fixed order, each at most once.
    Either none is called; or [unpackSeeds] is called, throws, and the call
    throws the same error without calling [findProgramAddressSync]; or
    [unpackSeeds] returns seeds and [findProgramAddressSync] is called once
    on exactly these seeds, under the hook program (discriminator 1) or under
    the key of the entry at index [d - 128]. *)
Theorem collaborators_called_in_order extraMeta previousMetas instructionData hook :
  let d := ExtraAccountMeta.discriminator extraMeta in
  let config := ExtraAccountMeta.addressConfig extraMeta in
  let r := resolve' extraMeta previousMetas instructionData hook in
  calls (snd r) = []
  \/ (exists e,
        unpackSeeds config previousMetas instructionData = throw e
        /\ r = (throw e, mkWorld previousMetas
                           [CallUnpackSeeds config previousMetas instructionData]))
  \/ (exists seeds programId,
        unpackSeeds config previousMetas instructionData = ok seeds
        /\ calls (snd r) =
             [CallUnpackSeeds config previousMetas instructionData;
              CallFindProgramAddressSync seeds programId]
        /\ ((d = 1 /\ programId = hook)
            \/ (exists owner, 128 <= d
                  /\ previousMetas !! Z.to_nat (d - 128) = Some owner
                  /\ programId = AccountMeta.pubkey owner))).
Proof.
  cbv zeta.
  match goal with |- ?G =>
  assert (forall programId,
            (ExtraAccountMeta.discriminator extraMeta = 1 /\ programId = hook)
            \/ (exists owner, 128 <= ExtraAccountMeta.discriminator extraMeta
                  /\ previousMetas
                     !! Z.to_nat (ExtraAccountMeta.discriminator extraMeta - 128)
                     = Some owner
                  /\ programId = AccountMeta.pubkey owner) ->
            resolve' extraMeta previousMetas instructionData hook
            = derive_with unpackSeeds findProgramAddressSync extraMeta previousMetas
                instructionData programId ->
            G) as Hderived end.
  2:{ destruct (resolve_cases unpackSeeds findProgramAddressSync
                  extraMeta previousMetas instructionData hook)
        as [(_ & -> & _) | [(E & H) | [(_ & _ & _ & ->) | [(_ & _ & _ & ->) | (owner & Hd & Hown & H)]]]];
        try (left; reflexivity).
      - apply (Hderived hook); [left; split; [exact E|reflexivity] | exact H].
      - apply (Hderived (AccountMeta.pubkey owner)); [right; eauto | exact H]. }
  intros programId Hwho ->. unfold derive_with.
  destruct (unpackSeeds _ _ _) as [e|seeds].
  - right; left. exists e. split; reflexivity.
  - right; right. exists seeds, programId. cbn [fst snd calls].
    split; [reflexivity|]. split; [reflexivity|exact Hwho].
Qed.

End MoreResolutionProperties.

(** ** The metadata-pointer instructions *)

Lemma or_zero_key_valid (k : option PublicKey.t) :
  (forall k', k = Some k' -> valid_key k') -> valid_key (or_zero_key k).
Proof.
  destruct k as [k'|]; cbn; [intros H; now apply H|].
  intros _. unfold valid_key. cbn. lia.
Qed.

Lemma initializeMetadataPointer_image (src : InitializeData.t) :
  0 <= InitializeData.instruction src <= 255 ->
  0 <= InitializeData.metadataPointerInstruction src <= 255 ->
  valid_key (InitializeData.authority src) ->
  valid_key (InitializeData.metadataAddress src) ->
  field_image initializeMetadataPointer src
    (concat [[Buffer.byte_of_Z (InitializeData.instruction src)];
             [Buffer.byte_of_Z (InitializeData.metadataPointerInstruction src)];
             PublicKey.toBuffer (InitializeData.authority src);
             PublicKey.toBuffer (InitializeData.metadataAddress src)]).
Proof.
  intros Hi Hm Ha Hd. apply struct_field_image.
  - discriminate.
  - repeat constructor; cbn [BufferLayout.field_layout BufferLayout.field_get];
      (now apply u8_image) || (now apply publicKey_image).
  - now destruct src.
Qed.

Lemma updateMetadataPointer_image (src : UpdateData.t) :
  0 <= UpdateData.instruction src <= 255 ->
  0 <= UpdateData.metadataPointerInstruction src <= 255 ->
  valid_key (UpdateData.metadataAddress src) ->
  field_image updateMetadataPointer src
    (concat [[Buffer.byte_of_Z (UpdateData.instruction src)];
             [Buffer.byte_of_Z (UpdateData.metadataPointerInstruction src)];
             PublicKey.toBuffer (UpdateData.metadataAddress src)]).
Proof.
  intros Hi Hm Hd. apply struct_field_image.
  - discriminate.
  - repeat constructor; cbn [BufferLayout.field_layout BufferLayout.field_get];
      (now apply u8_image) || (now apply publicKey_image).
  - now destruct src.
Qed.

(** a fresh buffer of the layout's span, encoded into, holds the image *)
Lemma alloc_and_encode_image {T : Type} (L : BufferLayout.Layout T) (src : T)
    (bs : list byte) :
  field_image L src bs ->
  BufferLayout.encode L src 0 (Buffer.alloc (BufferLayout.span L)) = (ok (BufferLayout.span L), bs)
  /\ BufferLayout.decode L bs 0 = ok src.
Proof.
  intros Himg. pose proof Himg as (_ & Hsp & _ & Henc & Hdec).
  split.
  - specialize (Henc [] (Buffer.alloc (BufferLayout.span L))).
    cbn [List.length app] in Henc. change (Z.of_nat 0) with 0 in Henc. rewrite Henc.
    + f_equal. unfold Buffer.alloc. rewrite Hsp, Nat2Z.id.
      rewrite drop_ge by (now rewrite length_replicate). apply app_nil_r.
    + unfold Buffer.alloc. rewrite length_replicate. lia.
  - specialize (Hdec [] []). cbn [List.length app] in Hdec.
    change (Z.of_nat 0) with 0 in Hdec. now rewrite app_nil_r in Hdec.
Qed.

Section MetadataPointerProperties.

Variable programSupportsExtensions : PublicKey.t -> bool.
Variable MetadataPointerExtension : Z.
Variable MultiSigner : Type.
Variable addSigners :
  list AccountMeta.t -> PublicKey.t -> list MultiSigner -> list AccountMeta.t.

Lemma initialize_instruction_data (mint : PublicKey.t)
    (authority metadataAddress : option PublicKey.t) (programId : PublicKey.t) :
  programSupportsExtensions programId = true ->
  0 <= MetadataPointerExtension <= 255 ->
  (forall k, authority = Some k -> valid_key k) ->
  (forall k, metadataAddress = Some k -> valid_key k) ->
  let data :=
    [Buffer.byte_of_Z MetadataPointerExtension; "000"%byte]
    ++ PublicKey.toBuffer (or_zero_key authority)
    ++ PublicKey.toBuffer (or_zero_key metadataAddress) in
  createInitializeMetadataPointerInstruction programSupportsExtensions
    MetadataPointerExtension mint authority metadataAddress programId
  = inr (TransactionInstruction.mk [AccountMeta.mk mint false true] programId data)
  /\ BufferLayout.decode initializeMetadataPointer data 0
     = ok (InitializeData.mk MetadataPointerExtension 0
             (or_zero_key authority) (or_zero_key metadataAddress)).
Proof.
  intros Hsup Htag Ha Hm data.
  pose proof (initializeMetadataPointer_image
                (InitializeData.mk MetadataPointerExtension
                   MetadataPointerInstruction.Initialize
                   (or_zero_key authority) (or_zero_key metadataAddress))
                Htag ltac:(unfold MetadataPointerInstruction.Initialize;
                           cbn [InitializeData.metadataPointerInstruction]; lia)
                (or_zero_key_valid _ Ha) (or_zero_key_valid _ Hm)) as Himg.
  cbn [concat InitializeData.instruction InitializeData.metadataPointerInstruction
       InitializeData.authority InitializeData.metadataAddress] in Himg.
  rewrite app_nil_r in Himg.
  change ([Buffer.byte_of_Z MetadataPointerExtension]
          ++ [Buffer.byte_of_Z MetadataPointerInstruction.Initialize]
          ++ PublicKey.toBuffer (or_zero_key authority)
          ++ PublicKey.toBuffer (or_zero_key metadataAddress))
    with data in Himg.
  destruct (alloc_and_encode_image _ _ _ Himg) as [Henc Hdec].
  split; [|exact Hdec].
  unfold createInitializeMetadataPointerInstruction, alloc_and_encode.
  rewrite Hsup. cbn [negb]. now rewrite Henc.
Qed.

(** X17: for a program that supports extensions and a one-byte opcode,
    [createInitializeMetadataPointerInstruction] returns an instruction for
    that program whose only key is the mint, writable and not a signer, and
    whose 66 bytes of data are the opcode, a zero byte (Initialize), the 32
    bytes of the authority and the 32 bytes of the metadata address, a
    [null] key being written as 32 zero bytes; the layout decodes the data
    back to these four fields. *)
Theorem initialize_instruction_layout (mint : PublicKey.t)
    (authority metadataAddress : option PublicKey.t) (programId : PublicKey.t) :
  programSupportsExtensions programId = true ->
  0 <= MetadataPointerExtension <= 255 ->
  (forall k, authority = Some k -> valid_key k) ->
  (forall k, metadataAddress = Some k -> valid_key k) ->
  let data :=
    [Buffer.byte_of_Z MetadataPointerExtension; "000"%byte]
    ++ PublicKey.toBuffer (or_zero_key authority)
    ++ PublicKey.toBuffer (or_zero_key metadataAddress) in
  createInitializeMetadataPointerInstruction programSupportsExtensions
    MetadataPointerExtension mint authority metadataAddress programId
  = inr (TransactionInstruction.mk [AccountMeta.mk mint false true] programId data)
  /\ List.length data = 66%nat
  /\ PublicKey.toBuffer (or_zero_key None) = replicate 32 "000"%byte
  /\ BufferLayout.decode initializeMetadataPointer data 0
     = ok (InitializeData.mk MetadataPointerExtension 0
             (or_zero_key authority) (or_zero_key metadataAddress)).
Proof.
  intros Hsup Htag Ha Hm data.
  destruct (initialize_instruction_data mint authority metadataAddress programId
              Hsup Htag Ha Hm) as [E D].
  split; [exact E|]. split; [|split; [reflexivity|exact D]].
  subst data. cbn [List.length app]. rewrite length_app, !toBuffer_length. reflexivity.
Qed.

(** X18: [createInitializeMetadataPointerInstruction] throws
    TokenUnsupportedInstructionError for a program that does not support
    extensions, whatever the other arguments, and a RangeError from the
    layout when the program is supported but the opcode is not a byte; with
    valid keys these are its only failures. *)
Theorem initialize_instruction_failures (mint : PublicKey.t)
    (authority metadataAddress : option PublicKey.t) (programId : PublicKey.t) :
  (forall k, authority = Some k -> valid_key k) ->
  (forall k, metadataAddress = Some k -> valid_key k) ->
  let r := createInitializeMetadataPointerInstruction programSupportsExtensions
             MetadataPointerExtension mint authority metadataAddress programId in
  (programSupportsExtensions programId = false ->
   r = inl TokenUnsupportedInstructionError)
  /\ (programSupportsExtensions programId = true ->
      ~ (0 <= MetadataPointerExtension <= 255) ->
      r = inl (EncodeError RangeError))
  /\ ((exists i, r = inr i) <->
      programSupportsExtensions programId = true /\ 0 <= MetadataPointerExtension <= 255).
Proof.
  intros Ha Hm r.
  assert (programSupportsExtensions programId = false ->
          r = inl TokenUnsupportedInstructionError) as H1.
  { intros Hsup. subst r. unfold createInitializeMetadataPointerInstruction.
    now rewrite Hsup. }
  assert (programSupportsExtensions programId = true ->
          ~ (0 <= MetadataPointerExtension <= 255) ->
          r = inl (EncodeError RangeError)) as H2.
  { intros Hsup Htag. subst r.
    unfold createInitializeMetadataPointerInstruction, alloc_and_encode.
    rewrite Hsup. cbn [negb].
    unfold initializeMetadataPointer, BufferLayout.struct, BufferLayout.encode,
      BufferLayout.struct_encode.
    cbn [BufferLayout.struct_encode_loop BufferLayout.field_layout
         BufferLayout.field_get BufferLayout.encode BufferLayout.u8
         BufferLayout.UInt InitializeData.instruction].
    unfold mbind.
    rewrite writeUIntLE_fail by (change (2 ^ (8 * 1)) with 256; lia).
    reflexivity. }
  split; [exact H1|]. split; [exact H2|]. split.
  - intros [i Hi].
    destruct (programSupportsExtensions programId) eqn:Hsup.
    + split; [reflexivity|].
      destruct (Z_le_gt_dec 0 MetadataPointerExtension);
        [destruct (Z_le_gt_dec MetadataPointerExtension 255); [lia|]|];
        rewrite H2 in Hi by (reflexivity || lia); discriminate.
    + rewrite H1 in Hi by reflexivity. discriminate.
  - intros [Hsup Htag].
    destruct (initialize_instruction_data mint authority metadataAddress programId
                Hsup Htag Ha Hm) as [E _].
    eexists. exact E.
Qed.

(** X19: for a program that supports extensions and a one-byte opcode,
    [createUpdateMetadataPointerInstruction] returns an instruction whose
    keys are what [addSigners] makes of the writable mint, and whose 34
    bytes of data are the opcode, a byte 1 (Update) and the 32 bytes of the
    metadata address ([null] as zero bytes); the layout decodes the data
    back. *)
Theorem update_instruction_layout (mint authority : PublicKey.t)
    (metadataAddress : option PublicKey.t) (multiSigners : list MultiSigner)
    (programId : PublicKey.t) :
  programSupportsExtensions programId = true ->
  0 <= MetadataPointerExtension <= 255 ->
  (forall k, metadataAddress = Some k -> valid_key k) ->
  let data :=
    [Buffer.byte_of_Z MetadataPointerExtension; "001"%byte]
    ++ PublicKey.toBuffer (or_zero_key metadataAddress) in
  createUpdateMetadataPointerInstruction programSupportsExtensions
    MetadataPointerExtension MultiSigner addSigners mint authority metadataAddress
    multiSigners programId
  = inr (TransactionInstruction.mk
           (addSigners [AccountMeta.mk mint false true] authority multiSigners)
           programId data)
  /\ List.length data = 34%nat
  /\ BufferLayout.decode updateMetadataPointer data 0
     = ok (UpdateData.mk MetadataPointerExtension 1 (or_zero_key metadataAddress)).
Proof.
  intros Hsup Htag Hm data.
  pose proof (updateMetadataPointer_image
                (UpdateData.mk MetadataPointerExtension
                   MetadataPointerInstruction.Update (or_zero_key metadataAddress))
                Htag ltac:(unfold MetadataPointerInstruction.Update;
                           cbn [UpdateData.metadataPointerInstruction]; lia)
                (or_zero_key_valid _ Hm)) as Himg.
  cbn [concat UpdateData.instruction UpdateData.metadataPointerInstruction
       UpdateData.metadataAddress] in Himg.
  rewrite app_nil_r in Himg.
  change ([Buffer.byte_of_Z MetadataPointerExtension]
          ++ [Buffer.byte_of_Z MetadataPointerInstruction.Update]
          ++ PublicKey.toBuffer (or_zero_key metadataAddress))
    with data in Himg.
  destruct (alloc_and_encode_image _ _ _ Himg) as [Henc Hdec].
  split; [|split].
  - unfold createUpdateMetadataPointerInstruction, alloc_and_encode.
    rewrite Hsup. cbn [negb]. now rewrite Henc.
  - subst data. cbn [List.length app]. rewrite toBuffer_length. reflexivity.
  - exact Hdec.
Qed.

End MetadataPointerProperties.

(** ** The name-service numbers *)

Lemma le_bytes_zero (j : nat) : Buffer.le_bytes j 0 = replicate j "000"%byte.
Proof.
  induction j as [|j IH]; [reflexivity|].
  cbn [Buffer.le_bytes replicate]. change (0 / 256) with 0. now rewrite IH.
Qed.

Lemma le_bytes_pad (k j : nat) (v : Z) :
  0 <= v < 256 ^ Z.of_nat k ->
  Buffer.le_bytes (k + j) v = Buffer.le_bytes k v ++ replicate j "000"%byte.
Proof.
  revert v. induction k as [|k IH]; intros v Hv.
  - cbn in Hv. replace v with 0 by lia. apply le_bytes_zero.
  - cbn [Nat.add Buffer.le_bytes app]. f_equal. apply IH.
    rewrite Nat2Z.inj_succ, Z.pow_succ_r in Hv by lia.
    split; [apply Z.div_pos; lia | apply Z.div_lt_upper_bound; lia].
Qed.

Lemma N_size_le_iff (v n : N) : (N.size v <= n <-> v < 2 ^ n)%N.
Proof.
  split.
  - intros H. apply N.lt_le_trans with (2 ^ N.size v)%N; [apply N.size_gt|].
    apply N.pow_le_mono_r; [discriminate | exact H].
  - intros H. apply N.nlt_ge. intros Hlt.
    assert (2 ^ N.succ n <= 2 ^ N.size v)%N as Hp
      by (apply N.pow_le_mono_r; [discriminate | now apply N.le_succ_l]).
    pose proof (N.size_le v) as Hs.
    rewrite N.pow_succ_r' in Hp. rewrite N.succ_double_spec in Hs. lia.
Qed.

(** the number of bytes [toArray] gives: the least [k >= 1] with [v < 256^k] *)
Lemma toArray_length (v : BN.t) :
  let k := N.to_nat (N.max 1 (BN.byteLength v)) in
  List.length (BN.toArray v) = k
  /\ Z.of_N v < 256 ^ Z.of_nat k
  /\ (forall w : nat, (1 <= w)%nat -> (k <= w)%nat <-> Z.of_N v < 256 ^ Z.of_nat w).
Proof.
  cbv zeta. unfold BN.toArray, BN.byteLength.
  set (s := N.size v). set (bl := ((s + 7) / 8)%N).
  pose proof (N.div_mod (s + 7) 8 ltac:(discriminate)) as Hdm.
  pose proof (N.mod_lt (s + 7) 8 ltac:(discriminate)) as Hr. fold bl in Hdm.
  assert (forall n : N, ((s <= n)%N <-> Z.of_N v < 2 ^ Z.of_N n)) as Hsize.
  { intros n. unfold s. rewrite (N_size_le_iff v n).
    rewrite N2Z.inj_lt, N2Z.inj_pow. reflexivity. }
  assert (forall w : nat, 256 ^ Z.of_nat w = 2 ^ Z.of_N (8 * N.of_nat w)) as Hpow.
  { intros w. rewrite N2Z.inj_mul, nat_N_Z. change (Z.of_N 8) with 8.
    rewrite Z.pow_mul_r by lia. reflexivity. }
  split; [now rewrite length_rev, le_bytes_length|].
  clearbody bl. clearbody s.
  set (r := ((s + 7) mod 8)%N) in *. clearbody r. split.
  - rewrite Hpow. apply Hsize. rewrite N2Nat.id. lia.
  - intros w Hw. rewrite Hpow, <- Hsize. lia.
Qed.

Lemma Numberu_toBuffer_spec (w : nat) (v : BN.t) :
  (1 <= w)%nat ->
  (Z.of_N v < 256 ^ Z.of_nat w ->
   Numberu_toBuffer (Z.of_nat w) v = inr (Buffer.le_bytes w (Z.of_N v)))
  /\ (256 ^ Z.of_nat w <= Z.of_N v ->
      Numberu_toBuffer (Z.of_nat w) v = inl TooLarge).
Proof.
  intros Hw. destruct (toArray_length v) as (Hlen & Hk & Hiff).
  set (k := N.to_nat (N.max 1 (BN.byteLength v))) in *.
  specialize (Hiff w Hw).
  unfold Numberu_toBuffer. cbv zeta.
  assert (rev (BN.toArray v) = Buffer.le_bytes k (Z.of_N v)) as Ea
    by (unfold BN.toArray; now rewrite rev_involutive).
  rewrite Ea. unfold Buffer.length. rewrite le_bytes_length.
  split.
  - intros Hv. apply Hiff in Hv.
    destruct (Z.eqb_spec (Z.of_nat k) (Z.of_nat w)) as [E|E].
    + now replace w with k by lia.
    + destruct (Z.ltb_spec (Z.of_nat k) (Z.of_nat w)); [|lia]. cbn [negb].
      f_equal. unfold copy_into, Buffer.alloc.
      rewrite le_bytes_length, Nat2Z.id, drop_replicate.
      replace w with (k + (w - k))%nat at 2 by lia.
      symmetry. apply le_bytes_pad. lia.
  - intros Hv.
    assert (~ (k <= w)%nat) as Hgt by (rewrite Hiff; lia).
    destruct (Z.eqb_spec (Z.of_nat k) (Z.of_nat w)); [lia|].
    destruct (Z.ltb_spec (Z.of_nat k) (Z.of_nat w)); [lia|]. reflexivity.
Qed.

Lemma two_hex_digits_value (i : byte) :
  two_hex_digits i
  = String (hex_digit (Byte.to_N i / 16)) (String (hex_digit (Byte.to_N i mod 16)) EmptyString)
  /\ (BN.hex_value (hex_digit (Byte.to_N i / 16)) * 16
      + BN.hex_value (hex_digit (Byte.to_N i mod 16)))%N = Byte.to_N i.
Proof.
  destruct i; split; vm_compute; reflexivity.
Qed.

Lemma parse_hex_join (l : list byte) (acc : N) :
  BN.parse_hex (join (map two_hex_digits l)) acc
  = fold_left (fun a x => (a * 256 + Byte.to_N x)%N) l acc.
Proof.
  revert acc. induction l as [|x l IH]; intros acc; [reflexivity|].
  cbn [map join fold_right fold_left].
  destruct (two_hex_digits_value x) as (-> & Hv).
  cbn [String.append BN.parse_hex]. fold (join (map two_hex_digits l)).
  rewrite IH. f_equal. lia.
Qed.

Lemma fold_rev_le_value (b : list byte) :
  Z.of_N (fold_left (fun a x => (a * 256 + Byte.to_N x)%N) (rev b) 0%N)
  = Buffer.le_value b.
Proof.
  rewrite <- (fold_left_rev_right (fun x a => (a * 256 + Byte.to_N x)%N)).
  rewrite rev_involutive.
  induction b as [|x b IH]; [reflexivity|].
  cbn [fold_right Buffer.le_value]. rewrite <- IH. unfold Buffer.byte_to_Z. lia.
Qed.

Lemma Numberu_fromBuffer_spec (w : Z) (buffer : Buffer.t) :
  (Buffer.length buffer <> w ->
   Numberu_fromBuffer w buffer = inl (InvalidBufferLength (Buffer.length buffer)))
  /\ (Buffer.length buffer = w ->
      exists n, Numberu_fromBuffer w buffer = inr n
                /\ Z.of_N n = Buffer.le_value buffer).
Proof.
  unfold Numberu_fromBuffer. split; intros H.
  - destruct (Z.eqb_spec (Buffer.length buffer) w); [contradiction|reflexivity].
  - destruct (Z.eqb_spec (Buffer.length buffer) w); [|contradiction]. cbn [negb].
    eexists. split; [reflexivity|].
    unfold BN.of_hex. rewrite parse_hex_join. apply fold_rev_le_value.
Qed.

Lemma Numberu_round_trip (w : nat) :
  (1 <= w)%nat ->
  (forall v : BN.t,
      Z.of_N v < 256 ^ Z.of_nat w ->
      exists b, Numberu_toBuffer (Z.of_nat w) v = inr b
                /\ List.length b = w
                /\ Numberu_fromBuffer (Z.of_nat w) b = inr v)
  /\ (forall b : Buffer.t,
        List.length b = w ->
        exists n, Numberu_fromBuffer (Z.of_nat w) b = inr n
                  /\ Numberu_toBuffer (Z.of_nat w) n = inr b).
Proof.
  intros Hw. split.
  - intros v Hv. destruct (Numberu_toBuffer_spec w v Hw) as [Hok _].
    exists (Buffer.le_bytes w (Z.of_N v)). split; [now apply Hok|].
    split; [apply le_bytes_length|].
    destruct (Numberu_fromBuffer_spec (Z.of_nat w) (Buffer.le_bytes w (Z.of_N v)))
      as [_ Hfrom].
    destruct Hfrom as (n & -> & Hn);
      [unfold Buffer.length; now rewrite le_bytes_length|].
    rewrite le_value_le_bytes in Hn by lia. f_equal. lia.
  - intros b Hb.
    destruct (Numberu_fromBuffer_spec (Z.of_nat w) b) as [_ Hfrom].
    destruct Hfrom as (n & Hn & Hval); [unfold Buffer.length; lia|].
    exists n. split; [exact Hn|].
    pose proof (le_value_range b) as Hr. rewrite Hb in Hr.
    destruct (Numberu_toBuffer_spec w n Hw) as [Hok _].
    rewrite Hok by lia. rewrite Hval, <- Hb. now rewrite le_bytes_le_value.
Qed.

(** X20: [Numberu32.toBuffer] returns the four little-endian bytes of a
    number below 2^32 and fails the assertion 'Numberu32 too large' for
    every number from 2^32 on. *)
Theorem Numberu32_toBuffer_little_endian (v : BN.t) :
  ((v < 2 ^ 32)%N ->
   Numberu32.toBuffer v = inr (Buffer.le_bytes 4 (Z.of_N v))
   /\ List.length (Buffer.le_bytes 4 (Z.of_N v)) = 4%nat)
  /\ ((2 ^ 32 <= v)%N -> Numberu32.toBuffer v = inl TooLarge).
Proof.
  destruct (Numberu_toBuffer_spec 4 v ltac:(lia)) as [Hok Hbig].
  change (256 ^ Z.of_nat 4) with (Z.of_N (2 ^ 32)) in Hok, Hbig.
  split.
  - intros Hv. split; [apply Hok; lia | apply le_bytes_length].
  - intros Hv. apply Hbig. lia.
Qed.

(** X21: [Numberu32.fromBuffer] fails its assertion unless the buffer has
    exactly four bytes, and then reads them little-endian through the
    hexadecimal string it builds; it undoes [toBuffer] on every number below
    2^32, and [toBuffer] undoes it on every four-byte buffer. *)
Theorem Numberu32_round_trip :
  (forall buffer, Buffer.length buffer <> 4 ->
     Numberu32.fromBuffer buffer = inl (InvalidBufferLength (Buffer.length buffer)))
  /\ (forall buffer, Buffer.length buffer = 4 ->
        exists n, Numberu32.fromBuffer buffer = inr n
                  /\ Z.of_N n = Buffer.le_value buffer
                  /\ Numberu32.toBuffer n = inr buffer)
  /\ (forall v : BN.t, (v < 2 ^ 32)%N ->
        exists b, Numberu32.toBuffer v = inr b /\ Numberu32.fromBuffer b = inr v).
Proof.
  destruct (Numberu_round_trip 4 ltac:(lia)) as [Hto Hfrom].
  split; [|split].
  - intros buffer H. now apply (Numberu_fromBuffer_spec 4 buffer).
  - intros buffer H.
    destruct (Hfrom buffer) as (n & Hn & Hback); [unfold Buffer.length in H; lia|].
    exists n. split; [exact Hn|]. split; [|exact Hback].
    destruct (proj2 (Numberu_fromBuffer_spec 4 buffer) H) as (n' & Hn' & Hv).
    unfold Numberu32.fromBuffer in *. change (Z.of_nat 4) with 4 in Hn.
    rewrite Hn in Hn'. now injection Hn' as ->.
  - intros v Hv.
    destruct (Hto v) as (b & Hb & _ & Hback).
    + change (256 ^ Z.of_nat 4) with (Z.of_N (2 ^ 32)). lia.
    + exists b. split; assumption.
Qed.

(** X22: [Numberu64.toBuffer] returns the eight little-endian bytes of a
    number below 2^64 and fails the assertion 'Numberu64 too large' for
    every number from 2^64 on. *)
Theorem Numberu64_toBuffer_little_endian (v : BN.t) :
  ((v < 2 ^ 64)%N ->
   Numberu64.toBuffer v = inr (Buffer.le_bytes 8 (Z.of_N v))
   /\ List.length (Buffer.le_bytes 8 (Z.of_N v)) = 8%nat)
  /\ ((2 ^ 64 <= v)%N -> Numberu64.toBuffer v = inl TooLarge).
Proof.
  destruct (Numberu_toBuffer_spec 8 v ltac:(lia)) as [Hok Hbig].
  change (256 ^ Z.of_nat 8) with (Z.of_N (2 ^ 64)) in Hok, Hbig.
  split.
  - intros Hv. split; [apply Hok; lia | apply le_bytes_length].
  - intros Hv. apply Hbig. lia.
Qed.

(** X23: [Numberu64.fromBuffer] fails its assertion unless the buffer has
    exactly eight bytes, and then reads them little-endian; it undoes
    [toBuffer] on every number below 2^64, and [toBuffer] undoes it on every
    eight-byte buffer. *)
Theorem Numberu64_round_trip :
  (forall buffer, Buffer.length buffer <> 8 ->
     Numberu64.fromBuffer buffer = inl (InvalidBufferLength (Buffer.length buffer)))
  /\ (forall buffer, Buffer.length buffer = 8 ->
        exists n, Numberu64.fromBuffer buffer = inr n
                  /\ Z.of_N n = Buffer.le_value buffer
                  /\ Numberu64.toBuffer n = inr buffer)
  /\ (forall v : BN.t, (v < 2 ^ 64)%N ->
        exists b, Numberu64.toBuffer v = inr b /\ Numberu64.fromBuffer b = inr v).
Proof.
  destruct (Numberu_round_trip 8 ltac:(lia)) as [Hto Hfrom].
  split; [|split].
  - intros buffer H. now apply (Numberu_fromBuffer_spec 8 buffer).
  - intros buffer H.
    destruct (Hfrom buffer) as (n & Hn & Hback); [unfold Buffer.length in H; lia|].
    exists n. split; [exact Hn|]. split; [|exact Hback].
    destruct (proj2 (Numberu_fromBuffer_spec 8 buffer) H) as (n' & Hn' & Hv).
    unfold Numberu64.fromBuffer in *. change (Z.of_nat 8) with 8 in Hn.
    rewrite Hn in Hn'. now injection Hn' as ->.
  - intros v Hv.
    destruct (Hto v) as (b & Hb & _ & Hback).
    + change (256 ^ Z.of_nat 8) with (Z.of_N (2 ^ 64)). lia.
    + exists b. split; assumption.
Qed.

(** ** The name-service account key and the sender *)

Section NameServiceProperties.

Variable NAME_PROGRAM_ID : PublicKey.t.
Variable findProgramAddress :
  list Buffer.t -> PublicKey.t -> result (PublicKey.t * Z).
Variable Account : Type.
Variable Account_publicKey : Account -> PublicKey.t.
Variable Transaction : Type.
Variable new_Transaction : Transaction.
Variable set_feePayer : PublicKey.t -> Transaction -> Transaction.
Variable Transaction_add :
  Transaction -> list TransactionInstruction.t -> result Transaction.
Variable sendTransaction : Transaction -> list Account -> result string.

(** X24: [getNameAccountKey] always derives from three seeds, the hashed
    name and two 32-byte seeds, under [NAME_PROGRAM_ID]; a missing class or
    parent is replaced by 32 zero bytes, so it gives the same key as the
    all-zero public key in that position. *)
Theorem missing_class_or_parent_is_the_zero_key (hashed_name : Buffer.t)
    (nameClass nameParent : option PublicKey.t) :
  let get := getNameAccountKey NAME_PROGRAM_ID findProgramAddress hashed_name in
  (exists c p,
      List.length c = 32%nat /\ List.length p = 32%nat
      /\ get nameClass nameParent
         = (let* found := findProgramAddress [hashed_name; c; p] NAME_PROGRAM_ID in
            ok (fst found))%result)
  /\ get None nameParent = get (Some (PublicKey.mk 0)) nameParent
  /\ get nameClass None = get nameClass (Some (PublicKey.mk 0)).
Proof.
  cbv zeta. split; [|split; reflexivity].
  unfold getNameAccountKey. cbn [app].
  eexists _, _. split; [|split; [|reflexivity]].
  - destruct nameClass; [apply toBuffer_length | reflexivity].
  - destruct nameParent; [apply toBuffer_length | reflexivity].
Qed.

(** X25: [signAndSendTransactionInstructions] changes the array it is given:
    after the call, whether it resolved or threw, the caller's [signers]
    holds the old entries followed by [feePayer]; and [sendTransaction],
    when it is reached, is given this longer array. *)
Theorem signers_array_gains_the_fee_payer (feePayer : Account)
    (txInstructions : list TransactionInstruction.t) (signers : list Account) :
  let run := signAndSendTransactionInstructions Account Account_publicKey Transaction
               new_Transaction set_feePayer Transaction_add sendTransaction
               feePayer txInstructions signers in
  snd run = signers ++ [feePayer]
  /\ (forall tx,
        Transaction_add (set_feePayer (Account_publicKey feePayer) new_Transaction)
          txInstructions = ok tx ->
        fst run = sendTransaction tx (signers ++ [feePayer]))
  /\ (forall e,
        Transaction_add (set_feePayer (Account_publicKey feePayer) new_Transaction)
          txInstructions = throw e ->
        fst run = throw e).
Proof.
  cbv zeta. unfold signAndSendTransactionInstructions, mbind, mlift.
  cbv beta iota delta [ok]. 
  destruct (Transaction_add _ txInstructions) as [e|tx]; cbn [fst snd].
  - split; [reflexivity|]. split; [discriminate|]. now intros e' [= ->].
  - split; [reflexivity|]. split; [|discriminate]. now intros tx' [= ->].
Qed.

End NameServiceProperties.

(** ** The stake-pool sample *)

Section StakePoolProperties.

Variable StakePoolAccount ValidatorListAccount : Type.
Variable StakePoolAccount_decode : Buffer.t -> result StakePoolAccount.
Variable ValidatorListAccount_decode : Buffer.t -> result ValidatorListAccount.

Local Abbreviation decode_entry' :=
  (StakePool.decode_entry StakePoolAccount ValidatorListAccount
     StakePoolAccount_decode ValidatorListAccount_decode).
Local Abbreviation map_entries' :=
  (StakePool.map_entries StakePoolAccount ValidatorListAccount
     StakePoolAccount_decode ValidatorListAccount_decode).
Local Abbreviation getStakePoolAccounts' :=
  (StakePool.getStakePoolAccounts StakePoolAccount ValidatorListAccount
     StakePoolAccount_decode ValidatorListAccount_decode).

(** the first byte of the data decides how an entry is decoded *)
Lemma decode_entry_cases (a : StakePool.ProgramAccount) :
  match StakePool.pa_data a with
  | [] => decode_entry' a = inl (StakePool.ThrownError RangeError)
  | x :: _ =>
      let tag := Buffer.byte_to_Z x in
      if tag =? 1 then
        decode_entry' a =
          match StakePoolAccount_decode (StakePool.pa_data a) with
          | inl e => inl (StakePool.ThrownError e)
          | inr d => inr (StakePool.mkDecodedAccount _ _ (StakePool.pa_pubkey a)
                            (StakePool.IsStakePool _ _ d) (StakePool.pa_executable a)
                            (StakePool.pa_lamports a) (StakePool.pa_owner a))
          end
      else if tag =? 2 then
        decode_entry' a =
          match ValidatorListAccount_decode (StakePool.pa_data a) with
          | inl e => inl (StakePool.ThrownError e)
          | inr d => inr (StakePool.mkDecodedAccount _ _ (StakePool.pa_pubkey a)
                            (StakePool.IsValidatorList _ _ d) (StakePool.pa_executable a)
                            (StakePool.pa_lamports a) (StakePool.pa_owner a))
          end
      else decode_entry' a = inl (StakePool.ThrownUnexpectedEnum tag)
  end.
Proof.
  unfold StakePool.decode_entry, StakePool.readUInt8.
  destruct (StakePool.pa_data a) as [|x data] eqn:Hdata; [reflexivity|].
  rewrite (readUIntLE_1 (x :: data) 0 x) by (lia || reflexivity).
  unfold ok. cbn [StakePool.lift_thrown StakePool.tbind]. cbv zeta.
  destruct (Buffer.byte_to_Z x =? 1).
  - destruct (StakePoolAccount_decode _); reflexivity.
  - cbn [StakePool.lift_thrown StakePool.tbind].
    destruct (Buffer.byte_to_Z x =? 2); [|reflexivity].
    destruct (ValidatorListAccount_decode _); reflexivity.
Qed.

Lemma map_entries_ok (response : list StakePool.ProgramAccount) :
  forall ds, map_entries' response = inr ds ->
    Forall2 (fun a d => decode_entry' a = inr d) response ds.
Proof.
  induction response as [|a rest IH]; intros ds.
  - cbn. intros [= <-]. constructor.
  - cbn [StakePool.map_entries].
    destruct (decode_entry' a) as [t|d] eqn:Hd; [discriminate|].
    cbn [StakePool.tbind].
    destruct (map_entries' rest) as [t|ds'] eqn:Hrest; [discriminate|].
    cbn [StakePool.tbind]. intros [= <-]. constructor; [exact Hd | now apply IH].
Qed.

Lemma map_entries_fails (response : list StakePool.ProgramAccount)
    (a : StakePool.ProgramAccount) (t : StakePool.thrown) :
  In a response -> decode_entry' a = inl t ->
  exists t', map_entries' response = inl t'.
Proof.
  induction response as [|a0 rest IH]; intros Hin Ha; [contradiction|].
  cbn [StakePool.map_entries].
  destruct (decode_entry' a0) as [t0|d0] eqn:H0; [eexists; reflexivity|].
  cbn [StakePool.tbind].
  destruct Hin as [-> | Hin]; [rewrite Ha in H0; discriminate|].
  destruct (IH Hin Ha) as (t' & ->). eexists; reflexivity.
Qed.

(** X26: [getStakePoolAccounts] is all or nothing.  If one entry of the
    response has empty data or a first byte other than 1 and 2, the promise
    resolves to [undefined] for the whole response, with the two log lines;
    no decoded entry is returned. *)
Theorem one_unknown_account_discards_all (response : list StakePool.ProgramAccount)
    (a : StakePool.ProgramAccount) :
  In a response ->
  (forall x rest, StakePool.pa_data a = x :: rest ->
     Buffer.byte_to_Z x <> 1 /\ Buffer.byte_to_Z x <> 2) ->
  exists t,
    getStakePoolAccounts' (ok response)
    = (None, [StakePool.LogText "I have an error"; StakePool.LogThrown t]).
Proof.
  intros Hin Htag.
  assert (exists t, decode_entry' a = inl t) as (t & Ht).
  { pose proof (decode_entry_cases a) as Hc.
    destruct (StakePool.pa_data a) as [|x rest] eqn:Hdata; [eauto|].
    destruct (Htag x rest eq_refl) as [H1 H2]. cbv zeta in Hc.
    destruct (Z.eqb_spec (Buffer.byte_to_Z x) 1); [contradiction|].
    destruct (Z.eqb_spec (Buffer.byte_to_Z x) 2); [contradiction|]. eauto. }
  destruct (map_entries_fails response a t Hin Ht) as (t' & Ht').
  exists t'. unfold StakePool.getStakePoolAccounts.
  cbn [StakePool.lift_thrown StakePool.tbind ok]. now rewrite Ht'.
Qed.

(** X27: when [getStakePoolAccounts] resolves to a list, the list has one
    entry per account of the response, in the same order, with the same
    pubkey, executable flag, lamports and owner; the data of each was
    decoded as a stake pool when its first byte is 1 and as a validator list
    when it is 2; and nothing was logged. *)
Theorem decoded_accounts_follow_the_response
    (response : result (list StakePool.ProgramAccount))
    (ds : list (StakePool.DecodedAccount StakePoolAccount ValidatorListAccount))
    (logs : list StakePool.logged) :
  getStakePoolAccounts' response = (Some ds, logs) ->
  exists accounts,
    response = ok accounts
    /\ logs = []
    /\ Forall2
         (fun a d =>
            StakePool.da_pubkey _ _ d = StakePool.pa_pubkey a
            /\ StakePool.da_executable _ _ d = StakePool.pa_executable a
            /\ StakePool.da_lamports _ _ d = StakePool.pa_lamports a
            /\ StakePool.da_owner _ _ d = StakePool.pa_owner a
            /\ exists x rest,
                 StakePool.pa_data a = x :: rest
                 /\ match StakePool.da_data _ _ d with
                    | StakePool.IsStakePool _ _ sp =>
                        Buffer.byte_to_Z x = 1
                        /\ StakePoolAccount_decode (StakePool.pa_data a) = ok sp
                    | StakePool.IsValidatorList _ _ vl =>
                        Buffer.byte_to_Z x = 2
                        /\ ValidatorListAccount_decode (StakePool.pa_data a) = ok vl
                    end)
         accounts ds.
Proof.
  unfold StakePool.getStakePoolAccounts.
  destruct response as [e|accounts]; cbn [StakePool.lift_thrown StakePool.tbind];
    [discriminate|].
  destruct (map_entries' accounts) as [t|ds'] eqn:Hmap; [discriminate|].
  intros [= <- <-]. exists accounts. split; [reflexivity|]. split; [reflexivity|].
  apply map_entries_ok in Hmap.
  eapply Forall2_impl; [exact Hmap|]. clear Hmap.
  intros a d Hd. cbv beta in Hd. pose proof (decode_entry_cases a) as Hc.
  destruct (StakePool.pa_data a) as [|x rest] eqn:Hdata.
  { rewrite Hc in Hd. discriminate. }
  cbv zeta in Hc.
  destruct (Z.eqb_spec (Buffer.byte_to_Z x) 1) as [E1|N1].
  - rewrite Hc in Hd.
    destruct (StakePoolAccount_decode (x :: rest)) as [e|sp] eqn:Hsp; [discriminate|].
    injection Hd as <-. cbn. repeat split. exists x, rest. repeat split; assumption.
  - destruct (Z.eqb_spec (Buffer.byte_to_Z x) 2) as [E2|N2].
    + rewrite Hc in Hd.
      destruct (ValidatorListAccount_decode (x :: rest)) as [e|vl] eqn:Hvl; [discriminate|].
      injection Hd as <-. cbn. repeat split. exists x, rest. repeat split; assumption.
    + rewrite Hc in Hd. discriminate.
Qed.

End StakePoolProperties.

(** ** The further theorems at concrete inputs *)

Lemma descriptor_decode_witness :
  (Buffer.length (Buffer.alloc 40) < 3 + 35 ->
   BufferLayout.decode ExtraAccountMetaLayout (Buffer.alloc 40) 3 = throw RangeError)
  /\ (3 + 35 <= Buffer.length (Buffer.alloc 40) ->
      exists d, BufferLayout.decode ExtraAccountMetaLayout (Buffer.alloc 40) 3 = ok d
                /\ well_formed d).
Proof.
  apply (descriptor_decode_needs_35_bytes (Buffer.alloc 40) 3). lia.
Defined.

Lemma decoded_well_formed_witness :
  Forall well_formed [one_zero_descriptor]
  /\ Z.of_nat (List.length [one_zero_descriptor]) = (Buffer.length (Buffer.alloc 49) - 4) / 35.
Proof.
  apply (decoded_descriptors_are_well_formed (Buffer.alloc 49) [one_zero_descriptor]).
  vm_compute. reflexivity.
Defined.

Lemma decoded_entry_witness :
  BufferLayout.decode ExtraAccountMetaLayout (Buffer.alloc 49) (4 + 35 * Z.of_nat 0)
  = ok one_zero_descriptor
  /\ 4 + 35 * Z.of_nat 0 + 35 <= Buffer.length (Buffer.alloc 49).
Proof.
  apply (decoded_entry_sits_at_4_plus_35_i (Buffer.alloc 49) [one_zero_descriptor]
           0 one_zero_descriptor).
  - vm_compute. reflexivity.
  - reflexivity.
Defined.

Lemma count_field_witness :
  getExtraAccountMetas (Buffer.le_bytes 4 7 ++ Buffer.alloc 35)
  = getExtraAccountMetas (Buffer.le_bytes 4 0 ++ Buffer.alloc 35).
Proof.
  apply (descriptors_ignore_the_count_field (Buffer.le_bytes 4 7) (Buffer.le_bytes 4 0)
           (Buffer.alloc 35)); reflexivity.
Defined.

Lemma encode_iff_witness :
  (fst (BufferLayout.encode ExtraAccountMetaLayout delegated_0 3 (Buffer.alloc 40)) = ok 35
   <-> well_formed delegated_0 /\ 3 + 35 <= Buffer.length (Buffer.alloc 40))
  /\ (forall n,
        fst (BufferLayout.encode ExtraAccountMetaLayout delegated_0 3 (Buffer.alloc 40)) = ok n ->
        n = 35)
  /\ Buffer.length (snd (BufferLayout.encode ExtraAccountMetaLayout delegated_0 3
                           (Buffer.alloc 40)))
     = Buffer.length (Buffer.alloc 40).
Proof.
  apply (encode_descriptor_succeeds_iff delegated_0 (Buffer.alloc 40) 3). lia.
Defined.

Lemma partial_write_witness :
  BufferLayout.encode ExtraAccountMetaLayout short_config 3 (Buffer.alloc 40)
  = (throw TypeError, <[3%nat := "005"%byte]> (Buffer.alloc 40)).
Proof.
  apply (encode_descriptor_partial_write short_config (Buffer.alloc 40) 3).
  - unfold Buffer.length. simpl. lia.
  - simpl. lia.
  - simpl. lia.
Defined.

Lemma wide_count_witness :
  BufferLayout.encode ExtraAccountMetaListLayout wide_count 0 (Buffer.alloc 4)
  = (throw RangeError, Buffer.alloc 4).
Proof.
  apply (encode_list_rejects_wide_count wide_count (Buffer.alloc 4)).
  simpl. lia.
Defined.

Lemma TransferHook_round_trip_witness :
  TRANSFER_HOOK_SIZE = 64
  /\ BufferLayout.encode TransferHookLayout hook_record 0 (Buffer.alloc 64)
     = (ok 64, PublicKey.toBuffer key_A ++ PublicKey.toBuffer hook_id)
  /\ BufferLayout.decode TransferHookLayout
       (PublicKey.toBuffer key_A ++ PublicKey.toBuffer hook_id) 0
     = ok hook_record.
Proof.
  apply (TransferHook_round_trip hook_record (Buffer.alloc 64) 0).
  - unfold valid_key. simpl. lia.
  - unfold valid_key. simpl. lia.
  - lia.
  - unfold Buffer.length. simpl. lia.
Defined.

Lemma TransferHook_decode_witness :
  exists h,
    BufferLayout.decode TransferHookLayout (Buffer.alloc 10) 0 = ok h
    /\ valid_key (TransferHook.authority h)
    /\ valid_key (TransferHook.programId h)
    /\ (Buffer.alloc 10 = [] -> h = TransferHook.mk (PublicKey.mk 0) (PublicKey.mk 0)).
Proof.
  apply (TransferHook_decode_never_throws (Buffer.alloc 10) 0). lia.
Defined.

Lemma getTransferHook_witness :
  exists r : option TransferHook.t,
    getTransferHook demo_getExtensionData (Buffer.alloc 10) = ok r
    /\ (r = None <-> Some (Buffer.alloc 6) = None).
Proof.
  apply (getTransferHook_never_throws_on_data demo_getExtensionData (Buffer.alloc 10)
           (Some (Buffer.alloc 6))).
  reflexivity.
Defined.

Lemma getTransferHookAccount_witness :
  getTransferHookAccount demo_getExtensionData (Buffer.alloc 4 ++ ["001"%byte])
  = ok (Some (TransferHookAccount.mk true)).
Proof.
  apply (getTransferHookAccount_reads_first_byte demo_getExtensionData
           (Buffer.alloc 4 ++ ["001"%byte]) ["001"%byte]).
  reflexivity.
Defined.

Lemma index_beyond_witness :
  resolveExtraAccountMeta demo_unpackSeeds demo_findProgramAddressSync
    delegated_0 [] [] hook_id
  = (throw TokenTransferHookAccountNotFound, mkWorld [] []).
Proof.
  apply (index_beyond_resolved_list_is_not_found demo_unpackSeeds
           demo_findProgramAddressSync delegated_0 [] [] hook_id);
    simpl; lia.
Defined.

Lemma delegated_derives_witness :
  fst (resolveExtraAccountMeta demo_unpackSeeds demo_findProgramAddressSync
         delegated_0 [resolved_A] [] hook_id)
  = (let* seeds := demo_unpackSeeds (ExtraAccountMeta.addressConfig delegated_0)
                     [resolved_A] [] in
     let* found := demo_findProgramAddressSync seeds key_A in
     ok (AccountMeta.mk (fst found) false true))%result
  /\ (forall seeds,
        demo_unpackSeeds (ExtraAccountMeta.addressConfig delegated_0) [resolved_A] []
        = ok seeds ->
        calls (snd (resolveExtraAccountMeta demo_unpackSeeds demo_findProgramAddressSync
                      delegated_0 [resolved_A] [] hook_id))
        = [CallUnpackSeeds (ExtraAccountMeta.addressConfig delegated_0) [resolved_A] [];
           CallFindProgramAddressSync seeds key_A]).
Proof.
  apply (delegated_derives_under_indexed_entry demo_unpackSeeds
           demo_findProgramAddressSync delegated_0 [resolved_A] [] hook_id resolved_A).
  - simpl. lia.
  - reflexivity.
Defined.

Lemma hook_program_witness :
  resolveExtraAccountMeta demo_unpackSeeds demo_findProgramAddressSync
    delegated_0 [resolved_A] [] key_A
  = resolveExtraAccountMeta demo_unpackSeeds demo_findProgramAddressSync
      delegated_0 [resolved_A] [] hook_id.
Proof.
  apply (hook_program_matters_only_for_discriminator_1 demo_unpackSeeds
           demo_findProgramAddressSync delegated_0 [resolved_A] [] key_A hook_id).
  simpl. lia.
Defined.

Lemma initialize_layout_witness :
  createInitializeMetadataPointerInstruction demo_programSupportsExtensions 39
    key_A None (Some hook_id) token_2022
  = inr (TransactionInstruction.mk [AccountMeta.mk key_A false true] token_2022
           ([Buffer.byte_of_Z 39; "000"%byte]
            ++ PublicKey.toBuffer (or_zero_key None)
            ++ PublicKey.toBuffer (or_zero_key (Some hook_id))))
  /\ List.length ([Buffer.byte_of_Z 39; "000"%byte]
                  ++ PublicKey.toBuffer (or_zero_key None)
                  ++ PublicKey.toBuffer (or_zero_key (Some hook_id))) = 66%nat
  /\ PublicKey.toBuffer (or_zero_key None) = replicate 32 "000"%byte
  /\ BufferLayout.decode initializeMetadataPointer
       ([Buffer.byte_of_Z 39; "000"%byte]
        ++ PublicKey.toBuffer (or_zero_key None)
        ++ PublicKey.toBuffer (or_zero_key (Some hook_id))) 0
     = ok (InitializeData.mk 39 0 (or_zero_key None) (or_zero_key (Some hook_id))).
Proof.
  apply (initialize_instruction_layout demo_programSupportsExtensions 39
           key_A None (Some hook_id) token_2022).
  - reflexivity.
  - lia.
  - discriminate.
  - intros k [= <-]. unfold valid_key. simpl. lia.
Defined.

Lemma initialize_failures_witness :
  (demo_programSupportsExtensions hook_id = false ->
   createInitializeMetadataPointerInstruction demo_programSupportsExtensions 39
     key_A None None hook_id = inl TokenUnsupportedInstructionError)
  /\ (demo_programSupportsExtensions hook_id = true ->
      ~ (0 <= 39 <= 255) ->
      createInitializeMetadataPointerInstruction demo_programSupportsExtensions 39
        key_A None None hook_id = inl (EncodeError RangeError))
  /\ ((exists i,
         createInitializeMetadataPointerInstruction demo_programSupportsExtensions 39
           key_A None None hook_id = inr i)
      <-> demo_programSupportsExtensions hook_id = true /\ 0 <= 39 <= 255).
Proof.
  apply (initialize_instruction_failures demo_programSupportsExtensions 39
           key_A None None hook_id); discriminate.
Defined.

Lemma update_layout_witness :
  createUpdateMetadataPointerInstruction demo_programSupportsExtensions 39
    PublicKey.t demo_addSigners key_A hook_id None [] token_2022
  = inr (TransactionInstruction.mk
           (demo_addSigners [AccountMeta.mk key_A false true] hook_id [])
           token_2022
           ([Buffer.byte_of_Z 39; "001"%byte] ++ PublicKey.toBuffer (or_zero_key None)))
  /\ List.length ([Buffer.byte_of_Z 39; "001"%byte]
                  ++ PublicKey.toBuffer (or_zero_key None)) = 34%nat
  /\ BufferLayout.decode updateMetadataPointer
       ([Buffer.byte_of_Z 39; "001"%byte] ++ PublicKey.toBuffer (or_zero_key None)) 0
     = ok (UpdateData.mk 39 1 (or_zero_key None)).
Proof.
  apply (update_instruction_layout demo_programSupportsExtensions 39
           PublicKey.t demo_addSigners key_A hook_id None [] token_2022).
  - reflexivity.
  - lia.
  - discriminate.
Defined.

Lemma unknown_account_witness :
  exists t,
    StakePool.getStakePoolAccounts Buffer.t Buffer.t demo_schema_decode demo_schema_decode
      (ok [pool_account; unknown_account])
    = (None, [StakePool.LogText "I have an error"; StakePool.LogThrown t]).
Proof.
  apply (one_unknown_account_discards_all Buffer.t Buffer.t demo_schema_decode
           demo_schema_decode [pool_account; unknown_account] unknown_account).
  - simpl. right. left. reflexivity.
  - intros x rest [= <- <-]. vm_compute. split; discriminate.
Defined.

Lemma decoded_accounts_witness :
  exists accounts,
    ok [pool_account] = ok accounts
    /\ @nil StakePool.logged = []
    /\ Forall2
         (fun a d =>
            StakePool.da_pubkey _ _ d = StakePool.pa_pubkey a
            /\ StakePool.da_executable _ _ d = StakePool.pa_executable a
            /\ StakePool.da_lamports _ _ d = StakePool.pa_lamports a
            /\ StakePool.da_owner _ _ d = StakePool.pa_owner a
            /\ exists x rest,
                 StakePool.pa_data a = x :: rest
                 /\ match StakePool.da_data _ _ d with
                    | StakePool.IsStakePool _ _ sp =>
                        Buffer.byte_to_Z x = 1
                        /\ demo_schema_decode (StakePool.pa_data a) = ok sp
                    | StakePool.IsValidatorList _ _ vl =>
                        Buffer.byte_to_Z x = 2
                        /\ demo_schema_decode (StakePool.pa_data a) = ok vl
                    end)
         accounts
         [StakePool.mkDecodedAccount Buffer.t Buffer.t key_A
            (StakePool.IsStakePool Buffer.t Buffer.t ["001"%byte; "009"%byte])
            false 5 hook_id].
Proof.
  apply (decoded_accounts_follow_the_response Buffer.t Buffer.t demo_schema_decode
           demo_schema_decode (ok [pool_account])
           [StakePool.mkDecodedAccount Buffer.t Buffer.t key_A
              (StakePool.IsStakePool Buffer.t Buffer.t ["001"%byte; "009"%byte])
              false 5 hook_id]
           []).
  vm_compute. reflexivity.
Defined.
